(** * Workout store and workout handler: a shallow embedding

    The Go sources embedded here are the Postgres workout store
    (CreateWorkout, GetWorkoutByID, UpdateWorkout) and the HTTP handlers of
    internal/api/workout_handler.go.  The database is modelled as two tables
    of rows, a pair of identity sequences and one transaction slot; every
    call into database/sql whose error the Go code receives (Begin,
    QueryRow(...).Scan, Query, rows.Scan, Exec, RowsAffected, Commit) may be
    made to fail by a fault script carried in the state.  Two more choices
    of the engine are carried there: the order it gives to rows that
    ORDER BY leaves tied, and the fetch fault that makes rows.Next end a
    result set early. *)

From Stdlib Require Import ZArith List String Bool Lia.
From Stdlib Require Import Sorting.Sorted Sorting.Permutation.
Import ListNotations.
Local Open Scope Z_scope.

(** ** Data model (package store) *)

(** A float64 is only stored and read back, never computed with: it is kept
    as its IEEE-754 binary64 bit pattern. *)
Definition float64 := Z.

(** type WorkoutEntry struct.  The Go field is called ID; it is EntryID here
    because Workout has a field of the same name. *)
Record WorkoutEntry := mkWorkoutEntry {
  EntryID : Z;
  ExerciseName : string;
  Sets : Z;
  Reps : option Z;
  DurationSeconds : option Z;
  Weight : option float64;
  Notes : string;
  OrderIndex : Z
}.

(** type Workout struct.  UserID is the field the handler assigns
    (workout.UserID = currentUser.ID); no statement of the store reads it. *)
Record Workout := mkWorkout {
  ID : Z;
  Title : string;
  Description : string;
  DurationMinutes : Z;
  CaloriesBurned : Z;
  UserID : Z;
  Entries : list WorkoutEntry
}.

Definition set_ID (v : Z) (w : Workout) : Workout :=
  mkWorkout v (Title w) (Description w) (DurationMinutes w) (CaloriesBurned w)
            (UserID w) (Entries w).
Definition set_Title (v : string) (w : Workout) : Workout :=
  mkWorkout (ID w) v (Description w) (DurationMinutes w) (CaloriesBurned w)
            (UserID w) (Entries w).
Definition set_Description (v : string) (w : Workout) : Workout :=
  mkWorkout (ID w) (Title w) v (DurationMinutes w) (CaloriesBurned w)
            (UserID w) (Entries w).
Definition set_DurationMinutes (v : Z) (w : Workout) : Workout :=
  mkWorkout (ID w) (Title w) (Description w) v (CaloriesBurned w)
            (UserID w) (Entries w).
Definition set_CaloriesBurned (v : Z) (w : Workout) : Workout :=
  mkWorkout (ID w) (Title w) (Description w) (DurationMinutes w) v
            (UserID w) (Entries w).
Definition set_UserID (v : Z) (w : Workout) : Workout :=
  mkWorkout (ID w) (Title w) (Description w) (DurationMinutes w)
            (CaloriesBurned w) v (Entries w).
Definition set_Entries (v : list WorkoutEntry) (w : Workout) : Workout :=
  mkWorkout (ID w) (Title w) (Description w) (DurationMinutes w)
            (CaloriesBurned w) (UserID w) v.

Definition set_EntryID (v : Z) (e : WorkoutEntry) : WorkoutEntry :=
  mkWorkoutEntry v (ExerciseName e) (Sets e) (Reps e) (DurationSeconds e)
                 (Weight e) (Notes e) (OrderIndex e).

(** ** The relational state *)

(** workouts(id, title, description, duration_minutes, calories_burned,
    user_id).  A column an INSERT does not list is NULL. *)
Record WorkoutRow := mkWorkoutRow {
  w_id : Z;
  w_title : string;
  w_description : string;
  w_duration_minutes : Z;
  w_calories_burned : Z;
  w_user_id : option Z
}.

(** workout_entries(id, workout_id, exercise_name, sets, reps,
    duration_seconds, weight, notes, order_index). *)
Record EntryRow := mkEntryRow {
  e_id : Z;
  e_workout_id : Z;
  e_exercise_name : string;
  e_sets : Z;
  e_reps : option Z;
  e_duration_seconds : option Z;
  e_weight : option float64;
  e_notes : string;
  e_order_index : Z
}.

Record Tables := mkTables {
  workouts : list WorkoutRow;
  workout_entries : list EntryRow
}.

(** sql.ErrNoRows, sql.ErrConnDone, sql.ErrTxDone and any error of the
    driver or the server (constraint violation, lost connection, ...). *)
Inductive error :=
| ErrNoRows
| ErrConnDone
| ErrTxDone
| ErrDriver (msg : string).

(** What the fault script can inject: every database error except "no
    rows", which only a QueryRow that selects nothing produces. *)
Inductive fault :=
| ConnDone
| Driver (msg : string).

Definition fault_error (f : fault) : error :=
  match f with
  | ConnDone => ErrConnDone
  | Driver msg => ErrDriver msg
  end.

(** [committed] is what every connection reads; [pending] is the working copy
    of the open transaction; the two sequences hand out the identities of
    RETURNING id and are not rolled back; [script] gives, call by call,
    whether the next database call fails ([None], or an exhausted script,
    lets it run); [log] collects the error result of every such call, and
    the error of a fetch that failed.  [tie_before a b] is the engine's
    choice between two rows an ORDER BY leaves tied: whether [a] comes
    before [b].  [fetch_fault], when it is [Some (n, f)], makes the fetching
    of the next result set fail with [f] once [n] rows have been
    delivered. *)
Record World := mkWorld {
  committed : Tables;
  pending : option Tables;
  workouts_id_seq : Z;
  workout_entries_id_seq : Z;
  script : list (option fault);
  log : list (option error);
  tie_before : EntryRow -> EntryRow -> bool;
  fetch_fault : option (nat * fault)
}.

Definition set_committed (t : Tables) (w : World) : World :=
  mkWorld t (pending w) (workouts_id_seq w) (workout_entries_id_seq w)
          (script w) (log w) (tie_before w) (fetch_fault w).
Definition set_pending (p : option Tables) (w : World) : World :=
  mkWorld (committed w) p (workouts_id_seq w) (workout_entries_id_seq w)
          (script w) (log w) (tie_before w) (fetch_fault w).
Definition set_workouts_id_seq (n : Z) (w : World) : World :=
  mkWorld (committed w) (pending w) n (workout_entries_id_seq w)
          (script w) (log w) (tie_before w) (fetch_fault w).
Definition set_workout_entries_id_seq (n : Z) (w : World) : World :=
  mkWorld (committed w) (pending w) (workouts_id_seq w) n
          (script w) (log w) (tie_before w) (fetch_fault w).
Definition set_script (s : list (option fault)) (w : World) : World :=
  mkWorld (committed w) (pending w) (workouts_id_seq w)
          (workout_entries_id_seq w) s (log w) (tie_before w)
          (fetch_fault w).
Definition set_log (l : list (option error)) (w : World) : World :=
  mkWorld (committed w) (pending w) (workouts_id_seq w)
          (workout_entries_id_seq w) (script w) l (tie_before w)
          (fetch_fault w).
Definition set_fetch_fault (x : option (nat * fault)) (w : World) : World :=
  mkWorld (committed w) (pending w) (workouts_id_seq w)
          (workout_entries_id_seq w) (script w) (log w) (tie_before w) x.

(** ** Go's (value, error) results threaded through the state *)

Inductive result (A : Type) :=
| Ok (a : A)
| Err (e : error).
Arguments Ok {A} a.
Arguments Err {A} e.

Definition M (A : Type) : Type := World -> result A * World.

Definition ret {A} (a : A) : M A := fun w => (Ok a, w).

Definition bind {A B} (m : M A) (k : A -> M B) : M B :=
  fun w =>
    match m w with
    | (Ok a, w1) => k a w1
    | (Err e, w1) => (Err e, w1)
    end.

Declare Scope go_scope.
Delimit Scope go_scope with go.
Notation "x <- m ;; k" := (bind m (fun x => k))
  (at level 100, m at next level, right associativity) : go_scope.
Local Open Scope go_scope.

(** [if err != nil { return nil, e' }]: the error is replaced. *)
Definition replace_err {A} (m : M A) (e' : error) : M A :=
  fun w =>
    match m w with
    | (Ok a, w1) => (Ok a, w1)
    | (Err _, w1) => (Err e', w1)
    end.

(** [defer f()]: [f] runs when the function returns, whatever it returns;
    its own result is dropped. *)
Definition defer {A B} (f : M B) (m : M A) : M A :=
  fun w => let (r, w1) := m w in (r, snd (f w1)).

Definition error_of {A} (r : result A) : option error :=
  match r with
  | Ok _ => None
  | Err e => Some e
  end.

(** ** database/sql *)

Definition next_fault (w : World) : option fault :=
  match script w with
  | Some f :: _ => Some f
  | _ => None
  end.

Definition pop_script (w : World) : World := set_script (tl (script w)) w.

Definition record_outcome (o : option error) (w : World) : World :=
  set_log (log w ++ [o]) w.

(** One call into the database: the script decides whether it fails before
    having any effect; otherwise [run] is its effect. *)
Definition db_call {A} (run : World -> result A * World) : M A :=
  fun w =>
    match next_fault w with
    | Some f =>
        (Err (fault_error f),
         record_outcome (Some (fault_error f)) (pop_script w))
    | None =>
        let (r, w1) := run (pop_script w) in
        (r, record_outcome (error_of r) w1)
    end.

(** A statement sent on a transaction handle works on the pending copy. *)
Definition on_pending {A} (run : Tables -> World -> A * Tables * World)
  : World -> result A * World :=
  fun w =>
    match pending w with
    | Some t =>
        let '(a, t1, w1) := run t w in (Ok a, set_pending (Some t1) w1)
    | None => (Err ErrTxDone, w)
    end.

(** A statement sent on the pool runs in its own transaction. *)
Definition on_committed {A} (run : Tables -> result A * Tables)
  : World -> result A * World :=
  fun w => let (r, t1) := run (committed w) in (r, set_committed t1 w).

(** pg.db.Begin() *)
Definition Begin : M unit :=
  db_call (fun w => (Ok tt, set_pending (Some (committed w)) w)).

(** tx.Commit() *)
Definition Commit : M unit :=
  db_call (fun w =>
    match pending w with
    | Some t => (Ok tt, set_pending None (set_committed t w))
    | None => (Err ErrTxDone, w)
    end).

(** tx.Rollback(): the pending copy is dropped; after a Commit there is
    none and the call is a no-op (it returns sql.ErrTxDone). *)
Definition Rollback : M unit :=
  fun w =>
    match pending w with
    | Some _ => (Ok tt, set_pending None w)
    | None => (Err ErrTxDone, w)
    end.

(** *** The SQL statements of the store, on tables *)

(** INSERT INTO workouts (title, description, duration_minutes,
    calories_burned) VALUES ($1, $2, $3, $4) RETURNING id *)
Definition insert_workout (title description : string)
    (duration_minutes calories_burned : Z) (t : Tables) (w : World)
  : Z * Tables * World :=
  let id := workouts_id_seq w in
  let row := mkWorkoutRow id title description duration_minutes
                          calories_burned None in
  (id,
   mkTables (workouts t ++ [row]) (workout_entries t),
   set_workouts_id_seq (id + 1) w).

Definition entry_row (id workout_id : Z) (e : WorkoutEntry) : EntryRow :=
  mkEntryRow id workout_id (ExerciseName e) (Sets e) (Reps e)
             (DurationSeconds e) (Weight e) (Notes e) (OrderIndex e).

(** INSERT INTO workout_entries (workout_id, exercise_name, sets, reps,
    duration_seconds, weight, notes, order_index) VALUES ($1, ..., $8)
    with or without RETURNING id *)
Definition insert_entry (workout_id : Z) (e : WorkoutEntry) (t : Tables)
    (w : World) : Z * Tables * World :=
  let id := workout_entries_id_seq w in
  (id,
   mkTables (workouts t) (workout_entries t ++ [entry_row id workout_id e]),
   set_workout_entries_id_seq (id + 1) w).

Definition update_row (title description : string)
    (duration_minutes calories_burned id : Z) (r : WorkoutRow) : WorkoutRow :=
  if w_id r =? id
  then mkWorkoutRow (w_id r) title description duration_minutes
                    calories_burned (w_user_id r)
  else r.

(** UPDATE workouts SET title = $1, description = $2, duration_minutes = $3,
    calories_burned = $4 WHERE id = $5; the value is the number of rows
    affected. *)
Definition update_workout (title description : string)
    (duration_minutes calories_burned id : Z) (t : Tables) (w : World)
  : Z * Tables * World :=
  (Z.of_nat (List.length (filter (fun r => w_id r =? id) (workouts t))),
   mkTables
     (map (update_row title description duration_minutes calories_burned id)
          (workouts t))
     (workout_entries t),
   w).

(** DELETE FROM workout_entries WHERE workout_id = $1 *)
Definition delete_entries (workout_id : Z) (t : Tables) (w : World)
  : unit * Tables * World :=
  (tt,
   mkTables (workouts t)
            (filter (fun r => negb (e_workout_id r =? workout_id))
                    (workout_entries t)),
   w).

(** SELECT id, title, description, duration_minutes, calories_burned
    FROM workouts WHERE id = $1, through QueryRow: the first row, or
    sql.ErrNoRows from Scan. *)
Definition select_workout (id : Z) (t : Tables)
  : result WorkoutRow * Tables :=
  match find (fun r => w_id r =? id) (workouts t) with
  | Some r => (Ok r, t)
  | None => (Err ErrNoRows, t)
  end.

(** ORDER BY order_index.  The statement names no second key: a row goes
    before the rows of greater order_index, and before a row of equal
    order_index when the engine's choice [before] says so. *)
Fixpoint insert_by_order_index (before : EntryRow -> EntryRow -> bool)
    (r : EntryRow) (l : list EntryRow) : list EntryRow :=
  match l with
  | [] => [r]
  | x :: l' =>
      if (e_order_index r <? e_order_index x) ||
         ((e_order_index r =? e_order_index x) && before r x)
      then r :: l
      else x :: insert_by_order_index before r l'
  end.

Definition order_by_order_index (before : EntryRow -> EntryRow -> bool)
    (l : list EntryRow) : list EntryRow :=
  fold_left (fun acc r => insert_by_order_index before r acc) l [].

(** SELECT id, exercise_name, sets, reps, duration_seconds, weight, notes,
    order_index FROM workout_entries WHERE workout_id = $1
    ORDER BY order_index *)
Definition select_entries (before : EntryRow -> EntryRow -> bool) (id : Z)
    (t : Tables) : list EntryRow :=
  order_by_order_index before
    (filter (fun r => e_workout_id r =? id) (workout_entries t)).

(** *sql.Rows: the rows selected and the fetch fault that awaits them. *)
Record Rows := mkRows {
  selected : list EntryRow;
  fetch_failure : option (nat * fault)
}.

(** pg.db.Query(entryQuery, id): the result set takes the fetch fault of
    the state with it. *)
Definition Query_entries (id : Z) : M Rows :=
  db_call (fun w =>
    (Ok (mkRows (select_entries (tie_before w) id (committed w))
                (fetch_fault w)),
     set_fetch_fault None w)).

(** ** The store *)

(** The loop [for _, entry := range workout.Entries] of CreateWorkout.
    [entry] is the loop's copy of the element: Scan(&entry.ID) writes the
    returned identity into that copy, and the slice is not written. *)
Fixpoint create_entries (workoutID : Z) (entries : list WorkoutEntry)
  : M unit :=
  match entries with
  | [] => ret tt
  | entry :: rest =>
      id <- db_call (on_pending (insert_entry workoutID entry)) ;;
      let entry := set_EntryID id entry in
      create_entries workoutID rest
  end.

(** func (pg *PostgresWorkoutStore) CreateWorkout: the workout pointer
    given is the one returned, with its ID written by Scan. *)
Definition CreateWorkout (workout : Workout) : M Workout :=
  _ <- Begin ;;
  defer Rollback
    (id <- db_call (on_pending
           (insert_workout (Title workout) (Description workout)
              (DurationMinutes workout) (CaloriesBurned workout))) ;;
     let workout := set_ID id workout in
     _ <- create_entries (ID workout) (Entries workout) ;;
     _ <- replace_err Commit ErrConnDone ;;
     ret workout).

Definition scan_entry (r : EntryRow) : WorkoutEntry :=
  mkWorkoutEntry (e_id r) (e_exercise_name r) (e_sets r) (e_reps r)
                 (e_duration_seconds r) (e_weight r) (e_notes r)
                 (e_order_index r).

(** One row fewer before the fetch fault. *)
Definition after_one_row (fetch : option (nat * fault))
  : option (nat * fault) :=
  match fetch with
  | Some (S n, f) => Some (n, f)
  | _ => fetch
  end.

(** The loop [for rows.Next()] of GetWorkoutByID.  When the fetch fault is
    due, rows.Next() returns false and the loop ends as it does at the last
    row: the error is kept for rows.Err(), which GetWorkoutByID does not
    call after the loop.  Otherwise rows.Next() gives the next row, if
    any; rows.Scan may fail on it; if not, the entry is appended to
    workout.Entries. *)
Fixpoint scan_rows (rows : list EntryRow) (fetch : option (nat * fault))
    (workout : Workout) : M Workout :=
  match fetch with
  | Some (O, f) =>
      fun w => (Ok workout, record_outcome (Some (fault_error f)) w)
  | _ =>
      match rows with
      | [] => ret workout
      | r :: rest =>
          entry <- db_call (fun w => (Ok (scan_entry r), w)) ;;
          scan_rows rest (after_one_row fetch)
            (set_Entries (Entries workout ++ [entry]) workout)
      end
  end.

(** func (pg *PostgresWorkoutStore) GetWorkoutByID(id int64);
    [Ok None] is the Go result (nil, nil). *)
Definition GetWorkoutByID (id : Z) : M (option Workout) :=
  fun w =>
    match db_call (on_committed (select_workout id)) w with
    | (Err ErrNoRows, w1) => (Ok None, w1)
    | (Err e, w1) => (Err e, w1)
    | (Ok r, w1) =>
        let workout :=
          mkWorkout (w_id r) (w_title r) (w_description r)
                    (w_duration_minutes r) (w_calories_burned r) 0 [] in
        (rows <- Query_entries id ;;
         workout <- scan_rows (selected rows) (fetch_failure rows) workout ;;
         ret (Some workout)) w1
    end.

(** The loop [for _, entry := range Workout.Entries] of UpdateWorkout. *)
Fixpoint update_entries (workoutID : Z) (entries : list WorkoutEntry)
  : M unit :=
  match entries with
  | [] => ret tt
  | entry :: rest =>
      _ <- db_call (on_pending (insert_entry workoutID entry)) ;;
      update_entries workoutID rest
  end.

(** func (pg *PostgresWorkoutStore) UpdateWorkout(Workout *Workout) error *)
Definition UpdateWorkout (workout : Workout) : M unit :=
  _ <- Begin ;;
  defer Rollback
    (result <- db_call (on_pending
           (update_workout (Title workout) (Description workout)
              (DurationMinutes workout) (CaloriesBurned workout)
              (ID workout))) ;;
     rowsAffected <- db_call (fun w => (Ok result, w)) ;;
     if rowsAffected =? 0 then (fun w => (Err ErrNoRows, w))
     else
       _ <- db_call (on_pending (delete_entries (ID workout))) ;;
       _ <- update_entries (ID workout) (Entries workout) ;;
       Commit).

(** Modelled from the spec: GetWorkoutOwner is called by the handlers but is
    not among the store's sources.  "Returns the owning user's identity or a
    not-found error": the user_id of the row with that id, sql.ErrNoRows when
    there is no such row; a NULL user_id cannot be scanned into an int. *)
Definition select_owner (id : Z) (t : Tables) : result Z * Tables :=
  match find (fun r => w_id r =? id) (workouts t) with
  | Some r =>
      match w_user_id r with
      | Some u => (Ok u, t)
      | None => (Err (ErrDriver "converting NULL to int is unsupported"), t)
      end
  | None => (Err ErrNoRows, t)
  end.

Definition GetWorkoutOwner (id : Z) : M Z :=
  db_call (on_committed (select_owner id)).

(** Modelled from the spec: DeleteWorkout is called by the delete handler but
    is not among the store's sources.  "Removes the workout (and, by schema
    design, its entries); fails with not-found if the identity does not
    exist." *)
Definition delete_workout (id : Z) (t : Tables) : result unit * Tables :=
  if existsb (fun r => w_id r =? id) (workouts t)
  then (Ok tt,
        mkTables (filter (fun r => negb (w_id r =? id)) (workouts t))
                 (filter (fun r => negb (e_workout_id r =? id))
                         (workout_entries t)))
  else (Err ErrNoRows, t).

Definition DeleteWorkout (id : Z) : M unit :=
  db_call (on_committed (delete_workout id)).

(** ** The handlers (package api) *)

(** What middleware.GetUser(r) yields: nil, the store.AnonymousUser
    sentinel, or a user with its ID. *)
Inductive currentUser :=
| nilUser
| AnonymousUser
| User (id : Z).

(** The request as the handlers consume it: the result of
    utils.ReadIDParam(r) ([None] when it returns an error), the result of
    decoding the JSON body into the handler's target ([None] when Decode
    returns an error), and the user attached by the middleware. *)
Record Request (B : Type) := mkRequest {
  ReadIDParam : option Z;
  Decode : option B;
  GetUser : currentUser
}.
Arguments mkRequest {B} _ _ _.
Arguments ReadIDParam {B} _.
Arguments Decode {B} _.
Arguments GetUser {B} _.

(** The anonymous struct updatedWorkoutRequest: a nil pointer or a nil slice
    is [None]. *)
Record updatedWorkoutRequest := mkUpdatedWorkoutRequest {
  req_Title : option string;
  req_Description : option string;
  req_DurationMinutes : option Z;
  req_CaloriesBurned : option Z;
  req_Entries : option (list WorkoutEntry)
}.

(** utils.Envelope values the handlers write. *)
Inductive Envelope :=
| env_error (msg : string)
| env_workout (workout : option Workout)
| env_workout_id (id : Z).

(** What a handler writes to the http.ResponseWriter, in order. *)
Inductive write :=
| WriteJSON (status : Z) (data : Envelope)
| http_Error (msg : string) (code : Z)
| http_NotFound.

Definition Response := list write.

Definition StatusOK := 200.
Definition StatusCreated := 201.
Definition StatusBadRequest := 400.
Definition StatusForbidden := 403.
Definition StatusNotFound := 404.
Definition StatusInternalServerError := 500.

Definition write_status (x : write) : Z :=
  match x with
  | WriteJSON status _ => status
  | http_Error _ code => code
  | http_NotFound => StatusNotFound
  end.

(** The status line of the response is that of the first write: a later
    WriteHeader is ignored by net/http. *)
Definition response_status (r : Response) : Z :=
  match r with
  | [] => StatusOK
  | x :: _ => write_status x
  end.

Definition Handler := World -> Response * World.

(** func (wh *WorkoutHandler) HandleGetWorkoutByID *)
Definition HandleGetWorkoutByID (r : Request unit) : Handler :=
  fun w =>
    match ReadIDParam r with
    | None =>
        ([WriteJSON StatusBadRequest (env_error "invalid workout id")], w)
    | Some workoutID =>
        match GetWorkoutByID workoutID w with
        | (Err _, w1) =>
            ([WriteJSON StatusInternalServerError
                (env_error "internal server error")], w1)
        | (Ok workout, w1) =>
            ([WriteJSON StatusOK (env_workout workout)], w1)
        end
    end.

(** func (wh *WorkoutHandler) HandleCreateWorkout *)
Definition HandleCreateWorkout (r : Request Workout) : Handler :=
  fun w =>
    match Decode r with
    | None =>
        ([WriteJSON StatusBadRequest (env_error "invalid request sent")], w)
    | Some workout =>
        match GetUser r with
        | nilUser | AnonymousUser =>
            ([WriteJSON StatusBadRequest
                (env_error "you must be logged in")], w)
        | User id =>
            let workout := set_UserID id workout in
            match CreateWorkout workout w with
            | (Err _, w1) =>
                ([WriteJSON StatusInternalServerError
                    (env_error "failed to create workout")], w1)
            | (Ok createdWorkout, w1) =>
                ([WriteJSON StatusCreated
                    (env_workout (Some createdWorkout))], w1)
            end
        end
    end.

(** The five [if updatedWorkoutRequest.X != nil] assignments of
    HandleUpdateWorkoutByID, in their order. *)
Definition applyUpdate (req : updatedWorkoutRequest)
    (existingWorkout : Workout) : Workout :=
  let existingWorkout :=
    match req_Title req with
    | Some v => set_Title v existingWorkout
    | None => existingWorkout
    end in
  let existingWorkout :=
    match req_Description req with
    | Some v => set_Description v existingWorkout
    | None => existingWorkout
    end in
  let existingWorkout :=
    match req_DurationMinutes req with
    | Some v => set_DurationMinutes v existingWorkout
    | None => existingWorkout
    end in
  let existingWorkout :=
    match req_CaloriesBurned req with
    | Some v => set_CaloriesBurned v existingWorkout
    | None => existingWorkout
    end in
  match req_Entries req with
  | Some v => set_Entries v existingWorkout
  | None => existingWorkout
  end.

(** func (wh *WorkoutHandler) HandleUpdateWorkoutByID *)
Definition HandleUpdateWorkoutByID (r : Request updatedWorkoutRequest)
  : Handler :=
  fun w =>
    match ReadIDParam r with
    | None =>
        ([WriteJSON StatusBadRequest (env_error "invalid workout id")], w)
    | Some workoutID =>
        match GetWorkoutByID workoutID w with
        | (Err _, w1) =>
            ([WriteJSON StatusInternalServerError
                (env_error "internal server error")], w1)
        | (Ok None, w1) => ([http_NotFound], w1)
        | (Ok (Some existingWorkout), w1) =>
            match Decode r with
            | None =>
                ([WriteJSON StatusBadRequest
                    (env_error "invalid request payload")], w1)
            | Some req =>
                let existingWorkout := applyUpdate req existingWorkout in
                match GetUser r with
                | nilUser | AnonymousUser =>
                    ([WriteJSON StatusBadRequest
                        (env_error "you must be logged in")], w1)
                | User id =>
                    match GetWorkoutOwner workoutID w1 with
                    | (Err ErrNoRows, w2) =>
                        ([WriteJSON StatusNotFound
                            (env_error "workout does not exist")], w2)
                    | (Err _, w2) =>
                        ([WriteJSON StatusInternalServerError
                            (env_error "internal server error")], w2)
                    | (Ok workoutOwner, w2) =>
                        if negb (workoutOwner =? id)
                        then
                          ([WriteJSON StatusForbidden
                              (env_error
                                 "you are not authorized to update this workout")],
                           w2)
                        else
                          match UpdateWorkout existingWorkout w2 with
                          | (Err _, w3) =>
                              ([WriteJSON StatusInternalServerError
                                  (env_error "internal server error")], w3)
                          | (Ok _, w3) =>
                              ([WriteJSON StatusOK
                                  (env_workout (Some existingWorkout))], w3)
                          end
                    end
                end
            end
        end
    end.

(** func (wh *WorkoutHandler) HandleDeleteWorkoutByID.  The branch
    [if workoutOwner != currentUser.ID] writes the forbidden response and
    has no return: control falls through to DeleteWorkout. *)
Definition HandleDeleteWorkoutByID (r : Request unit) : Handler :=
  fun w =>
    match ReadIDParam r with
    | None =>
        ([WriteJSON StatusBadRequest (env_error "invalid workout id")], w)
    | Some workoutID =>
        match GetUser r with
        | nilUser | AnonymousUser =>
            ([WriteJSON StatusBadRequest
                (env_error "you must be logged in")], w)
        | User id =>
            match GetWorkoutOwner workoutID w with
            | (Err ErrNoRows, w1) =>
                ([WriteJSON StatusNotFound
                    (env_error "workout does not exist")], w1)
            | (Err _, w1) =>
                ([WriteJSON StatusInternalServerError
                    (env_error "internal server error")], w1)
            | (Ok workoutOwner, w1) =>
                let written :=
                  if negb (workoutOwner =? id)
                  then [WriteJSON StatusForbidden
                          (env_error
                             "you are not authorized to update this workout")]
                  else [] in
                match DeleteWorkout workoutID w1 with
                | (Err ErrNoRows, w2) =>
                    (written ++ [http_Error "workout not found" StatusNotFound],
                     w2)
                | (Err _, w2) =>
                    (written ++
                     [http_Error "errro deleting workout"
                        StatusInternalServerError], w2)
                | (Ok _, w2) =>
                    (written ++
                     [WriteJSON StatusOK (env_workout_id workoutID)], w2)
                end
            end
        end
    end.

(** ** Vocabulary of the statements *)

(** The rows that inserting [entries] one after the other adds, the first
    with identity [start]. *)
Fixpoint entry_rows (workout_id start : Z) (entries : list WorkoutEntry)
  : list EntryRow :=
  match entries with
  | [] => []
  | e :: rest =>
      entry_row start workout_id e :: entry_rows workout_id (start + 1) rest
  end.

Definition workout_row (id : Z) (workout : Workout) (user_id : option Z)
  : WorkoutRow :=
  mkWorkoutRow id (Title workout) (Description workout)
               (DurationMinutes workout) (CaloriesBurned workout) user_id.

(** The outcomes of the database calls made between [w] and [w']. *)
Definition new_calls (w w' : World) : list (option error) :=
  skipn (List.length (log w)) (log w').

(** [m] reports every failure: when it returns a value, no call it made
    failed; when it returns an error, that error is the outcome of one of its
    calls and is not "no rows". *)
Definition faithful {A} (m : M A) : Prop :=
  forall w r w',
    m w = (r, w') ->
    exists l,
      log w' = log w ++ l /\
      match r with
      | Ok _ => Forall (fun o => o = None) l
      | Err e => In (Some e) l /\ e <> ErrNoRows
      end.

Definition header_of (r : WorkoutRow) : Workout :=
  mkWorkout (w_id r) (w_title r) (w_description r) (w_duration_minutes r)
            (w_calories_burned r) 0 [].

(** The rows a result set delivers before its fetch fault, if any. *)
Definition delivered (fetch : option (nat * fault)) (rows : list EntryRow)
  : list EntryRow :=
  match fetch with
  | Some (n, _) => firstn n rows
  | None => rows
  end.

(** The entries GetWorkoutByID appends in state [w] for a workout id. *)
Definition entries_of (id : Z) (w : World) : list WorkoutEntry :=
  map scan_entry
    (delivered (fetch_fault w)
       (select_entries (tie_before w) id (committed w))).

(** The rows of a workout in the entries table. *)
Definition rows_of (id : Z) (t : Tables) : list EntryRow :=
  filter (fun r => e_workout_id r =? id) (workout_entries t).

(** Ascending in OrderIndex with no two equal. *)
Definition entry_lt (a b : WorkoutEntry) : Prop :=
  OrderIndex a < OrderIndex b.

Definition row_lt (a b : EntryRow) : Prop :=
  e_order_index a < e_order_index b.

(** No fault is scheduled: every call still to come succeeds and no fetch
    fails. *)
Definition fault_free (w : World) : Prop :=
  Forall (fun o => o = None) (script w) /\ fetch_fault w = None.

(** [m] leaves the engine's choices as they were. *)
Definition keeps_engine {A} (m : M A) : Prop :=
  forall w r w',
    m w = (r, w') ->
    tie_before w' = tie_before w /\ fetch_fault w' = fetch_fault w.

Definition row_le (a b : EntryRow) : Prop :=
  e_order_index a <= e_order_index b.

Definition entry_le (a b : WorkoutEntry) : Prop :=
  OrderIndex a <= OrderIndex b.

Definition updated_tables (workout : Workout) (start : Z) (t : Tables)
  : Tables :=
  mkTables
    (map (update_row (Title workout) (Description workout)
            (DurationMinutes workout) (CaloriesBurned workout) (ID workout))
         (workouts t))
    (filter (fun r => negb (e_workout_id r =? ID workout))
            (workout_entries t) ++
     entry_rows (ID workout) start (Entries workout)).

(** The entries as the table returns them when [entries] was inserted with
    identities from [start] on. *)
Fixpoint with_ids (start : Z) (entries : list WorkoutEntry)
  : list WorkoutEntry :=
  match entries with
  | [] => []
  | e :: rest => set_EntryID start e :: with_ids (start + 1) rest
  end.

(** No fault among the next [n] calls. *)
Definition no_fault_in (n : nat) (w : World) : Prop :=
  Forall (fun o => o = None) (firstn n (script w)).

(** The sequence of workout identities is ahead of every identity in use. *)
Definition sequence_ahead (w : World) : Prop :=
  Forall (fun r => w_id r < workouts_id_seq w) (workouts (committed w)) /\
  Forall (fun r => e_workout_id r < workouts_id_seq w)
         (workout_entries (committed w)).

(** The operations of the store that write entries. *)
Inductive writes_entries : World -> World -> Prop :=
| writes_create workout w r w' :
    CreateWorkout workout w = (r, w') -> writes_entries w w'
| writes_update workout w r w' :
    UpdateWorkout workout w = (r, w') -> writes_entries w w'.

(** Any number of such operations, one after the other. *)
Inductive writes_entries_star : World -> World -> Prop :=
| writes_none w : writes_entries_star w w
| writes_more w w1 w2 :
    writes_entries_star w w1 -> writes_entries w1 w2 ->
    writes_entries_star w w2.

(** [w'] has the tables, the open transaction and the sequences of [w]: at
    most the script and the log differ. *)
Definition same_database (w w' : World) : Prop :=
  committed w' = committed w /\
  pending w' = pending w /\
  workouts_id_seq w' = workouts_id_seq w /\
  workout_entries_id_seq w' = workout_entries_id_seq w.

(** The identity and the owner of every stored workout, in table order. *)
Definition owners (t : Tables) : list (Z * option Z) :=
  map (fun r => (w_id r, w_user_id r)) (workouts t).

(** middleware.GetUser gave nil or the anonymous sentinel. *)
Definition not_logged_in (u : currentUser) : Prop :=
  u = nilUser \/ u = AnonymousUser.

(** The header fields two workouts share. *)
Definition same_header (a b : Workout) : Prop :=
  Title a = Title b /\ Description a = Description b /\
  DurationMinutes a = DurationMinutes b /\
  CaloriesBurned a = CaloriesBurned b.

(** Every entry row belongs to a stored workout. *)
Definition no_orphans (t : Tables) : Prop :=
  Forall (fun e => exists r, In r (workouts t) /\ w_id r = e_workout_id e)
         (workout_entries t).

(** [m] never moves the sequence of workout identities backwards. *)
Definition advances {A} (m : M A) : Prop :=
  forall w r w', m w = (r, w') -> workouts_id_seq w <= workouts_id_seq w'.

(** ** Fixtures *)

Module Fixtures.

Definition squat : WorkoutEntry :=
  mkWorkoutEntry 0 "Squat" 3 (Some 10) None None "" 0.

Definition lunge : WorkoutEntry :=
  mkWorkoutEntry 0 "Lunge" 3 (Some 12) None None "" 1.

Definition plank : WorkoutEntry :=
  mkWorkoutEntry 0 "Plank" 2 None (Some 60) None "" 2.

(** The create request of the specification's example. *)
Definition leg_day : Workout := mkWorkout 0 "Leg Day" "" 45 300 0 [squat].

Definition two_entries : Workout :=
  mkWorkout 0 "Leg Day" "" 45 300 0 [squat; lunge].

Definition empty_tables : Tables := mkTables [] [].

(** An empty database on which every call succeeds. *)
Definition fresh : World :=
  mkWorld empty_tables None 1 1 [] [] (fun _ _ => false) None.

(** Workout 1, owned by user 1, with three entries. *)
Definition stored_tables : Tables :=
  mkTables
    [mkWorkoutRow 1 "Leg Day" "" 45 300 (Some 1)]
    [entry_row 1 1 squat; entry_row 2 1 lunge; entry_row 3 1 plank].

Definition stored : World :=
  mkWorld stored_tables None 2 4 [] [] (fun _ _ => false) None.

(** Workout 1 as GetWorkoutByID loads it from [stored]. *)
Definition stored_workout : Workout :=
  mkWorkout 1 "Leg Day" "" 45 300 0
    [set_EntryID 1 squat; set_EntryID 2 lunge; set_EntryID 3 plank].

(** [stored], where the fourth database call fails on a constraint. *)
Definition fourth_call_fails : World :=
  set_script [None; None; None; Some (Driver "constraint")] stored.

(** [fresh], where the fourth database call, the commit of a workout with
    one entry, fails. *)
Definition commit_fails : World :=
  set_script [None; None; None; Some (Driver "could not serialize access")]
    fresh.

(** [stored], where the second database call loses its connection. *)
Definition second_call_fails : World :=
  set_script [None; Some ConnDone] stored.

(** A workout whose ID no stored row has. *)
Definition absent : Workout := mkWorkout 9 "Push Day" "" 30 200 0 [squat].

(** Workout 1 with its three entries given in descending OrderIndex. *)
Definition descending : Workout :=
  mkWorkout 1 "Leg Day" "" 45 300 0 [plank; lunge; squat].

(** Workout 1 with two entries, the second before the first in
    OrderIndex. *)
Definition reordered : Workout :=
  mkWorkout 1 "Leg Day" "" 45 300 0 [lunge; squat].

(** Workout 1 with a single entry. *)
Definition shorter : Workout := mkWorkout 1 "Leg Day" "" 45 320 0 [squat].

(** The body {calories_burned: 320}. *)
Definition calories_only : updatedWorkoutRequest :=
  mkUpdatedWorkoutRequest None None None (Some 320) None.

(** PUT /workouts/1 with that body, by the owner and by another user. *)
Definition update_by_owner : Request updatedWorkoutRequest :=
  mkRequest (Some 1) (Some calories_only) (User 1).

Definition update_by_other : Request updatedWorkoutRequest :=
  mkRequest (Some 1) (Some calories_only) (User 2).

(** DELETE /workouts/1 by a user who is not the owner. *)
Definition delete_by_other : Request unit :=
  mkRequest (Some 1) None (User 2).

(** POST /workouts with the specification's example, by user 7. *)
Definition create_by_7 : Request Workout :=
  mkRequest None (Some leg_day) (User 7).

(** [stored] with a second workout, owned by user 2, with two entries. *)
Definition two_stored_tables : Tables :=
  mkTables
    [mkWorkoutRow 1 "Leg Day" "" 45 300 (Some 1);
     mkWorkoutRow 2 "Push Day" "" 30 200 (Some 2)]
    [entry_row 1 1 squat; entry_row 2 1 lunge; entry_row 3 1 plank;
     entry_row 4 2 squat; entry_row 5 2 plank].

Definition two_stored : World :=
  mkWorld two_stored_tables None 3 6 [] [] (fun _ _ => false) None.

(** [stored], where the sixth database call fails on a constraint: for an
    update it is the insert of the second entry. *)
Definition sixth_call_fails : World :=
  set_script [None; None; None; None; None; Some (Driver "constraint")]
    stored.

(** [stored], where the sixth database call fails: for an update with one
    entry it is the commit. *)
Definition update_commit_fails : World :=
  set_script
    [None; None; None; None; None;
     Some (Driver "could not serialize access")]
    stored.

(** [stored], where the fetching of the next result set fails with a lost
    connection after one row. *)
Definition fetch_fails : World :=
  set_fetch_fault (Some (1%nat, ConnDone)) stored.

(** [stored], where the engine puts the later of two tied rows first. *)
Definition stored_ties_reversed : World :=
  mkWorld stored_tables None 2 4 [] [] (fun _ _ => true) None.

(** Workout 1 with two entries A, B of the same OrderIndex, under an
    engine that puts the later of two tied rows first. *)
Definition tied : World :=
  mkWorld
    (mkTables
       [mkWorkoutRow 1 "Leg Day" "" 45 300 (Some 1)]
       [entry_row 1 1 (mkWorkoutEntry 0 "A" 3 None None None "" 0);
        entry_row 2 1 (mkWorkoutEntry 0 "B" 3 None None None "" 0)])
    None 2 3 [] [] (fun a b => e_id b <? e_id a) None.

End Fixtures.

(** ** Reasoning about runs *)

Lemma bind_inv {A B} (m : M A) (k : A -> M B) w r w' :
  bind m k w = (r, w') ->
  (exists e, m w = (Err e, w') /\ r = Err e) \/
  (exists a w1, m w = (Ok a, w1) /\ k a w1 = (r, w')).
Proof.
  unfold bind. destruct (m w) as [[a | e] w1]; intros H.
  - right. exists a, w1. split; [reflexivity | exact H].
  - left. exists e. inversion H; subst. split; reflexivity.
Qed.

Lemma bind_ok_inv {A B} (m : M A) (k : A -> M B) w b w' :
  bind m k w = (Ok b, w') ->
  exists a w1, m w = (Ok a, w1) /\ k a w1 = (Ok b, w').
Proof.
  intros H. apply bind_inv in H. destruct H as [[e [_ H]] | H].
  - discriminate H.
  - exact H.
Qed.

Lemma db_call_inv {A} (run : World -> result A * World) w r w' :
  db_call run w = (r, w') ->
  (exists f, next_fault w = Some f /\ r = Err (fault_error f) /\
             w' = record_outcome (Some (fault_error f)) (pop_script w)) \/
  (next_fault w = None /\
   exists w1, run (pop_script w) = (r, w1) /\
              w' = record_outcome (error_of r) w1).
Proof.
  unfold db_call. destruct (next_fault w) as [f |].
  - intros H. inversion H; subst. left. exists f. repeat split.
  - destruct (run (pop_script w)) as [r1 w1]. intros H.
    inversion H; subst. right. split; [reflexivity |].
    exists w1. split; reflexivity.
Qed.

Lemma on_pending_inv {A} (run : Tables -> World -> A * Tables * World)
    w r w' :
  on_pending run w = (r, w') ->
  (pending w = None /\ r = Err ErrTxDone /\ w' = w) \/
  (exists t a t1 w1, pending w = Some t /\ run t w = (a, t1, w1) /\
                     r = Ok a /\ w' = set_pending (Some t1) w1).
Proof.
  unfold on_pending. destruct (pending w) as [t |].
  - destruct (run t w) as [[a t1] w1] eqn:E. intros H. inversion H; subst.
    right. exists t, a, t1, w1. repeat split. exact E.
  - intros H. inversion H; subst. left. repeat split.
Qed.

Lemma fault_error_not_ErrNoRows f : fault_error f <> ErrNoRows.
Proof. destruct f; discriminate. Qed.

Lemma create_entries_update_entries workoutID entries :
  create_entries workoutID entries = update_entries workoutID entries.
Proof.
  induction entries as [| e rest IH]; simpl; [reflexivity |].
  rewrite IH. reflexivity.
Qed.

Ltac wsimpl :=
  unfold record_outcome, pop_script, set_log, set_script, set_pending,
    set_committed, set_workouts_id_seq, set_workout_entries_id_seq,
    set_fetch_fault in *;
  simpl in *.

(** A call on the transaction handle leaves the committed tables alone. *)
Lemma tx_call_committed {A} (run : Tables -> World -> A * Tables * World)
    w r w' :
  (forall t w0, committed (snd (run t w0)) = committed w0) ->
  db_call (on_pending run) w = (r, w') ->
  committed w' = committed w.
Proof.
  intros Hrun H. apply db_call_inv in H.
  destruct H as [[f [_ [_ ->]]] | [_ [w1 [H ->]]]].
  - reflexivity.
  - apply on_pending_inv in H.
    destruct H as [[_ [_ ->]] | [t [a [t1 [w2 [_ [H [_ ->]]]]]]]].
    + reflexivity.
    + specialize (Hrun t (pop_script w)). rewrite H in Hrun.
      wsimpl. exact Hrun.
Qed.

Lemma update_entries_committed workoutID entries :
  forall w r w',
    update_entries workoutID entries w = (r, w') ->
    committed w' = committed w.
Proof.
  induction entries as [| e rest IH]; simpl; intros w r w' H.
  - inversion H; reflexivity.
  - apply bind_inv in H. destruct H as [[e0 [H _]] | [a [w1 [H1 H2]]]].
    + eapply tx_call_committed; [| exact H]. reflexivity.
    + apply IH in H2. rewrite H2.
      eapply tx_call_committed; [| exact H1]. reflexivity.
Qed.

Lemma Begin_inv w r w' :
  Begin w = (r, w') ->
  committed w' = committed w /\
  (r = Ok tt -> pending w' = Some (committed w) /\
                workouts_id_seq w' = workouts_id_seq w /\
                workout_entries_id_seq w' = workout_entries_id_seq w).
Proof.
  unfold Begin. intros H. apply db_call_inv in H.
  destruct H as [[f [_ [-> ->]]] | [_ [w1 [H ->]]]].
  - split; [reflexivity | discriminate].
  - inversion H; subst. split; [reflexivity |]. intros _. repeat split.
Qed.

Lemma Commit_inv w r w' :
  Commit w = (r, w') ->
  match r with
  | Ok _ => exists t, pending w = Some t /\ committed w' = t /\
                      pending w' = None
  | Err _ => committed w' = committed w
  end.
Proof.
  unfold Commit. intros H. apply db_call_inv in H.
  destruct H as [[f [_ [-> ->]]] | [_ [w1 [H ->]]]].
  - reflexivity.
  - wsimpl. destruct (pending w) as [t |]; inversion H; subst; simpl.
    + exists t. repeat split.
    + reflexivity.
Qed.

Lemma Rollback_inv w :
  committed (snd (Rollback w)) = committed w /\
  pending (snd (Rollback w)) = None /\
  log (snd (Rollback w)) = log w.
Proof.
  unfold Rollback. destruct (pending w) eqn:E; simpl; auto.
Qed.

Lemma tx_call_ok {A} (run : Tables -> World -> A * Tables * World) w a w' :
  db_call (on_pending run) w = (Ok a, w') ->
  exists t t1 w1,
    pending w = Some t /\ run t (pop_script w) = (a, t1, w1) /\
    w' = record_outcome None (set_pending (Some t1) w1).
Proof.
  intros H. apply db_call_inv in H.
  destruct H as [[f [_ [H _]]] | [_ [w1 [H ->]]]]; [discriminate H |].
  apply on_pending_inv in H.
  destruct H as [[_ [H _]] | [t [a0 [t1 [w2 [Hp [H [Ha ->]]]]]]]];
    [discriminate H |].
  inversion Ha; subst a0. exists t, t1, w2. repeat split; assumption.
Qed.

(** A run of the insert loop that succeeds appends the rows of the entries,
    in their order, to the pending entries table. *)
Lemma update_entries_ok workoutID entries :
  forall w w' t,
    pending w = Some t ->
    update_entries workoutID entries w = (Ok tt, w') ->
    pending w' =
      Some (mkTables (workouts t)
              (workout_entries t ++
               entry_rows workoutID (workout_entries_id_seq w) entries)) /\
    committed w' = committed w /\
    workouts_id_seq w' = workouts_id_seq w /\
    workout_entries_id_seq w' =
      workout_entries_id_seq w + Z.of_nat (List.length entries).
Proof.
  induction entries as [| e rest IH]; intros w w' t Hp H.
  - simpl in H. inversion H; subst. simpl. rewrite app_nil_r.
    destruct t; simpl. rewrite Z.add_0_r. auto.
  - cbn [update_entries] in H. apply bind_ok_inv in H.
    destruct H as [id [w1 [H1 H2]]].
    apply tx_call_ok in H1. destruct H1 as [t0 [t1 [w2 [Hp0 [Hrun ->]]]]].
    rewrite Hp in Hp0. inversion Hp0; subst t0.
    unfold insert_entry in Hrun. inversion Hrun; subst. clear Hrun.
    eapply IH in H2; [| reflexivity].
    destruct H2 as [Hp' [Hc [Hw He]]].
    rewrite Hp', Hc, Hw, He. wsimpl.
    rewrite <- app_assoc. simpl.
    repeat split. lia.
Qed.

(** What a successful CreateWorkout returns and commits. *)
Lemma CreateWorkout_ok workout w created w' :
  CreateWorkout workout w = (Ok created, w') ->
  created = set_ID (workouts_id_seq w) workout /\
  committed w' =
    mkTables
      (workouts (committed w) ++
       [workout_row (workouts_id_seq w) workout None])
      (workout_entries (committed w) ++
       entry_rows (workouts_id_seq w) (workout_entries_id_seq w)
                  (Entries workout)) /\
  pending w' = None.
Proof.
  unfold CreateWorkout. intros H.
  apply bind_ok_inv in H. destruct H as [[] [w1 [HB H]]].
  apply Begin_inv in HB. destruct HB as [Hc1 HB].
  destruct (HB eq_refl) as [Hp1 [Hs1 He1]]. clear HB.
  unfold defer in H.
  match type of H with
  | (let (_, _) := ?body w1 in _) = _ => destruct (body w1) as [r w2] eqn:E
  end.
  inversion H; subst r w'. clear H.
  apply bind_ok_inv in E. destruct E as [id [w3 [HI E]]].
  apply tx_call_ok in HI. destruct HI as [t [t1 [w4 [Hp [Hrun ->]]]]].
  unfold insert_workout in Hrun. inversion Hrun; subst. clear Hrun.
  apply bind_ok_inv in E. destruct E as [[] [w5 [HE E]]].
  rewrite create_entries_update_entries in HE.
  eapply update_entries_ok in HE; [| reflexivity].
  destruct HE as [Hp5 [Hc5 [Hs5 He5]]].
  apply bind_ok_inv in E. destruct E as [[] [w6 [HC E]]].
  inversion E; subst. clear E.
  unfold replace_err in HC.
  destruct (Commit w5) as [[[] | e] w7] eqn:EC; inversion HC; subst.
  apply Commit_inv in EC. destruct EC as [t2 [Hp6 [Hc6 Hn6]]].
  destruct (Rollback_inv w2) as [Hrc [Hrp _]].
  rewrite Hrc, Hrp, Hc6.
  rewrite Hp5 in Hp6. inversion Hp6; subst t2.
  wsimpl. rewrite Hp in Hp1. inversion Hp1; subst t.
  rewrite Hs1, He1. repeat split.
Qed.

(** *** Rollback: an operation that fails commits nothing *)

Lemma CreateWorkout_err workout w e w' :
  CreateWorkout workout w = (Err e, w') ->
  committed w' = committed w /\ pending w' = None \/
  committed w' = committed w /\ pending w' = pending w.
Proof.
  unfold CreateWorkout. intros H. apply bind_inv in H.
  destruct H as [[e0 [HB _]] | [[] [w1 [HB H]]]].
  - right. split; [apply Begin_inv in HB; apply HB |].
    unfold Begin in HB. apply db_call_inv in HB.
    destruct HB as [[f [_ [_ ->]]] | [_ [w1 [HB _]]]];
      [reflexivity | discriminate HB].
  - left. apply Begin_inv in HB. destruct HB as [Hc1 _].
    unfold defer in H.
    match type of H with
    | (let (_, _) := ?body w1 in _) = _ =>
        destruct (body w1) as [r w2] eqn:E
    end.
    inversion H; subst r w'. clear H.
    destruct (Rollback_inv w2) as [Hrc [Hrp _]]. rewrite Hrc, Hrp.
    split; [| reflexivity]. rewrite <- Hc1.
    apply bind_inv in E. destruct E as [[e0 [HI _]] | [id [w3 [HI E]]]].
    { eapply tx_call_committed; [| exact HI]. reflexivity. }
    assert (Hc3 : committed w3 = committed w1).
    { eapply tx_call_committed; [| exact HI]. reflexivity. }
    rewrite <- Hc3.
    apply bind_inv in E. destruct E as [[e0 [HE _]] | [[] [w4 [HE E]]]];
      rewrite create_entries_update_entries in HE;
      apply update_entries_committed in HE; [exact HE |].
    rewrite <- HE.
    apply bind_inv in E. destruct E as [[e0 [HC _]] | [[] [w5 [_ E]]]];
      [| discriminate E].
    unfold replace_err in HC.
    destruct (Commit w4) as [[[] | e1] w6] eqn:EC; inversion HC; subst.
    apply Commit_inv in EC. exact EC.
Qed.

Lemma CreateWorkout_err_committed workout w e w' :
  CreateWorkout workout w = (Err e, w') -> committed w' = committed w.
Proof.
  intros H. apply CreateWorkout_err in H. destruct H as [[H _] | [H _]]; exact H.
Qed.

Lemma UpdateWorkout_err workout w e w' :
  UpdateWorkout workout w = (Err e, w') -> committed w' = committed w.
Proof.
  unfold UpdateWorkout. intros H. apply bind_inv in H.
  destruct H as [[e0 [HB _]] | [[] [w1 [HB H]]]].
  - apply Begin_inv in HB. apply HB.
  - apply Begin_inv in HB. destruct HB as [Hc1 _].
    unfold defer in H.
    match type of H with
    | (let (_, _) := ?body w1 in _) = _ =>
        destruct (body w1) as [r w2] eqn:E
    end.
    inversion H; subst r w'. clear H.
    destruct (Rollback_inv w2) as [Hrc _]. rewrite Hrc, <- Hc1.
    apply bind_inv in E. destruct E as [[e0 [HU _]] | [n [w3 [HU E]]]].
    { eapply tx_call_committed; [| exact HU]. reflexivity. }
    assert (Hc3 : committed w3 = committed w1).
    { eapply tx_call_committed; [| exact HU]. reflexivity. }
    rewrite <- Hc3.
    assert (Hra : forall r0 w0 wa, db_call (fun w => (Ok n, w)) w0 = (r0, wa) ->
                                   committed wa = committed w0).
    { intros r0 w0 wa Hr. apply db_call_inv in Hr.
      destruct Hr as [[f [_ [_ ->]]] | [_ [wb [Hr ->]]]]; [reflexivity |].
      inversion Hr; subst. reflexivity. }
    apply bind_inv in E. destruct E as [[e0 [HR _]] | [k [w4 [HR E]]]].
    { apply Hra in HR. exact HR. }
    apply Hra in HR. rewrite <- HR.
    destruct (k =? 0).
    { inversion E; subst. reflexivity. }
    apply bind_inv in E. destruct E as [[e0 [HD _]] | [[] [w5 [HD E]]]].
    { eapply tx_call_committed; [| exact HD]. reflexivity. }
    assert (Hc5 : committed w5 = committed w4).
    { eapply tx_call_committed; [| exact HD]. reflexivity. }
    rewrite <- Hc5.
    apply bind_inv in E. destruct E as [[e0 [HE _]] | [[] [w6 [HE E]]]];
      apply update_entries_committed in HE; [exact HE |].
    rewrite <- HE. apply Commit_inv in E. exact E.
Qed.

(** *** The log of call outcomes *)

Lemma new_calls_app w w' l : log w' = log w ++ l -> new_calls w w' = l.
Proof.
  intros H. unfold new_calls. rewrite H, skipn_app, skipn_all.
  rewrite Nat.sub_diag. reflexivity.
Qed.

Lemma faithful_ret {A} (a : A) : faithful (ret a).
Proof.
  intros w r w' H. inversion H; subst. exists []. rewrite app_nil_r.
  split; [reflexivity | constructor].
Qed.

Lemma faithful_bind {A B} (m : M A) (k : A -> M B) :
  faithful m -> (forall a, faithful (k a)) -> faithful (bind m k).
Proof.
  intros Hm Hk w r w' H. apply bind_inv in H.
  destruct H as [[e [H ->]] | [a [w1 [H1 H2]]]].
  - apply Hm in H. exact H.
  - apply Hm in H1. destruct H1 as [l1 [E1 F1]].
    apply Hk in H2. destruct H2 as [l2 [E2 F2]].
    exists (l1 ++ l2). split.
    + rewrite E2, E1, app_assoc. reflexivity.
    + destruct r as [b | e].
      * apply Forall_app. split; assumption.
      * destruct F2 as [Hin Hne]. split; [| exact Hne].
        apply in_or_app. right. exact Hin.
Qed.

Lemma faithful_db_call {A} (run : World -> result A * World) :
  (forall w, log (snd (run w)) = log w) ->
  (forall w, fst (run w) <> Err ErrNoRows) ->
  faithful (db_call run).
Proof.
  intros Hlog Hne w r w' H. apply db_call_inv in H.
  destruct H as [[f [_ [-> ->]]] | [_ [w1 [H ->]]]].
  - exists [Some (fault_error f)]. split; [reflexivity |].
    split; [left; reflexivity | apply fault_error_not_ErrNoRows].
  - exists [error_of r]. split.
    + specialize (Hlog (pop_script w)). rewrite H in Hlog. simpl in Hlog.
      wsimpl. rewrite Hlog. reflexivity.
    + specialize (Hne (pop_script w)). rewrite H in Hne. simpl in Hne.
      destruct r as [a | e]; simpl.
      * constructor; [reflexivity | constructor].
      * split; [left; reflexivity | congruence].
Qed.

Lemma faithful_tx_call {A} (run : Tables -> World -> A * Tables * World) :
  (forall t w, log (snd (run t w)) = log w) ->
  faithful (db_call (on_pending run)).
Proof.
  intros Hlog. apply faithful_db_call; intros w; unfold on_pending;
    destruct (pending w) as [t |]; simpl; try discriminate; try reflexivity.
  - specialize (Hlog t w). destruct (run t w) as [[a t1] w1]. simpl in *.
    exact Hlog.
  - destruct (run t w) as [[a t1] w1]. simpl. discriminate.
Qed.

Lemma faithful_Begin : faithful Begin.
Proof. apply faithful_db_call; intros w; simpl; [reflexivity | discriminate]. Qed.

Lemma faithful_Commit : faithful Commit.
Proof.
  apply faithful_db_call; intros w; destruct (pending w); simpl;
    try reflexivity; discriminate.
Qed.

Lemma faithful_update_entries workoutID entries :
  faithful (update_entries workoutID entries).
Proof.
  induction entries as [| e rest IH]; simpl.
  - apply faithful_ret.
  - apply faithful_bind; [| intros _; exact IH].
    apply faithful_tx_call. reflexivity.
Qed.

(** CreateWorkout: a value is returned only when no call failed; an error
    only when one did. *)
Lemma CreateWorkout_calls workout w r w' :
  CreateWorkout workout w = (r, w') ->
  exists l,
    log w' = log w ++ l /\
    match r with
    | Ok _ => Forall (fun o => o = None) l
    | Err _ => exists e, In (Some e) l
    end.
Proof.
  unfold CreateWorkout. intros H.
  apply bind_inv in H. destruct H as [[e [H ->]] | [[] [w1 [HB H]]]].
  - apply faithful_Begin in H. destruct H as [l [E [F _]]]. exists l.
    split; [exact E | exists e; exact F].
  - apply faithful_Begin in HB. destruct HB as [l1 [E1 F1]]. simpl in F1.
    unfold defer in H.
    match type of H with
    | (let (_, _) := ?body w1 in _) = _ =>
        destruct (body w1) as [r1 w2] eqn:E
    end.
    inversion H; subst r1 w'. clear H.
    destruct (Rollback_inv w2) as [_ [_ Hl]]. rewrite Hl.
    apply bind_inv in E. destruct E as [[e [HI ->]] | [id [w3 [HI E]]]].
    { apply faithful_tx_call in HI; [| reflexivity].
      destruct HI as [l2 [E2 [F2 _]]]. exists (l1 ++ l2).
      split; [rewrite E2, E1, app_assoc; reflexivity |].
      exists e. apply in_or_app. right. exact F2. }
    apply faithful_tx_call in HI; [| reflexivity].
    destruct HI as [l2 [E2 F2]]. simpl in F2.
    apply bind_inv in E. destruct E as [[e [HE ->]] | [[] [w4 [HE E]]]];
      rewrite create_entries_update_entries in HE;
      apply faithful_update_entries in HE; destruct HE as [l3 [E3 F3]].
    { destruct F3 as [F3 _]. exists (l1 ++ l2 ++ l3).
      split; [rewrite E3, E2, E1, !app_assoc; reflexivity |].
      exists e. apply in_or_app. right. apply in_or_app. right. exact F3. }
    simpl in F3.
    apply bind_inv in E. destruct E as [[e [HC ->]] | [[] [w5 [HC E]]]].
    + unfold replace_err in HC.
      destruct (Commit w4) as [[[] | e1] w6] eqn:EC; inversion HC; subst.
      apply faithful_Commit in EC. destruct EC as [l4 [E4 [F4 _]]].
      exists (l1 ++ l2 ++ l3 ++ l4).
      split; [rewrite E4, E3, E2, E1, !app_assoc; reflexivity |].
      exists e1. repeat (apply in_or_app; right). exact F4.
    + inversion E; subst. clear E. unfold replace_err in HC.
      destruct (Commit w4) as [[[] | e1] w6] eqn:EC; inversion HC; subst.
      apply faithful_Commit in EC. destruct EC as [l4 [E4 F4]]. simpl in F4.
      exists (l1 ++ l2 ++ l3 ++ l4).
      split; [rewrite E4, E3, E2, E1, !app_assoc; reflexivity |].
      repeat (apply Forall_app; split); assumption.
Qed.

(** *** ORDER BY order_index *)

Lemma insert_by_order_index_perm before r l :
  Permutation (insert_by_order_index before r l) (r :: l).
Proof.
  induction l as [| x l IH]; simpl.
  - apply Permutation_refl.
  - destruct ((e_order_index r <? e_order_index x) ||
              ((e_order_index r =? e_order_index x) && before r x)).
    + apply Permutation_refl.
    + eapply perm_trans; [apply perm_skip; exact IH | apply perm_swap].
Qed.

Lemma insert_by_order_index_sorted before r l :
  StronglySorted row_le l ->
  StronglySorted row_le (insert_by_order_index before r l).
Proof.
  induction 1 as [| x l Hs IH Hall]; simpl.
  - constructor; constructor.
  - destruct ((e_order_index r <? e_order_index x) ||
              ((e_order_index r =? e_order_index x) && before r x)) eqn:E.
    + assert (Hle : e_order_index r <= e_order_index x).
      { apply orb_true_iff in E. destruct E as [E | E].
        - apply Z.ltb_lt in E. lia.
        - apply andb_true_iff in E. destruct E as [E _].
          apply Z.eqb_eq in E. lia. }
      constructor; [constructor; assumption |].
      constructor; [exact Hle |].
      eapply Forall_impl; [| exact Hall]. unfold row_le. intros a Ha. lia.
    + apply orb_false_iff in E. destruct E as [E _].
      apply Z.ltb_ge in E.
      constructor; [exact IH |].
      eapply Permutation_Forall;
        [apply Permutation_sym; apply insert_by_order_index_perm |].
      constructor; assumption.
Qed.

Lemma insert_by_order_index_last before r l :
  Forall (fun x => row_lt x r) l ->
  insert_by_order_index before r l = l ++ [r].
Proof.
  induction 1 as [| x l Hx Hall IH]; simpl; [reflexivity |].
  unfold row_lt in Hx.
  destruct (Z.ltb_spec (e_order_index r) (e_order_index x)); [lia |].
  destruct (Z.eqb_spec (e_order_index r) (e_order_index x)); [lia |].
  simpl. rewrite IH. reflexivity.
Qed.

Lemma fold_insert_sorted before l :
  forall acc,
    StronglySorted row_le acc ->
    StronglySorted row_le
      (fold_left (fun acc r => insert_by_order_index before r acc) l acc).
Proof.
  induction l as [| r l IH]; intros acc Hacc; simpl; [exact Hacc |].
  apply IH. apply insert_by_order_index_sorted. exact Hacc.
Qed.

Lemma fold_insert_perm before l :
  forall acc,
    Permutation
      (fold_left (fun acc r => insert_by_order_index before r acc) l acc)
      (acc ++ l).
Proof.
  induction l as [| r l IH]; intros acc; simpl.
  - rewrite app_nil_r. apply Permutation_refl.
  - eapply perm_trans; [apply IH |].
    eapply perm_trans;
      [apply Permutation_app_tail; apply insert_by_order_index_perm |].
    simpl. apply Permutation_cons_app. apply Permutation_refl.
Qed.

Lemma fold_insert_strictly_sorted before l :
  forall acc,
    StronglySorted row_lt (acc ++ l) ->
    fold_left (fun acc r => insert_by_order_index before r acc) l acc =
    acc ++ l.
Proof.
  induction l as [| r l IH]; intros acc Hs; simpl.
  - rewrite app_nil_r. reflexivity.
  - rewrite insert_by_order_index_last.
    + rewrite IH; rewrite <- app_assoc; [reflexivity | exact Hs].
    + clear IH. induction acc as [| a acc IHacc]; [constructor |].
      simpl in Hs. inversion Hs as [| ? ? Hs' Hall]; subst.
      constructor; [| apply IHacc; exact Hs'].
      rewrite Forall_forall in Hall. apply Hall.
      apply in_or_app. right. left. reflexivity.
Qed.

Lemma order_by_order_index_sorted before l :
  StronglySorted row_le (order_by_order_index before l).
Proof. apply fold_insert_sorted. constructor. Qed.

Lemma order_by_order_index_perm before l :
  Permutation (order_by_order_index before l) l.
Proof. apply (fold_insert_perm before l []). Qed.

(** Where no two rows are tied, the engine has no choice. *)
Lemma order_by_order_index_strictly_sorted before l :
  StronglySorted row_lt l -> order_by_order_index before l = l.
Proof. intros H. apply (fold_insert_strictly_sorted before l []). exact H. Qed.

Lemma firstn_incl {A} (l : list A) :
  forall n x, In x (firstn n l) -> In x l.
Proof.
  induction l as [| y l IH]; intros n x H; destruct n; simpl in *;
    try contradiction.
  destruct H as [H | H]; [left; exact H | right; eapply IH; exact H].
Qed.

Lemma StronglySorted_firstn {A} (R : A -> A -> Prop) (l : list A) :
  StronglySorted R l -> forall n, StronglySorted R (firstn n l).
Proof.
  induction 1 as [| x l Hs IH Hall]; intros n; destruct n; simpl;
    try constructor.
  - apply IH.
  - rewrite Forall_forall in *. intros y Hy. apply Hall.
    eapply firstn_incl. exact Hy.
Qed.

Lemma scan_entry_sorted l :
  StronglySorted row_le l -> StronglySorted entry_le (map scan_entry l).
Proof.
  induction 1 as [| x l Hs IH Hall]; simpl; constructor.
  - exact IH.
  - rewrite Forall_forall in *. intros e He.
    apply in_map_iff in He. destruct He as [r [<- Hr]].
    apply Hall in Hr. exact Hr.
Qed.

Lemma entries_of_sorted id w : StronglySorted entry_le (entries_of id w).
Proof.
  apply scan_entry_sorted. unfold delivered.
  destruct (fetch_fault w) as [[n f] |].
  - apply StronglySorted_firstn. apply order_by_order_index_sorted.
  - apply order_by_order_index_sorted.
Qed.

(** *** Reading a workout back *)

Lemma pool_call_inv {A} (run : Tables -> result A * Tables) w r w' :
  (forall t, snd (run t) = t) ->
  db_call (on_committed run) w = (r, w') ->
  committed w' = committed w /\
  (forall a, r = Ok a -> fst (run (committed w)) = Ok a) /\
  (r = Err ErrNoRows -> fst (run (committed w)) = Err ErrNoRows).
Proof.
  intros Hro H. apply db_call_inv in H.
  destruct H as [[f [_ [-> ->]]] | [_ [w1 [H ->]]]].
  - split; [reflexivity |]. split; [discriminate |].
    intros E. inversion E as [E']. exfalso.
    exact (fault_error_not_ErrNoRows f E').
  - unfold on_committed in H. wsimpl.
    specialize (Hro (committed w)).
    destruct (run (committed w)) as [r1 t1]. simpl in *. subst t1.
    inversion H; subst. simpl. destruct (committed w).
    repeat split; auto.
Qed.

Lemma pool_call_engine {A} (run : Tables -> result A * Tables) w r w' :
  db_call (on_committed run) w = (r, w') ->
  tie_before w' = tie_before w /\ fetch_fault w' = fetch_fault w.
Proof.
  intros H. apply db_call_inv in H.
  destruct H as [[f [_ [_ ->]]] | [_ [w1 [H ->]]]]; [split; reflexivity |].
  unfold on_committed in H. destruct (run (committed (pop_script w))).
  inversion H; subst. split; reflexivity.
Qed.

Lemma pool_call_log {A} (run : Tables -> result A * Tables) w r w' :
  db_call (on_committed run) w = (r, w') ->
  log w' = log w ++ [error_of r].
Proof.
  intros H. apply db_call_inv in H.
  destruct H as [[f [_ [-> ->]]] | [_ [w1 [H ->]]]]; [reflexivity |].
  unfold on_committed in H. destruct (run (committed (pop_script w))).
  inversion H; subst. reflexivity.
Qed.

Lemma select_workout_readonly id t : snd (select_workout id t) = t.
Proof.
  unfold select_workout. destruct (find _ _); reflexivity.
Qed.

(** pg.db.Query: on success, the rows in the order of the engine and the
    fetch fault of the state. *)
Lemma Query_entries_inv id w r w' :
  Query_entries id w = (r, w') ->
  committed w' = committed w /\
  pending w' = pending w /\
  workouts_id_seq w' = workouts_id_seq w /\
  workout_entries_id_seq w' = workout_entries_id_seq w /\
  tie_before w' = tie_before w /\
  log w' = log w ++ [error_of r] /\
  match r with
  | Ok rows =>
      rows = mkRows (select_entries (tie_before w) id (committed w))
                    (fetch_fault w) /\
      script w' = tl (script w) /\ next_fault w = None
  | Err e => e <> ErrNoRows /\ fetch_fault w' = fetch_fault w
  end.
Proof.
  unfold Query_entries. intros H. apply db_call_inv in H.
  destruct H as [[f [_ [-> ->]]] | [Hn [w1 [H ->]]]].
  - repeat split. apply fault_error_not_ErrNoRows.
  - inversion H; subst. repeat split. exact Hn.
Qed.

Lemma delivered_cons fetch r rest :
  (forall f, fetch <> Some (O, f)) ->
  delivered fetch (r :: rest) = r :: delivered (after_one_row fetch) rest.
Proof.
  intros Hf. destruct fetch as [[[| n] f] |]; simpl; try reflexivity.
  exfalso. exact (Hf f eq_refl).
Qed.

(** The loop appends the rows delivered; whenever it ends without error
    and no call or fetch failed, those are all the rows. *)
Lemma scan_rows_inv rows :
  forall fetch workout w r w',
    scan_rows rows fetch workout w = (r, w') ->
    committed w' = committed w /\
    pending w' = pending w /\
    workouts_id_seq w' = workouts_id_seq w /\
    workout_entries_id_seq w' = workout_entries_id_seq w /\
    tie_before w' = tie_before w /\
    fetch_fault w' = fetch_fault w /\
    exists l,
      log w' = log w ++ l /\
      match r with
      | Ok scanned =>
          scanned =
            set_Entries
              (Entries workout ++ map scan_entry (delivered fetch rows))
              workout /\
          (Forall (fun o => o = None) l -> delivered fetch rows = rows)
      | Err e => In (Some e) l /\ e <> ErrNoRows
      end.
Proof.
  induction rows as [| x rest IH]; intros fetch workout w r w' H.
  - destruct fetch as [[[| n] f] |]; simpl in H; inversion H; subst;
      repeat (split; [reflexivity |]).
    + exists [Some (fault_error f)]. split; [reflexivity |]. simpl.
      rewrite app_nil_r. destruct workout. split; [reflexivity |].
      intros Hall. inversion Hall as [| ? ? Habs]; discriminate Habs.
    + exists []. rewrite app_nil_r. split; [reflexivity |]. simpl.
      rewrite app_nil_r. destruct workout. split; reflexivity.
    + exists []. rewrite app_nil_r. split; [reflexivity |]. simpl.
      rewrite app_nil_r. destruct workout. split; reflexivity.
  - assert (Hstep :
      (exists f, fetch = Some (O, f)) \/ (forall f, fetch <> Some (O, f))).
    { destruct fetch as [[[| n] f] |];
        [left; exists f; reflexivity | right; discriminate
        | right; discriminate]. }
    destruct Hstep as [[f ->] | Hf].
    + simpl in H. inversion H; subst. repeat (split; [reflexivity |]).
      exists [Some (fault_error f)]. split; [reflexivity |]. simpl.
      rewrite app_nil_r. destruct workout. split; [reflexivity |].
      intros Hall. inversion Hall as [| ? ? Habs]; discriminate Habs.
    + assert (Hbody :
        scan_rows (x :: rest) fetch workout =
        (entry <- db_call (fun w => (Ok (scan_entry x), w)) ;;
         scan_rows rest (after_one_row fetch)
           (set_Entries (Entries workout ++ [entry]) workout))).
      { destruct fetch as [[[| n] f] |]; try reflexivity.
        exfalso. exact (Hf f eq_refl). }
      rewrite Hbody in H. clear Hbody.
      apply bind_inv in H. destruct H as [[e [H ->]] | [a [w1 [H1 H2]]]].
      * apply db_call_inv in H.
        destruct H as [[f [_ [He ->]]] | [_ [w1 [H _]]]];
          [| discriminate H].
        injection He as ->. repeat (split; [reflexivity |]).
        exists [Some (fault_error f)]. split; [reflexivity |].
        split; [left; reflexivity | apply fault_error_not_ErrNoRows].
      * apply db_call_inv in H1.
        destruct H1 as [[f [_ [H1 _]]] | [_ [w2 [H1 ->]]]];
          [discriminate H1 |].
        inversion H1; subst a w2. clear H1.
        apply IH in H2.
        destruct H2 as [Hc [Hp [Hs1 [Hs2 [Ht [Hff [l [Hl Hr]]]]]]]].
        wsimpl.
        repeat (split; [assumption |]).
        exists (None :: l). split; [rewrite Hl, <- app_assoc; reflexivity |].
        destruct r as [scanned | e].
        -- destruct Hr as [-> Hall]. rewrite (delivered_cons _ _ _ Hf).
           simpl. rewrite <- app_assoc. split; [reflexivity |].
           intros HN. inversion HN; subst. rewrite Hall; [reflexivity |].
           assumption.
        -- destruct Hr as [Hin Hne]. split; [right; exact Hin | exact Hne].
Qed.

Lemma same_database_refl w : same_database w w.
Proof. repeat split. Qed.

Lemma same_database_trans w1 w2 w3 :
  same_database w1 w2 -> same_database w2 w3 -> same_database w1 w3.
Proof.
  unfold same_database. intros [A1 [B1 [C1 D1]]] [A2 [B2 [C2 D2]]].
  repeat split; congruence.
Qed.

(** A read on the pool changes nothing but script and log. *)
Lemma pool_read_same {A} (run : Tables -> result A * Tables) w r w' :
  (forall t, snd (run t) = t) ->
  db_call (on_committed run) w = (r, w') ->
  same_database w w'.
Proof.
  intros Hro H. apply db_call_inv in H.
  destruct H as [[f [_ [_ ->]]] | [_ [w1 [H ->]]]].
  - repeat split.
  - unfold on_committed in H. wsimpl. specialize (Hro (committed w)).
    destruct (run (committed w)) as [r1 t1]. simpl in Hro. subst t1.
    inversion H; subst. unfold same_database. simpl.
    destruct (committed w). repeat split.
Qed.

(** Everything GetWorkoutByID does, by what it returns. *)
Lemma GetWorkoutByID_inv id w r w' :
  GetWorkoutByID id w = (r, w') ->
  same_database w w' /\
  tie_before w' = tie_before w /\
  exists l,
    log w' = log w ++ l /\
    match r with
    | Ok None =>
        find (fun r => w_id r =? id) (workouts (committed w)) = None /\
        fetch_fault w' = fetch_fault w
    | Ok (Some workout) =>
        exists row,
          find (fun r => w_id r =? id) (workouts (committed w)) = Some row /\
          workout = set_Entries (entries_of id w) (header_of row) /\
          (Forall (fun o => o = None) l ->
           Entries workout =
           map scan_entry (select_entries (tie_before w) id (committed w)))
    | Err e => In (Some e) l /\ e <> ErrNoRows
    end.
Proof.
  unfold GetWorkoutByID. intros H.
  destruct (db_call (on_committed (select_workout id)) w)
    as [r1 w1] eqn:E1.
  pose proof (pool_read_same _ _ _ _ (select_workout_readonly id) E1) as S1.
  pose proof (pool_call_engine _ _ _ _ E1) as [T1 F1].
  pose proof (pool_call_log _ _ _ _ E1) as L1.
  apply pool_call_inv in E1; [| apply select_workout_readonly].
  destruct E1 as [Hc1 [Hok Hnr]].
  destruct r1 as [row | e].
  - specialize (Hok row eq_refl). unfold select_workout in Hok.
    destruct (find (fun r => w_id r =? id) (workouts (committed w)))
      as [row0 |] eqn:Ef; simpl in Hok; [| discriminate Hok].
    inversion Hok; subst row0. clear Hok Hnr.
    apply bind_inv in H. destruct H as [[e [HQ ->]] | [rows [w2 [HQ H]]]].
    + apply Query_entries_inv in HQ.
      destruct HQ as [Hc [Hp [Hs1 [Hs2 [Ht [Hl [Hne _]]]]]]].
      split; [eapply same_database_trans; [exact S1 | repeat split; assumption] |].
      split; [congruence |].
      exists [None; Some e]. split; [rewrite Hl, L1, <- app_assoc; reflexivity |].
      split; [right; left; reflexivity | exact Hne].
    + apply Query_entries_inv in HQ.
      destruct HQ as [Hc [Hp [Hs1 [Hs2 [Ht [Hl [-> _]]]]]]].
      simpl in H.
      apply bind_inv in H. destruct H as [[e [HS ->]] | [a [w3 [HS H]]]].
      * apply scan_rows_inv in HS.
        destruct HS as [Hc3 [Hp3 [Hs3 [Hs4 [Ht3 [_ [l [Hl3 [Hin Hne]]]]]]]]].
        split; [eapply same_database_trans; [exact S1 |];
                repeat split; congruence |].
        split; [congruence |].
        exists (None :: None :: l).
        split; [rewrite Hl3, Hl, L1, <- !app_assoc; reflexivity |].
        split; [right; right; exact Hin | exact Hne].
      * inversion H; subst r w3. clear H.
        apply scan_rows_inv in HS.
        destruct HS as [Hc3 [Hp3 [Hs3 [Hs4 [Ht3 [_ [l [Hl3 [-> Hall]]]]]]]]].
        split; [eapply same_database_trans; [exact S1 |];
                repeat split; congruence |].
        split; [congruence |].
        exists (None :: None :: l).
        split; [rewrite Hl3, Hl, L1, <- !app_assoc; reflexivity |].
        exists row. split; [reflexivity |].
        unfold entries_of, set_Entries. simpl.
        rewrite Hc1, T1, F1. split; [reflexivity |].
        intros HN. inversion HN as [| ? ? _ HN1]; subst.
        inversion HN1 as [| ? ? _ HN2]; subst.
        specialize (Hall HN2). rewrite Hc1, T1, F1 in Hall.
        rewrite Hall. reflexivity.
  - destruct e; inversion H; subst; clear H;
      (split; [exact S1 |]); (split; [exact T1 |]).
    + exists [Some ErrNoRows]. split; [exact L1 |].
      split; [| exact F1].
      specialize (Hnr eq_refl). unfold select_workout in Hnr.
      destruct (find (fun r => w_id r =? id) (workouts (committed w)));
        [discriminate Hnr | reflexivity].
    + exists [Some ErrConnDone]. split; [exact L1 |].
      split; [left; reflexivity | discriminate].
    + exists [Some ErrTxDone]. split; [exact L1 |].
      split; [left; reflexivity | discriminate].
    + exists [Some (ErrDriver msg)]. split; [exact L1 |].
      split; [left; reflexivity | discriminate].
Qed.

(** What GetWorkoutByID returns when it returns without error. *)
Lemma GetWorkoutByID_ok id w found w' :
  GetWorkoutByID id w = (Ok found, w') ->
  committed w' = committed w /\
  match found with
  | None => find (fun r => w_id r =? id) (workouts (committed w)) = None
  | Some workout =>
      exists r,
        find (fun r => w_id r =? id) (workouts (committed w)) = Some r /\
        workout = set_Entries (entries_of id w) (header_of r)
  end.
Proof.
  intros H. apply GetWorkoutByID_inv in H.
  destruct H as [[Hc _] [_ [l [_ H]]]]. split; [exact Hc |].
  destruct found as [workout |].
  - destruct H as [row [Hf [Hw _]]]. exists row. split; assumption.
  - apply H.
Qed.

(** A read during which no call and no fetch failed returns every row of
    the workout. *)
Lemma GetWorkoutByID_clean id w workout w' :
  GetWorkoutByID id w = (Ok (Some workout), w') ->
  Forall (fun o => o = None) (new_calls w w') ->
  Entries workout =
  map scan_entry (select_entries (tie_before w) id (committed w)).
Proof.
  intros H HN. apply GetWorkoutByID_inv in H.
  destruct H as [_ [_ [l [Hl [row [_ [_ Hall]]]]]]].
  rewrite (new_calls_app _ _ _ Hl) in HN. apply Hall. exact HN.
Qed.

Lemma GetWorkoutByID_same id w r w' :
  GetWorkoutByID id w = (r, w') -> same_database w w'.
Proof. intros H. apply GetWorkoutByID_inv in H. apply H. Qed.

(** *** What a successful UpdateWorkout commits *)

Lemma UpdateWorkout_ok workout w w' :
  UpdateWorkout workout w = (Ok tt, w') ->
  committed w' =
    updated_tables workout (workout_entries_id_seq w) (committed w) /\
  pending w' = None /\
  filter (fun r => w_id r =? ID workout) (workouts (committed w)) <> [].
Proof.
  unfold UpdateWorkout. intros H.
  apply bind_ok_inv in H. destruct H as [[] [w1 [HB H]]].
  apply Begin_inv in HB. destruct HB as [Hc1 HB].
  destruct (HB eq_refl) as [Hp1 [Hs1 He1]]. clear HB.
  unfold defer in H.
  match type of H with
  | (let (_, _) := ?body w1 in _) = _ => destruct (body w1) as [r w2] eqn:E
  end.
  inversion H; subst r w'. clear H.
  destruct (Rollback_inv w2) as [Hrc [Hrp _]]. rewrite Hrc, Hrp.
  apply bind_ok_inv in E. destruct E as [n [w3 [HU E]]].
  apply tx_call_ok in HU. destruct HU as [t [t1 [w4 [Hp [Hrun ->]]]]].
  rewrite Hp1 in Hp. inversion Hp; subst t. clear Hp.
  unfold update_workout in Hrun. inversion Hrun; subst n t1 w4. clear Hrun.
  apply bind_ok_inv in E. destruct E as [k [w5 [HR E]]].
  apply db_call_inv in HR.
  destruct HR as [[f [_ [HR _]]] | [_ [w6 [HR ->]]]]; [discriminate HR |].
  inversion HR; subst k w6. clear HR.
  destruct (Z.eqb_spec
              (Z.of_nat (List.length (filter (fun r => w_id r =? ID workout)
                                             (workouts (committed w))))) 0)
    as [Hz | Hnz]; [discriminate E |].
  apply bind_ok_inv in E. destruct E as [[] [w7 [HD E]]].
  apply tx_call_ok in HD. destruct HD as [t [t1 [w8 [Hp [Hrun ->]]]]].
  unfold delete_entries in Hrun. inversion Hrun; subst t1 w8. clear Hrun.
  wsimpl. inversion Hp; subst t. clear Hp.
  apply bind_ok_inv in E. destruct E as [[] [w9 [HE E]]].
  eapply update_entries_ok in HE; [| reflexivity].
  destruct HE as [Hp9 [Hc9 [Hs9 He9]]].
  apply Commit_inv in E. destruct E as [t2 [Hp2 [Hc2 Hn2]]].
  rewrite Hp9 in Hp2. injection Hp2 as Ht2. rewrite <- Ht2 in Hc2.
  simpl in *. split; [| split].
  - rewrite Hc2, He1. reflexivity.
  - reflexivity.
  - intros Hnil. rewrite Hnil in Hnz. apply Hnz. reflexivity.
Qed.

Lemma filter_entry_rows id start entries :
  filter (fun r => e_workout_id r =? id) (entry_rows id start entries) =
  entry_rows id start entries.
Proof.
  revert start. induction entries as [| e rest IH]; intros start; simpl;
    [reflexivity |].
  rewrite Z.eqb_refl, IH. reflexivity.
Qed.

Lemma filter_out_then_in id (l : list EntryRow) :
  filter (fun r => e_workout_id r =? id)
         (filter (fun r => negb (e_workout_id r =? id)) l) = [].
Proof.
  induction l as [| r l IH]; simpl; [reflexivity |].
  destruct (e_workout_id r =? id) eqn:E; simpl; [exact IH |].
  rewrite E. exact IH.
Qed.

(** After the update the rows of the workout are exactly the rows just
    inserted: nothing of the old list is left. *)
Lemma updated_tables_entries workout start t :
  filter (fun r => e_workout_id r =? ID workout)
         (workout_entries (updated_tables workout start t)) =
  entry_rows (ID workout) start (Entries workout).
Proof.
  unfold updated_tables. simpl.
  rewrite filter_app, filter_out_then_in, filter_entry_rows. reflexivity.
Qed.

Lemma updated_tables_header workout start t r :
  find (fun r => w_id r =? ID workout)
       (workouts (updated_tables workout start t)) = Some r ->
  w_id r = ID workout /\ w_title r = Title workout /\
  w_description r = Description workout /\
  w_duration_minutes r = DurationMinutes workout /\
  w_calories_burned r = CaloriesBurned workout.
Proof.
  unfold updated_tables. simpl.
  induction (workouts t) as [| x l IH]; simpl; [discriminate |].
  assert (Hid : w_id (update_row (Title workout) (Description workout)
                        (DurationMinutes workout) (CaloriesBurned workout)
                        (ID workout) x) = w_id x).
  { unfold update_row. destruct (w_id x =? ID workout); reflexivity. }
  rewrite Hid. destruct (w_id x =? ID workout) eqn:E.
  - intros H. injection H as <-. unfold update_row. rewrite E. simpl.
    apply Z.eqb_eq in E. auto.
  - exact IH.
Qed.

Lemma scan_entry_rows id start entries :
  map scan_entry (entry_rows id start entries) = with_ids start entries.
Proof.
  revert start. induction entries as [| e rest IH]; intros start; simpl;
    [reflexivity |].
  rewrite IH. reflexivity.
Qed.

Lemma entry_rows_bound id e entries :
  Forall (entry_le e) entries ->
  forall s s', Forall (row_le (entry_row s id e)) (entry_rows id s' entries).
Proof.
  induction 1 as [| x rest Hx Hall IH]; intros s s'; simpl; constructor.
  - exact Hx.
  - apply IH.
Qed.

Lemma entry_rows_sorted id entries :
  forall start,
    StronglySorted entry_le entries ->
    StronglySorted row_le (entry_rows id start entries).
Proof.
  induction entries as [| e rest IH]; intros start H; simpl; [constructor |].
  inversion H as [| ? ? Hs Hall]; subst. constructor; [apply IH; exact Hs |].
  apply entry_rows_bound. exact Hall.
Qed.

Lemma entry_rows_bound_lt id e entries :
  Forall (entry_lt e) entries ->
  forall s s', Forall (row_lt (entry_row s id e)) (entry_rows id s' entries).
Proof.
  induction 1 as [| x rest Hx Hall IH]; intros s s'; simpl; constructor.
  - exact Hx.
  - apply IH.
Qed.

Lemma entry_rows_strictly_sorted id entries :
  forall start,
    StronglySorted entry_lt entries ->
    StronglySorted row_lt (entry_rows id start entries).
Proof.
  induction entries as [| e rest IH]; intros start H; simpl; [constructor |].
  inversion H as [| ? ? Hs Hall]; subst. constructor; [apply IH; exact Hs |].
  apply entry_rows_bound_lt. exact Hall.
Qed.

(** Reading, with no call and no fetch failing, a workout whose rows are
    the header [row] and the rows of [entries] inserted from [start] on:
    the entries come back under those identities, sorted; where no two are
    tied, in the order they were inserted. *)
Lemma read_inserted id row start entries w found w' :
  GetWorkoutByID id w = (Ok found, w') ->
  Forall (fun o => o = None) (new_calls w w') ->
  find (fun r => w_id r =? id) (workouts (committed w)) = Some row ->
  filter (fun r => e_workout_id r =? id) (workout_entries (committed w)) =
    entry_rows id start entries ->
  exists got,
    found = Some got /\
    got = set_Entries (Entries got) (header_of row) /\
    Permutation (Entries got) (with_ids start entries) /\
    StronglySorted entry_le (Entries got) /\
    (StronglySorted entry_lt entries -> Entries got = with_ids start entries).
Proof.
  intros HG HN Hf He.
  pose proof (GetWorkoutByID_ok _ _ _ _ HG) as [_ Hok].
  destruct found as [got |]; [| congruence].
  destruct Hok as [r [Hr Hgot]]. rewrite Hf in Hr. inversion Hr; subst r.
  pose proof (GetWorkoutByID_clean _ _ _ _ HG HN) as Hall.
  unfold select_entries in Hall. rewrite He in Hall.
  exists got. split; [reflexivity |].
  split; [rewrite Hgot at 1; rewrite Hgot; reflexivity |].
  rewrite Hall. split; [| split].
  - rewrite <- scan_entry_rows with (id := id).
    apply Permutation_map. apply order_by_order_index_perm.
  - apply scan_entry_sorted. apply order_by_order_index_sorted.
  - intros Hs. rewrite order_by_order_index_strictly_sorted.
    + apply scan_entry_rows.
    + apply entry_rows_strictly_sorted. exact Hs.
Qed.

(** *** Runs along a given script *)

Lemma tx_call_run {A} (run : Tables -> World -> A * Tables * World) w t s :
  pending w = Some t ->
  script w = None :: s ->
  db_call (on_pending run) w =
  (let '(a, t1, w1) := run t (set_script s w) in
   (Ok a, record_outcome None (set_pending (Some t1) w1))).
Proof.
  intros Hp Hs. unfold db_call, next_fault, pop_script. rewrite Hs. simpl.
  unfold on_pending. simpl. rewrite Hp.
  destruct (run t (set_script s w)) as [[a t1] w1]. reflexivity.
Qed.

Lemma Begin_run w s :
  script w = None :: s ->
  Begin w =
  (Ok tt,
   record_outcome None (set_pending (Some (committed w)) (set_script s w))).
Proof.
  intros Hs. unfold Begin, db_call, next_fault, pop_script. rewrite Hs.
  reflexivity.
Qed.

Lemma update_entries_run workoutID entries :
  forall w t s,
    pending w = Some t ->
    script w = repeat None (List.length entries) ++ s ->
    exists w',
      update_entries workoutID entries w = (Ok tt, w') /\
      script w' = s /\
      log w' = log w ++ repeat None (List.length entries) /\
      pending w' <> None.
Proof.
  induction entries as [| e rest IH]; intros w t s Hp Hs; simpl in *.
  - exists w. rewrite app_nil_r. repeat split; [exact Hs | congruence].
  - unfold bind. rewrite (tx_call_run _ w t _ Hp Hs).
    unfold insert_entry.
    match goal with
    | |- exists w', update_entries _ _ ?w1 = _ /\ _ =>
        destruct (IH w1 (mkTables (workouts t)
                           (workout_entries t ++
                            [entry_row (workout_entries_id_seq w) workoutID e]))
                     s eq_refl eq_refl)
          as [w' [Hrun [Hs' [Hl' Hp']]]]
    end.
    exists w'. repeat split; try assumption.
    rewrite Hl'. simpl. rewrite <- app_assoc. reflexivity.
Qed.

Lemma no_fault_in_S n w :
  no_fault_in (S n) w ->
  next_fault w = None /\
  forall w1, script w1 = tl (script w) -> no_fault_in n w1.
Proof.
  unfold no_fault_in, next_fault. intros H.
  destruct (script w) as [| o s]; simpl in *.
  - split; [reflexivity |]. intros w1 ->. destruct n; constructor.
  - inversion H; subst. split; [reflexivity |]. intros w1 ->. assumption.
Qed.

Lemma db_call_no_fault {A} (run : World -> result A * World) w :
  next_fault w = None ->
  db_call run w =
  (let (r, w1) := run (pop_script w) in (r, record_outcome (error_of r) w1)).
Proof. intros H. unfold db_call. rewrite H. reflexivity. Qed.

(** *** Runs on which no fault is scheduled *)

Lemma fault_free_next w : fault_free w -> next_fault w = None.
Proof.
  unfold fault_free, next_fault. intros [H _].
  destruct (script w) as [| [f |] s]; try reflexivity.
  inversion H as [| ? ? Habs]; discriminate Habs.
Qed.

Lemma fault_free_later w w1 :
  fault_free w ->
  (script w1 = script w \/ script w1 = tl (script w)) ->
  fetch_fault w1 = None ->
  fault_free w1.
Proof.
  unfold fault_free. intros [H _] [Hs | Hs] Hf; rewrite Hs;
    (split; [| exact Hf]); [exact H |].
  destruct (script w); [constructor | inversion H; assumption].
Qed.

Lemma tx_call_next {A} (run : Tables -> World -> A * Tables * World) w t :
  pending w = Some t ->
  next_fault w = None ->
  db_call (on_pending run) w =
  (let '(a, t1, w1) := run t (pop_script w) in
   (Ok a, record_outcome None (set_pending (Some t1) w1))).
Proof.
  intros Hp Hf. rewrite (db_call_no_fault _ w Hf).
  unfold on_pending. simpl. rewrite Hp.
  destruct (run t (pop_script w)) as [[a t1] w1]. reflexivity.
Qed.

Lemma update_entries_fault_free workoutID entries :
  forall w t,
    pending w = Some t ->
    fault_free w ->
    exists w',
      update_entries workoutID entries w = (Ok tt, w') /\
      fault_free w' /\ pending w' <> None.
Proof.
  induction entries as [| e rest IH]; intros w t Hp Hff; simpl.
  - exists w. split; [reflexivity |]. split; [exact Hff | congruence].
  - unfold bind.
    rewrite (tx_call_next _ w t Hp (fault_free_next w Hff)).
    unfold insert_entry.
    match goal with
    | |- exists w', update_entries _ _ ?w1 = _ /\ _ =>
        destruct (IH w1 (mkTables (workouts t)
                           (workout_entries t ++
                            [entry_row (workout_entries_id_seq (pop_script w))
                               workoutID e]))
                     eq_refl) as [w' [Hrun [Hff' Hp']]]
    end.
    + eapply fault_free_later; [exact Hff | right; reflexivity |].
      simpl. apply Hff.
    + exists w'. split; [exact Hrun |]. split; assumption.
Qed.

(** With no fault scheduled CreateWorkout succeeds. *)
Lemma CreateWorkout_fault_free workout w :
  fault_free w ->
  exists created w',
    CreateWorkout workout w = (Ok created, w') /\ fault_free w'.
Proof.
  intros Hff. unfold CreateWorkout, bind, Begin.
  rewrite (db_call_no_fault _ w (fault_free_next w Hff)). simpl.
  unfold defer, bind.
  match goal with
  | |- context [db_call (on_pending ?run) ?w1] =>
      assert (Hff1 : fault_free w1)
        by (eapply fault_free_later;
            [exact Hff | right; reflexivity | simpl; apply Hff]);
      rewrite (tx_call_next run w1 (committed w) eq_refl
                 (fault_free_next w1 Hff1))
  end.
  unfold insert_workout. rewrite create_entries_update_entries.
  match goal with
  | |- context [update_entries ?id ?es ?w2] =>
      destruct (update_entries_fault_free id es w2
                  (mkTables
                     (workouts (committed w) ++
                      [mkWorkoutRow (workouts_id_seq w) (Title workout)
                         (Description workout) (DurationMinutes workout)
                         (CaloriesBurned workout) None])
                     (workout_entries (committed w)))
                  eq_refl)
        as [w3 [Hrun [Hff3 Hp3]]]
  end.
  { eapply fault_free_later; [exact Hff1 | right; reflexivity |].
    simpl. apply Hff. }
  rewrite Hrun.
  unfold replace_err, Commit.
  rewrite (db_call_no_fault _ w3 (fault_free_next w3 Hff3)).
  destruct (pending (pop_script w3)) as [t |] eqn:Ep;
    [| exfalso; apply Hp3; exact Ep].
  eexists. eexists. split; [reflexivity |].
  unfold fault_free, Rollback. simpl.
  split; [| apply Hff3].
  destruct Hff3 as [H3 _]. destruct (script w3);
    [constructor | inversion H3; assumption].
Qed.

(** With no fault scheduled UpdateWorkout of a stored workout succeeds. *)
Lemma UpdateWorkout_fault_free workout w :
  fault_free w ->
  filter (fun r => w_id r =? ID workout) (workouts (committed w)) <> [] ->
  exists w', UpdateWorkout workout w = (Ok tt, w') /\ fault_free w'.
Proof.
  intros Hff Hex. unfold UpdateWorkout, bind, Begin.
  rewrite (db_call_no_fault _ w (fault_free_next w Hff)). simpl.
  unfold defer, bind.
  match goal with
  | |- context [db_call (on_pending ?run) ?w1] =>
      assert (Hff1 : fault_free w1)
        by (eapply fault_free_later;
            [exact Hff | right; reflexivity | simpl; apply Hff]);
      rewrite (tx_call_next run w1 (committed w) eq_refl
                 (fault_free_next w1 Hff1))
  end.
  unfold update_workout.
  match goal with
  | |- context [db_call (fun w => (Ok ?n, w)) ?w2] =>
      assert (Hff2 : fault_free w2)
        by (eapply fault_free_later;
            [exact Hff1 | right; reflexivity | simpl; apply Hff]);
      rewrite (db_call_no_fault (fun w => (Ok n, w)) w2
                 (fault_free_next w2 Hff2))
  end.
  simpl.
  destruct (Z.eqb_spec
              (Z.of_nat (List.length
                 (filter (fun r => w_id r =? ID workout)
                         (workouts (committed w))))) 0) as [Hz | _].
  { exfalso. apply Hex.
    destruct (filter (fun r => w_id r =? ID workout)
                     (workouts (committed w))); [reflexivity |].
    simpl in Hz. discriminate Hz. }
  unfold bind.
  match goal with
  | |- context [db_call (on_pending ?run) ?w3] =>
      assert (Hff3 : fault_free w3)
        by (eapply fault_free_later;
            [exact Hff2 | right; reflexivity | simpl; apply Hff]);
      rewrite (tx_call_next run w3 _ eq_refl (fault_free_next w3 Hff3))
  end.
  unfold delete_entries.
  match goal with
  | |- context [update_entries ?id ?es ?w4] =>
      destruct (update_entries_fault_free id es w4 _ eq_refl)
        as [w5 [Hrun [Hff5 Hp5]]]
  end.
  { eapply fault_free_later; [exact Hff3 | right; reflexivity |].
    simpl. apply Hff. }
  rewrite Hrun.
  unfold Commit.
  rewrite (db_call_no_fault _ w5 (fault_free_next w5 Hff5)).
  destruct (pending (pop_script w5)) as [t |] eqn:Ep;
    [| exfalso; apply Hp5; exact Ep].
  eexists. split; [reflexivity |].
  unfold fault_free, Rollback. simpl.
  split; [| apply Hff5].
  destruct Hff5 as [H5 _]. destruct (script w5);
    [constructor | inversion H5; assumption].
Qed.

Lemma scan_rows_fault_free rows :
  forall workout w,
    fault_free w ->
    exists scanned w' l,
      scan_rows rows None workout w = (Ok scanned, w') /\
      fault_free w' /\
      log w' = log w ++ l /\ Forall (fun o => o = None) l.
Proof.
  induction rows as [| x rest IH]; intros workout w Hff; simpl.
  - exists workout, w, []. rewrite app_nil_r.
    split; [reflexivity |]. split; [exact Hff |].
    split; [reflexivity | constructor].
  - unfold bind. rewrite (db_call_no_fault _ w (fault_free_next w Hff)).
    simpl.
    match goal with
    | |- context [scan_rows _ _ ?wk ?w1] =>
        destruct (IH wk w1) as [s [w' [l [Hrun [Hff' [Hl HN]]]]]]
    end.
    + eapply fault_free_later; [exact Hff | right; reflexivity |].
      simpl. apply Hff.
    + exists s, w', (None :: l). split; [exact Hrun |].
      split; [exact Hff' |]. split.
      * rewrite Hl. simpl. rewrite <- app_assoc. reflexivity.
      * constructor; [reflexivity | exact HN].
Qed.

(** With no fault scheduled GetWorkoutByID returns the stored workout, and
    no call of it fails. *)
Lemma GetWorkoutByID_fault_free id w row :
  fault_free w ->
  find (fun r => w_id r =? id) (workouts (committed w)) = Some row ->
  exists got w',
    GetWorkoutByID id w = (Ok (Some got), w') /\
    fault_free w' /\
    Forall (fun o => o = None) (new_calls w w').
Proof.
  intros Hff Hfind. unfold GetWorkoutByID.
  rewrite (db_call_no_fault _ w (fault_free_next w Hff)).
  unfold on_committed, select_workout. simpl. rewrite Hfind. simpl.
  unfold bind, Query_entries.
  match goal with
  | |- context [db_call ?run ?w1] =>
      assert (Hff1 : fault_free w1)
        by (eapply fault_free_later;
            [exact Hff | right; reflexivity | simpl; apply Hff]);
      rewrite (db_call_no_fault run w1 (fault_free_next w1 Hff1))
  end.
  simpl. destruct Hff as [Hs Hf]. rewrite Hf.
  match goal with
  | |- context [scan_rows ?rows None ?wk ?w2] =>
      destruct (scan_rows_fault_free rows wk w2)
        as [s [w' [l [Hrun [Hff' [Hl HN]]]]]]
  end.
  { split; simpl; [| reflexivity].
    destruct Hff1 as [H1 _]. simpl in H1.
    destruct (tl (script w)); [constructor | inversion H1; assumption]. }
  rewrite Hrun. eexists. eexists. split; [reflexivity |].
  split; [exact Hff' |].
  rewrite (new_calls_app w w' (None :: None :: l)).
  - repeat constructor. exact HN.
  - rewrite Hl. simpl. rewrite <- !app_assoc. reflexivity.
Qed.

(** ** Properties of the store and of the handlers *)

Lemma filter_none_of {A} (p : A -> bool) (l : list A) :
  Forall (fun x => p x = false) l -> filter p l = [].
Proof.
  induction 1 as [| x l Hx Hall IH]; simpl; [reflexivity |].
  rewrite Hx. exact IH.
Qed.

(** C4.  If any database call of CreateWorkout fails (the begin, the header
    insert, any entry insert or the commit), CreateWorkout returns an error,
    the committed tables are what they were, no transaction is left open,
    and neither table holds a row for the identity the sequence would have
    given the workout. *)
Theorem CreateWorkout_failure_leaves_no_rows :
  forall workout w r w',
    sequence_ahead w ->
    pending w = None ->
    CreateWorkout workout w = (r, w') ->
    (exists e, In (Some e) (new_calls w w')) ->
    (exists e, r = Err e) /\
    committed w' = committed w /\
    pending w' = None /\
    filter (fun row => w_id row =? workouts_id_seq w)
           (workouts (committed w')) = [] /\
    filter (fun row => e_workout_id row =? workouts_id_seq w)
           (workout_entries (committed w')) = [].
Proof.
  intros workout w r w' [Hw He] Hp H [e Hin].
  assert (Hr : exists e0, r = Err e0).
  { destruct r as [created | e0]; [| exists e0; reflexivity].
    apply CreateWorkout_calls in H. destruct H as [l [El Hl]].
    rewrite (new_calls_app _ _ _ El) in Hin.
    rewrite Forall_forall in Hl. apply Hl in Hin. discriminate Hin. }
  destruct Hr as [e0 ->]. split; [exists e0; reflexivity |].
  apply CreateWorkout_err in H.
  assert (Hc : committed w' = committed w)
    by (destruct H as [[H _] | [H _]]; exact H).
  split; [exact Hc |]. split.
  - destruct H as [[_ H] | [_ H]]; [exact H | congruence].
  - rewrite Hc. split; apply filter_none_of.
    + eapply Forall_impl; [| exact Hw]. intros row Hrow. simpl in Hrow.
      apply Z.eqb_neq. lia.
    + eapply Forall_impl; [| exact He]. intros row Hrow. simpl in Hrow.
      apply Z.eqb_neq. lia.
Qed.

(** C4, at a concrete input: the insert of the second of two entries fails. *)
Lemma CreateWorkout_failure_leaves_no_rows_witness :
  fst (CreateWorkout Fixtures.two_entries Fixtures.fourth_call_fails) =
    Err (ErrDriver "constraint") /\
  committed
    (snd (CreateWorkout Fixtures.two_entries Fixtures.fourth_call_fails)) =
    Fixtures.stored_tables /\
  pending
    (snd (CreateWorkout Fixtures.two_entries Fixtures.fourth_call_fails)) =
    None.
Proof.
  destruct (CreateWorkout_failure_leaves_no_rows Fixtures.two_entries
              Fixtures.fourth_call_fails
              (Err (ErrDriver "constraint"))
              (snd (CreateWorkout Fixtures.two_entries
                      Fixtures.fourth_call_fails)))
    as [_ [Hc [Hp _]]].
  - split; repeat constructor.
  - reflexivity.
  - vm_compute. reflexivity.
  - exists (ErrDriver "constraint"). vm_compute. right. right. right. left.
    reflexivity.
  - split; [vm_compute; reflexivity |]. split; [exact Hc | exact Hp].
Defined.

(** C10.  When the begin and every insert succeed and the commit fails with
    any error [f], CreateWorkout returns sql.ErrConnDone: the error the
    commit gave is in the log of calls and is not what the caller gets. *)
Theorem CreateWorkout_commit_error_replaced :
  forall workout w f rest,
    script w =
      repeat None (2 + List.length (Entries workout)) ++ Some f :: rest ->
    exists w',
      CreateWorkout workout w = (Err ErrConnDone, w') /\
      new_calls w w' =
        repeat None (2 + List.length (Entries workout)) ++
        [Some (fault_error f)] /\
      committed w' = committed w.
Proof.
  intros workout w f rest Hs. simpl in Hs.
  destruct (CreateWorkout workout w) as [r w'] eqn:E. exists w'.
  assert (Hgoal : r = Err ErrConnDone /\
                  log w' = log w ++ None :: None ::
                             repeat None (List.length (Entries workout)) ++
                             [Some (fault_error f)]).
  { unfold CreateWorkout, bind in E. rewrite (Begin_run w _ Hs) in E.
    unfold defer, bind in E.
    match type of E with
    | context [db_call (on_pending ?run) ?w1] =>
        rewrite (tx_call_run run w1 (committed w)
                   (repeat None (List.length (Entries workout)) ++
                    Some f :: rest) eq_refl eq_refl) in E
    end.
    unfold insert_workout in E.
    rewrite create_entries_update_entries in E.
    match type of E with
    | context [update_entries ?id ?es ?w2] =>
        destruct (update_entries_run id es w2
                    (mkTables
                       (workouts (committed w) ++
                        [mkWorkoutRow (workouts_id_seq w) (Title workout)
                           (Description workout) (DurationMinutes workout)
                           (CaloriesBurned workout) None])
                       (workout_entries (committed w)))
                    (Some f :: rest) eq_refl eq_refl)
          as [w3 [Hrun [Hs3 [Hl3 Hp3]]]]
    end.
    simpl in Hrun. simpl in E. rewrite Hrun in E.
    unfold replace_err, Commit, db_call, next_fault in E. rewrite Hs3 in E.
    inversion E; subst r w'. clear E. split; [reflexivity |].
    destruct (Rollback_inv (record_outcome (Some (fault_error f))
                              (pop_script w3))) as [_ [_ Hl]].
    rewrite Hl. wsimpl. rewrite Hl3. simpl.
    rewrite <- !app_assoc. reflexivity. }
  destruct Hgoal as [-> Hl]. split; [reflexivity |]. split.
  - apply new_calls_app. exact Hl.
  - eapply CreateWorkout_err_committed. exact E.
Qed.

(** C10, at a concrete input: the commit of the specification's example
    fails on a serialization error. *)
Lemma CreateWorkout_commit_error_replaced_witness :
  exists w',
    CreateWorkout Fixtures.leg_day Fixtures.commit_fails =
      (Err ErrConnDone, w') /\
    new_calls Fixtures.commit_fails w' =
      [None; None; None; Some (ErrDriver "could not serialize access")] /\
    committed w' = Fixtures.empty_tables.
Proof.
  apply (CreateWorkout_commit_error_replaced Fixtures.leg_day
           Fixtures.commit_fails (Driver "could not serialize access") []).
  reflexivity.
Defined.

(** What CreateWorkout returns for every input: the workout given, with its
    ID set; its entries are the entries given, identities included. *)
Lemma CreateWorkout_returns_entries_given workout w created w' :
  CreateWorkout workout w = (Ok created, w') ->
  ID created = workouts_id_seq w /\
  Entries created = Entries workout /\
  UserID created = UserID workout.
Proof.
  intros H. apply CreateWorkout_ok in H. destruct H as [-> _].
  repeat split.
Qed.

(** C2.  On the specification's example, created in an empty database whose
    sequences stand at 1: the workout returned has ID 1, its entry still has
    the ID 0 it was submitted with, and the row stored for that entry has
    the identity 1 the database assigned. *)
Theorem CreateWorkout_returned_entry_keeps_submitted_ID :
  exists created w',
    CreateWorkout Fixtures.leg_day Fixtures.fresh = (Ok created, w') /\
    ID created = 1 /\
    map EntryID (Entries created) = [0] /\
    map EntryID (Entries Fixtures.leg_day) = [0] /\
    map e_id (workout_entries (committed w')) = [1].
Proof.
  destruct (CreateWorkout Fixtures.leg_day Fixtures.fresh) as [r w'] eqn:E.
  vm_compute in E. injection E as <- <-.
  eexists. eexists. split; [reflexivity |]. repeat split.
Qed.

(** Every successful CreateWorkout stores the header row with a NULL
    user_id, whatever UserID the workout carries. *)
Lemma CreateWorkout_stores_no_owner workout w created w' :
  CreateWorkout workout w = (Ok created, w') ->
  workouts (committed w') =
  workouts (committed w) ++ [workout_row (workouts_id_seq w) workout None].
Proof.
  intros H. apply CreateWorkout_ok in H. destruct H as [_ [-> _]].
  reflexivity.
Qed.

(** What CreateWorkout does to the database does not depend on the UserID
    of the workout it is given. *)
Lemma CreateWorkout_ignores_UserID workout user w :
  snd (CreateWorkout (set_UserID user workout) w) =
  snd (CreateWorkout workout w).
Proof.
  unfold CreateWorkout, bind, defer. simpl.
  destruct (Begin w) as [[[] | e] w1]; [| reflexivity].
  destruct (db_call
              (on_pending
                 (insert_workout (Title workout) (Description workout)
                    (DurationMinutes workout) (CaloriesBurned workout))) w1)
    as [[id | e] w2]; [| reflexivity].
  destruct (create_entries id (Entries workout) w2) as [[[] | e] w3];
    [| reflexivity].
  destruct (replace_err Commit ErrConnDone w3) as [[[] | e] w4]; reflexivity.
Qed.

(** C3.  User 7 creates the specification's example in an empty database:
    the handler answers 201 with a workout whose UserID is 7, the stored row
    has no user_id, and the owner lookup for the created workout does not
    return 7. *)
Theorem HandleCreateWorkout_owner_not_persisted :
  exists created w',
    HandleCreateWorkout Fixtures.create_by_7 Fixtures.fresh =
      ([WriteJSON StatusCreated (env_workout (Some created))], w') /\
    UserID created = 7 /\
    map w_user_id (workouts (committed w')) = [None] /\
    fst (GetWorkoutOwner (ID created) w') <> Ok 7.
Proof.
  destruct (HandleCreateWorkout Fixtures.create_by_7 Fixtures.fresh)
    as [resp w'] eqn:E.
  vm_compute in E. injection E as <- <-.
  eexists. eexists. split; [reflexivity |]. repeat split.
  vm_compute. discriminate.
Qed.

(** C8.  When no stored row has the workout's ID, UpdateWorkout commits
    nothing (the entries table included) and returns an error; that error is
    sql.ErrNoRows whenever the begin, the header update and RowsAffected run
    without a database fault. *)
Theorem UpdateWorkout_not_found :
  forall workout w r w',
    Forall (fun row => w_id row <> ID workout) (workouts (committed w)) ->
    UpdateWorkout workout w = (r, w') ->
    committed w' = committed w /\
    (exists e, r = Err e) /\
    (no_fault_in 3 w -> r = Err ErrNoRows).
Proof.
  intros workout w r w' Hno H.
  assert (Hfil : filter (fun row => w_id row =? ID workout)
                        (workouts (committed w)) = []).
  { apply filter_none_of. eapply Forall_impl; [| exact Hno].
    intros row Hrow. simpl in Hrow. apply Z.eqb_neq. exact Hrow. }
  assert (Hr : exists e, r = Err e).
  { destruct r as [[] | e]; [| exists e; reflexivity].
    apply UpdateWorkout_ok in H. destruct H as [_ [_ H]]. contradiction. }
  destruct Hr as [e ->].
  split; [eapply UpdateWorkout_err; exact H |].
  split; [exists e; reflexivity |].
  intros Hnf.
  destruct (no_fault_in_S _ _ Hnf) as [Hf1 Hn1].
  unfold UpdateWorkout, bind, Begin in H.
  rewrite (db_call_no_fault _ w Hf1) in H.
  unfold defer, bind in H.
  match type of H with
  | context [db_call (on_pending ?run) ?w1] =>
      specialize (Hn1 w1 eq_refl);
      destruct (no_fault_in_S _ _ Hn1) as [Hf2 Hn2];
      rewrite (db_call_no_fault (on_pending run) w1 Hf2) in H
  end.
  unfold on_pending, update_workout in H. simpl in H. rewrite Hfil in H.
  match type of H with
  | context [db_call ?run ?w2] =>
      specialize (Hn2 w2 eq_refl);
      destruct (no_fault_in_S _ _ Hn2) as [Hf3 _];
      rewrite (db_call_no_fault run w2 Hf3) in H
  end.
  simpl in H. inversion H. reflexivity.
Qed.

(** C8, at a concrete input: workout 9 is updated where only workout 1 is
    stored. *)
Lemma UpdateWorkout_not_found_witness :
  fst (UpdateWorkout Fixtures.absent Fixtures.stored) = Err ErrNoRows /\
  committed (snd (UpdateWorkout Fixtures.absent Fixtures.stored)) =
    Fixtures.stored_tables.
Proof.
  destruct (UpdateWorkout_not_found Fixtures.absent Fixtures.stored
              (fst (UpdateWorkout Fixtures.absent Fixtures.stored))
              (snd (UpdateWorkout Fixtures.absent Fixtures.stored)))
    as [Hc [_ Hn]].
  - repeat constructor. simpl. lia.
  - vm_compute. reflexivity.
  - split; [apply Hn; constructor | exact Hc].
Defined.

Lemma find_none_of {A} (p : A -> bool) (l : list A) :
  Forall (fun x => p x = false) l -> find p l = None.
Proof.
  induction 1 as [| x l Hx Hall IH]; simpl; [reflexivity |].
  rewrite Hx. exact IH.
Qed.

(** Every error GetWorkoutByID returns is the error of one of its calls
    and is not "no rows". *)
Lemma GetWorkoutByID_calls id w r w' :
  GetWorkoutByID id w = (r, w') ->
  exists l,
    log w' = log w ++ l /\
    match r with
    | Ok _ => True
    | Err e => In (Some e) l /\ e <> ErrNoRows
    end.
Proof.
  intros H. apply GetWorkoutByID_inv in H.
  destruct H as [_ [_ [l [Hl H]]]]. exists l. split; [exact Hl |].
  destruct r as [found | e]; [exact I | exact H].
Qed.

(** Absence is not an error: when no row of workouts has the id and the
    header query runs, GetWorkoutByID returns (nil, nil). *)
Lemma GetWorkoutByID_absent id w :
  Forall (fun row => w_id row <> id) (workouts (committed w)) ->
  next_fault w = None ->
  fst (GetWorkoutByID id w) = Ok None.
Proof.
  intros Hno Hf. unfold GetWorkoutByID. rewrite (db_call_no_fault _ w Hf).
  unfold on_committed, select_workout. simpl. rewrite find_none_of.
  - reflexivity.
  - eapply Forall_impl; [| exact Hno]. intros row Hrow. simpl in Hrow.
    apply Z.eqb_neq. exact Hrow.
Qed.

(** C7.  Workout 1 is stored with three entries; the fetching of its rows
    fails with a lost connection after the first row.  GetWorkoutByID
    returns the workout with that one entry and a nil error: a database
    error other than "no rows" has occurred, it is the last outcome in the
    log, and the caller is not told. *)
Theorem GetWorkoutByID_fetch_error_not_returned :
  exists got w',
    GetWorkoutByID 1 Fixtures.fetch_fails = (Ok (Some got), w') /\
    Entries got = [set_EntryID 1 Fixtures.squat] /\
    List.length (rows_of 1 (committed Fixtures.fetch_fails)) = 3%nat /\
    new_calls Fixtures.fetch_fails w' =
      [None; None; None; Some ErrConnDone].
Proof.
  destruct (GetWorkoutByID 1 Fixtures.fetch_fails) as [r w'] eqn:E.
  vm_compute in E. injection E as <- <-.
  eexists. eexists. split; [reflexivity |]. repeat split.
Qed.

Example GetWorkoutByID_absent_run :
  fst (GetWorkoutByID 9 Fixtures.stored) = Ok None.
Proof. vm_compute. reflexivity. Qed.

Example GetWorkoutByID_lost_connection :
  fst (GetWorkoutByID 1 Fixtures.second_call_fails) = Err ErrConnDone.
Proof. vm_compute. reflexivity. Qed.

Lemma find_updated_none workout start t :
  find (fun r => w_id r =? ID workout)
       (workouts (updated_tables workout start t)) = None ->
  filter (fun r => w_id r =? ID workout) (workouts t) = [].
Proof.
  unfold updated_tables. simpl.
  induction (workouts t) as [| x l IH]; simpl; [reflexivity |].
  assert (Hid : w_id (update_row (Title workout) (Description workout)
                        (DurationMinutes workout) (CaloriesBurned workout)
                        (ID workout) x) = w_id x).
  { unfold update_row. destruct (w_id x =? ID workout); reflexivity. }
  rewrite Hid. destruct (w_id x =? ID workout); [discriminate | exact IH].
Qed.

Lemma updated_row_found workout start t :
  filter (fun r => w_id r =? ID workout) (workouts t) <> [] ->
  exists row,
    find (fun r => w_id r =? ID workout)
         (workouts (updated_tables workout start t)) = Some row.
Proof.
  intros Hex.
  destruct (find (fun r => w_id r =? ID workout)
                 (workouts (updated_tables workout start t)))
    as [row |] eqn:E.
  - exists row. reflexivity.
  - apply find_updated_none in E. contradiction.
Qed.

(** C9.  The entries GetWorkoutByID returns are in ascending OrderIndex
    order, in every state and so after any sequence of CreateWorkout and
    UpdateWorkout calls; when no fault is scheduled it does return a stored
    workout, with all its entries in that order.  CreateWorkout and
    UpdateWorkout, which succeed when no fault is scheduled, append the rows
    of the entries given to the table in the order given. *)
Theorem GetWorkoutByID_entries_ascending :
  (forall w w1 id workout w2,
     writes_entries_star w w1 ->
     GetWorkoutByID id w1 = (Ok (Some workout), w2) ->
     StronglySorted entry_le (Entries workout)) /\
  (forall w id row,
     fault_free w ->
     find (fun r => w_id r =? id) (workouts (committed w)) = Some row ->
     exists got w',
       GetWorkoutByID id w = (Ok (Some got), w') /\
       StronglySorted entry_le (Entries got) /\
       Permutation (Entries got)
         (map scan_entry (rows_of id (committed w)))) /\
  (forall workout w,
     fault_free w ->
     exists created w',
       CreateWorkout workout w = (Ok created, w') /\
       workout_entries (committed w') =
       workout_entries (committed w) ++
       entry_rows (ID created) (workout_entries_id_seq w)
                  (Entries workout)) /\
  (forall workout w created w',
     CreateWorkout workout w = (Ok created, w') ->
     workout_entries (committed w') =
     workout_entries (committed w) ++
     entry_rows (ID created) (workout_entries_id_seq w) (Entries workout)) /\
  (forall workout w,
     fault_free w ->
     filter (fun r => w_id r =? ID workout) (workouts (committed w)) <> [] ->
     exists w',
       UpdateWorkout workout w = (Ok tt, w') /\
       workout_entries (committed w') =
       filter (fun r => negb (e_workout_id r =? ID workout))
              (workout_entries (committed w)) ++
       entry_rows (ID workout) (workout_entries_id_seq w)
                  (Entries workout)) /\
  (forall workout w w',
     UpdateWorkout workout w = (Ok tt, w') ->
     workout_entries (committed w') =
     filter (fun r => negb (e_workout_id r =? ID workout))
            (workout_entries (committed w)) ++
     entry_rows (ID workout) (workout_entries_id_seq w) (Entries workout)).
Proof.
  assert (HC : forall workout w created w',
     CreateWorkout workout w = (Ok created, w') ->
     workout_entries (committed w') =
     workout_entries (committed w) ++
     entry_rows (ID created) (workout_entries_id_seq w) (Entries workout)).
  { intros workout w created w' H. apply CreateWorkout_ok in H.
    destruct H as [-> [-> _]]. reflexivity. }
  assert (HU : forall workout w w',
     UpdateWorkout workout w = (Ok tt, w') ->
     workout_entries (committed w') =
     filter (fun r => negb (e_workout_id r =? ID workout))
            (workout_entries (committed w)) ++
     entry_rows (ID workout) (workout_entries_id_seq w) (Entries workout)).
  { intros workout w w' H. apply UpdateWorkout_ok in H.
    destruct H as [-> _]. reflexivity. }
  split; [| split; [| split; [| split; [| split]]]].
  - intros w w1 id workout w2 _ H. apply GetWorkoutByID_ok in H.
    destruct H as [_ [r [_ ->]]]. simpl. apply entries_of_sorted.
  - intros w id row Hff Hfind.
    destruct (GetWorkoutByID_fault_free id w row Hff Hfind)
      as [got [w' [HG [_ HN]]]].
    exists got, w'. split; [exact HG |].
    pose proof (GetWorkoutByID_clean _ _ _ _ HG HN) as Hall.
    rewrite Hall. split.
    + apply scan_entry_sorted. apply order_by_order_index_sorted.
    + apply Permutation_map. apply order_by_order_index_perm.
  - intros workout w Hff.
    destruct (CreateWorkout_fault_free workout w Hff)
      as [created [w' [H _]]].
    exists created, w'. split; [exact H | eapply HC; exact H].
  - exact HC.
  - intros workout w Hff Hex.
    destruct (UpdateWorkout_fault_free workout w Hff Hex) as [w' [H _]].
    exists w'. split; [exact H | eapply HU; exact H].
  - exact HU.
Qed.

(** C9, at a concrete input: the stored workout is updated with its entries
    given in descending OrderIndex order, which is the order of the rows
    inserted, and read back in ascending order. *)
Lemma GetWorkoutByID_entries_ascending_witness :
  (exists w1,
     UpdateWorkout Fixtures.descending Fixtures.stored = (Ok tt, w1) /\
     map e_order_index (workout_entries (committed w1)) = [2; 1; 0]) /\
  (exists got w2,
     GetWorkoutByID 1
       (snd (UpdateWorkout Fixtures.descending Fixtures.stored)) =
       (Ok (Some got), w2) /\
     StronglySorted entry_le (Entries got) /\
     Permutation (Entries got)
       (map scan_entry
          (rows_of 1
             (committed
                (snd (UpdateWorkout Fixtures.descending Fixtures.stored)))))).
Proof.
  destruct GetWorkoutByID_entries_ascending as [_ [Hread [_ [_ [Hupd _]]]]].
  split.
  - destruct (Hupd Fixtures.descending Fixtures.stored) as [w1 [H1 H2]].
    + split; [constructor | reflexivity].
    + vm_compute. discriminate.
    + exists w1. split; [exact H1 |]. rewrite H2. reflexivity.
  - apply (Hread (snd (UpdateWorkout Fixtures.descending Fixtures.stored)) 1
             (mkWorkoutRow 1 "Leg Day" "" 45 300 (Some 1))).
    + vm_compute. split; [constructor | reflexivity].
    + vm_compute. reflexivity.
Defined.

Example GetWorkoutByID_sorts_what_was_stored_unsorted :
  exists got w2,
    GetWorkoutByID 1 (snd (UpdateWorkout Fixtures.descending Fixtures.stored))
      = (Ok (Some got), w2) /\
    map OrderIndex (Entries got) = [0; 1; 2].
Proof.
  destruct (GetWorkoutByID 1
              (snd (UpdateWorkout Fixtures.descending Fixtures.stored)))
    as [r w2] eqn:E.
  vm_compute in E. injection E as <- <-.
  eexists. eexists. split; reflexivity.
Qed.

(** C5, as stated, fails: workout 1 is stored with three entries and updated
    with the two entries Lunge (OrderIndex 1), Squat (OrderIndex 0); the
    update succeeds and GetWorkoutByID returns Squat, Lunge with the
    identities 4 and 5 the database assigned, not the list given. *)
Lemma UpdateWorkout_retrieval_is_not_the_list_given :
  exists w1 got w2,
    UpdateWorkout Fixtures.reordered Fixtures.stored = (Ok tt, w1) /\
    GetWorkoutByID 1 w1 = (Ok (Some got), w2) /\
    map ExerciseName (Entries Fixtures.reordered) =
      ["Lunge"; "Squat"]%string /\
    map ExerciseName (Entries got) = ["Squat"; "Lunge"]%string /\
    map EntryID (Entries Fixtures.reordered) = [0; 0] /\
    map EntryID (Entries got) = [5; 4] /\
    Entries got <> Entries Fixtures.reordered.
Proof.
  destruct (UpdateWorkout Fixtures.reordered Fixtures.stored)
    as [r w1] eqn:E1.
  vm_compute in E1. injection E1 as <- <-.
  eexists. eexists. eexists. split; [reflexivity |].
  split; [vm_compute; reflexivity |].
  repeat split. discriminate.
Qed.

(** C5, amended.  With no fault scheduled, UpdateWorkout of a stored
    workout succeeds and a GetWorkoutByID that follows returns the workout
    with no call failing.  After a successful UpdateWorkout the entries
    table holds, for that workout, exactly the rows of the entries given,
    inserted in the order given; a GetWorkoutByID that then returns with no
    call and no fetch failing returns the workout with the header given and
    with those entries, each under the identity the database assigned, in
    ascending OrderIndex order, which is the order given when the list given
    is ascending in OrderIndex with no two equal. *)
Theorem UpdateWorkout_replaces_entries :
  forall workout w,
    (fault_free w ->
     filter (fun r => w_id r =? ID workout) (workouts (committed w)) <> [] ->
     exists w1 got w2,
       UpdateWorkout workout w = (Ok tt, w1) /\
       GetWorkoutByID (ID workout) w1 = (Ok (Some got), w2) /\
       Forall (fun o => o = None) (new_calls w1 w2)) /\
    (forall w1 found w2,
       UpdateWorkout workout w = (Ok tt, w1) ->
       GetWorkoutByID (ID workout) w1 = (Ok found, w2) ->
       Forall (fun o => o = None) (new_calls w1 w2) ->
       filter (fun r => e_workout_id r =? ID workout)
              (workout_entries (committed w1)) =
         entry_rows (ID workout) (workout_entries_id_seq w)
                    (Entries workout) /\
       exists got,
         found = Some got /\
         ID got = ID workout /\ Title got = Title workout /\
         Description got = Description workout /\
         DurationMinutes got = DurationMinutes workout /\
         CaloriesBurned got = CaloriesBurned workout /\
         Permutation (Entries got)
           (with_ids (workout_entries_id_seq w) (Entries workout)) /\
         StronglySorted entry_le (Entries got) /\
         (StronglySorted entry_lt (Entries workout) ->
          Entries got =
          with_ids (workout_entries_id_seq w) (Entries workout))).
Proof.
  intros workout w. split.
  - intros Hff Hex.
    destruct (UpdateWorkout_fault_free workout w Hff Hex) as [w1 [HU Hff1]].
    pose proof (UpdateWorkout_ok _ _ _ HU) as [Hc _].
    destruct (updated_row_found workout (workout_entries_id_seq w)
                (committed w) Hex) as [row Hrow].
    rewrite <- Hc in Hrow.
    destruct (GetWorkoutByID_fault_free (ID workout) w1 row Hff1 Hrow)
      as [got [w2 [HG [_ HN]]]].
    exists w1, got, w2. repeat split; assumption.
  - intros w1 found w2 HU HG HN.
    apply UpdateWorkout_ok in HU. destruct HU as [Hc [_ Hex]].
    assert (Hrows : filter (fun r => e_workout_id r =? ID workout)
                           (workout_entries (committed w1)) =
                    entry_rows (ID workout) (workout_entries_id_seq w)
                               (Entries workout)).
    { rewrite Hc. apply updated_tables_entries. }
    split; [exact Hrows |].
    destruct (updated_row_found workout (workout_entries_id_seq w)
                (committed w) Hex) as [row Hrow].
    pose proof Hrow as Hhead. apply updated_tables_header in Hhead.
    destruct Hhead as [Hid [Ht [Hd [Hm Hcal]]]].
    rewrite <- Hc in Hrow.
    destruct (read_inserted _ _ _ _ _ _ _ HG HN Hrow Hrows)
      as [got [-> [Hgot [Hp [Hs Heq]]]]].
    exists got. split; [reflexivity |].
    rewrite Hgot. simpl. repeat split; assumption.
Qed.

(** C5 amended, at a concrete input: the stored workout, which has three
    entries, is updated with the single entry Squat. *)
Lemma UpdateWorkout_replaces_entries_witness :
  exists got,
    fst (GetWorkoutByID 1 (snd (UpdateWorkout Fixtures.shorter Fixtures.stored)))
      = Ok (Some got) /\
    CaloriesBurned got = 320 /\
    Entries got = [set_EntryID 4 Fixtures.squat].
Proof.
  destruct (UpdateWorkout_replaces_entries Fixtures.shorter Fixtures.stored)
    as [_ H].
  destruct (H (snd (UpdateWorkout Fixtures.shorter Fixtures.stored))
              (Some (mkWorkout 1 "Leg Day" "" 45 320 0
                       [set_EntryID 4 Fixtures.squat]))
              (snd (GetWorkoutByID 1
                      (snd (UpdateWorkout Fixtures.shorter Fixtures.stored)))))
    as [_ [got [Hf [_ [_ [_ [_ [Hc [_ [_ He]]]]]]]]]].
  - vm_compute. reflexivity.
  - vm_compute. reflexivity.
  - vm_compute. repeat constructor.
  - exists got. split; [| split].
    + rewrite <- Hf. vm_compute. reflexivity.
    + exact Hc.
    + apply He. repeat constructor.
Defined.

(** *** The handlers *)

Lemma GetWorkoutByID_committed id w r w' :
  GetWorkoutByID id w = (r, w') -> committed w' = committed w.
Proof. intros H. apply GetWorkoutByID_same in H. apply H. Qed.

Lemma select_owner_readonly id t : snd (select_owner id t) = t.
Proof.
  unfold select_owner. destruct (find _ _) as [r |]; [| reflexivity].
  destruct (w_user_id r); reflexivity.
Qed.

Lemma GetWorkoutOwner_inv id w r w' :
  GetWorkoutOwner id w = (r, w') ->
  committed w' = committed w /\
  (forall owner, r = Ok owner ->
                 fst (select_owner id (committed w)) = Ok owner).
Proof.
  unfold GetWorkoutOwner. intros H.
  apply pool_call_inv in H; [| apply select_owner_readonly].
  destruct H as [Hc [Hok _]]. split; assumption.
Qed.

(** The update handler: a user who is not the owner changes nothing and is
    never answered 200. *)
Lemma HandleUpdateWorkoutByID_non_owner r w resp w' id uid owner :
  ReadIDParam r = Some id ->
  GetUser r = User uid ->
  fst (select_owner id (committed w)) = Ok owner ->
  owner <> uid ->
  HandleUpdateWorkoutByID r w = (resp, w') ->
  committed w' = committed w /\ response_status resp <> StatusOK.
Proof.
  intros Hid Hu Hown Hne H. unfold HandleUpdateWorkoutByID in H.
  rewrite Hid, Hu in H.
  destruct (GetWorkoutByID id w) as [r1 w1] eqn:E1.
  apply GetWorkoutByID_committed in E1.
  destruct r1 as [[existing |] | e];
    try (inversion H; subst; split; [exact E1 | discriminate]).
  destruct (Decode r) as [req |];
    try (inversion H; subst; split; [exact E1 | discriminate]).
  destruct (GetWorkoutOwner id w1) as [r2 w2] eqn:E2.
  apply GetWorkoutOwner_inv in E2. destruct E2 as [Hc2 Hok].
  rewrite E1 in Hok.
  destruct r2 as [owner' | e].
  - specialize (Hok owner' eq_refl). rewrite Hown in Hok.
    inversion Hok; subst owner'.
    destruct (Z.eqb_spec owner uid) as [Heq | _]; [contradiction |].
    simpl in H. inversion H; subst.
    split; [congruence | discriminate].
  - destruct e; inversion H; subst;
      (split; [congruence | discriminate]).
Qed.

Example HandleUpdateWorkoutByID_non_owner_forbidden :
  HandleUpdateWorkoutByID Fixtures.update_by_other Fixtures.stored =
  ([WriteJSON StatusForbidden
      (env_error "you are not authorized to update this workout")],
   mkWorld Fixtures.stored_tables None 2 4 []
     [None; None; None; None; None; None] (fun _ _ => false) None).
Proof. vm_compute. reflexivity. Qed.

(** C1.  Workout 1 is stored with three entries and owned by user 1.  User 2
    asks to delete it: the handler writes the forbidden response, goes on to
    DeleteWorkout, writes a second response announcing the deletion, and the
    workout and its entries are gone. *)
Theorem HandleDeleteWorkoutByID_forbidden_still_deletes :
  exists w',
    HandleDeleteWorkoutByID Fixtures.delete_by_other Fixtures.stored =
    ([WriteJSON StatusForbidden
        (env_error "you are not authorized to update this workout");
      WriteJSON StatusOK (env_workout_id 1)], w') /\
    committed Fixtures.stored = Fixtures.stored_tables /\
    committed w' = Fixtures.empty_tables.
Proof.
  destruct (HandleDeleteWorkoutByID Fixtures.delete_by_other Fixtures.stored)
    as [resp w'] eqn:E.
  vm_compute in E. injection E as <- <-.
  eexists. split; [reflexivity |]. split; reflexivity.
Qed.

(** C6.  In the update handler, with [existing] the workout loaded and
    [req] the decoded body: each of title, description, duration_minutes,
    calories_burned and entries of the merged workout is the value of the
    body when the body has the field and the loaded value when it has not,
    also when the value of the body is zero or empty; ID is the loaded one.
    When the handler answers 200, the body of the answer is the merged
    workout and the merged workout is what UpdateWorkout committed. *)
Theorem HandleUpdateWorkoutByID_patches_present_fields :
  forall r w id existing w1 req resp w',
    ReadIDParam r = Some id ->
    GetWorkoutByID id w = (Ok (Some existing), w1) ->
    Decode r = Some req ->
    HandleUpdateWorkoutByID r w = (resp, w') ->
    let merged := applyUpdate req existing in
    Title merged =
      match req_Title req with Some v => v | None => Title existing end /\
    Description merged =
      match req_Description req with
      | Some v => v
      | None => Description existing
      end /\
    DurationMinutes merged =
      match req_DurationMinutes req with
      | Some v => v
      | None => DurationMinutes existing
      end /\
    CaloriesBurned merged =
      match req_CaloriesBurned req with
      | Some v => v
      | None => CaloriesBurned existing
      end /\
    Entries merged =
      match req_Entries req with Some v => v | None => Entries existing end /\
    ID merged = ID existing /\
    (forall body,
       In (WriteJSON StatusOK body) resp ->
       body = env_workout (Some merged) /\
       exists start, committed w' = updated_tables merged start (committed w)).
Proof.
  intros r w id existing w1 req resp w' Hid HG Hd H merged.
  assert (Hfields : forall q e,
    Title (applyUpdate q e) =
      match req_Title q with Some v => v | None => Title e end /\
    Description (applyUpdate q e) =
      match req_Description q with Some v => v | None => Description e end /\
    DurationMinutes (applyUpdate q e) =
      match req_DurationMinutes q with
      | Some v => v
      | None => DurationMinutes e
      end /\
    CaloriesBurned (applyUpdate q e) =
      match req_CaloriesBurned q with
      | Some v => v
      | None => CaloriesBurned e
      end /\
    Entries (applyUpdate q e) =
      match req_Entries q with Some v => v | None => Entries e end /\
    ID (applyUpdate q e) = ID e).
  { intros [t d m c es] e. unfold applyUpdate. simpl.
    destruct t, d, m, c, es; simpl; repeat split. }
  destruct (Hfields req existing) as [H1 [H2 [H3 [H4 [H5 H6]]]]].
  repeat (split; [assumption |]).
  intros body Hin. unfold HandleUpdateWorkoutByID in H.
  rewrite Hid, HG, Hd in H. fold merged in H.
  assert (Hc1 : committed w1 = committed w)
    by (eapply GetWorkoutByID_committed; exact HG).
  destruct (GetUser r) as [| | uid];
    try (inversion H; subst; destruct Hin as [Hin | []]; discriminate Hin).
  destruct (GetWorkoutOwner id w1) as [r2 w2] eqn:E2.
  apply GetWorkoutOwner_inv in E2. destruct E2 as [Hc2 _].
  destruct r2 as [owner | e].
  - destruct (negb (owner =? uid));
      [inversion H; subst; destruct Hin as [Hin | []]; discriminate Hin |].
    destruct (UpdateWorkout merged w2) as [[[] | e] w3] eqn:E3;
      inversion H; subst; destruct Hin as [Hin | []];
      try discriminate Hin.
    inversion Hin; subst. split; [reflexivity |].
    apply UpdateWorkout_ok in E3. destruct E3 as [Hc3 _].
    exists (workout_entries_id_seq w2). rewrite Hc3, Hc2, Hc1. reflexivity.
  - destruct e; inversion H; subst; destruct Hin as [Hin | []];
      discriminate Hin.
Qed.

(** C6, at the specification's example: the owner sends only
    calories_burned; the answer is 200 with the loaded title, description,
    duration and entries and the new calories. *)
Lemma HandleUpdateWorkoutByID_patches_present_fields_witness :
  fst (HandleUpdateWorkoutByID Fixtures.update_by_owner Fixtures.stored) =
    [WriteJSON StatusOK
       (env_workout
          (Some (applyUpdate Fixtures.calories_only
                   Fixtures.stored_workout)))] /\
  Title (applyUpdate Fixtures.calories_only Fixtures.stored_workout) =
    Title Fixtures.stored_workout /\
  Description (applyUpdate Fixtures.calories_only Fixtures.stored_workout) =
    Description Fixtures.stored_workout /\
  DurationMinutes (applyUpdate Fixtures.calories_only Fixtures.stored_workout)
    = DurationMinutes Fixtures.stored_workout /\
  Entries (applyUpdate Fixtures.calories_only Fixtures.stored_workout) =
    Entries Fixtures.stored_workout /\
  CaloriesBurned (applyUpdate Fixtures.calories_only Fixtures.stored_workout)
    = 320.
Proof.
  destruct (HandleUpdateWorkoutByID_patches_present_fields
              Fixtures.update_by_owner Fixtures.stored 1
              Fixtures.stored_workout
              (snd (GetWorkoutByID 1 Fixtures.stored))
              Fixtures.calories_only
              (fst (HandleUpdateWorkoutByID Fixtures.update_by_owner
                      Fixtures.stored))
              (snd (HandleUpdateWorkoutByID Fixtures.update_by_owner
                      Fixtures.stored)))
    as [Ht [Hd [Hm [Hc [He [_ Hbody]]]]]].
  - reflexivity.
  - vm_compute. reflexivity.
  - reflexivity.
  - vm_compute. reflexivity.
  - split; [vm_compute; reflexivity |].
    repeat split; assumption.
Defined.

(** ** Further properties of the store *)

(** Two reads of the same id that return without error agree when the
    header row they find, the rows they select and the choices of the
    engine agree. *)
Lemma GetWorkoutByID_determined id wa fa wa' wb fb wb' :
  GetWorkoutByID id wa = (Ok fa, wa') ->
  GetWorkoutByID id wb = (Ok fb, wb') ->
  find (fun r => w_id r =? id) (workouts (committed wa)) =
  find (fun r => w_id r =? id) (workouts (committed wb)) ->
  filter (fun r => e_workout_id r =? id) (workout_entries (committed wa)) =
  filter (fun r => e_workout_id r =? id) (workout_entries (committed wb)) ->
  tie_before wa = tie_before wb ->
  fetch_fault wa = fetch_fault wb ->
  fa = fb.
Proof.
  intros Ha Hb Hf He Ht Hff.
  apply GetWorkoutByID_ok in Ha. destruct Ha as [_ Ha].
  apply GetWorkoutByID_ok in Hb. destruct Hb as [_ Hb].
  unfold entries_of, select_entries in *.
  rewrite He, Hf, Ht, Hff in Ha.
  destruct fa as [a |], fb as [b |].
  - destruct Ha as [ra [Hra ->]]. destruct Hb as [rb [Hrb ->]].
    rewrite Hra in Hrb. inversion Hrb; subst. reflexivity.
  - destruct Ha as [ra [Hra _]]. congruence.
  - destruct Hb as [rb [Hrb _]]. congruence.
  - reflexivity.
Qed.

Lemma keeps_engine_ret {A} (a : A) : keeps_engine (ret a).
Proof. intros w r w' H. inversion H; subst. split; reflexivity. Qed.

Lemma keeps_engine_bind {A B} (m : M A) (k : A -> M B) :
  keeps_engine m -> (forall a, keeps_engine (k a)) -> keeps_engine (bind m k).
Proof.
  intros Hm Hk w r w' H. apply bind_inv in H.
  destruct H as [[e [H _]] | [a [w1 [H1 H2]]]].
  - apply Hm in H. exact H.
  - apply Hm in H1. apply Hk in H2. destruct H1, H2. split; congruence.
Qed.

Lemma keeps_engine_db_call {A} (run : World -> result A * World) :
  (forall w, tie_before (snd (run w)) = tie_before w /\
             fetch_fault (snd (run w)) = fetch_fault w) ->
  keeps_engine (db_call run).
Proof.
  intros Hrun w r w' H. apply db_call_inv in H.
  destruct H as [[f [_ [_ ->]]] | [_ [w1 [H ->]]]].
  - split; reflexivity.
  - specialize (Hrun (pop_script w)). rewrite H in Hrun. simpl in *.
    exact Hrun.
Qed.

Lemma keeps_engine_tx_call {A}
    (run : Tables -> World -> A * Tables * World) :
  (forall t w, tie_before (snd (run t w)) = tie_before w /\
               fetch_fault (snd (run t w)) = fetch_fault w) ->
  keeps_engine (db_call (on_pending run)).
Proof.
  intros Hrun. apply keeps_engine_db_call. intros w. unfold on_pending.
  destruct (pending w) as [t |]; simpl; [| split; reflexivity].
  specialize (Hrun t w). destruct (run t w) as [[a t1] w1]. simpl in *.
  exact Hrun.
Qed.

Lemma keeps_engine_Commit : keeps_engine Commit.
Proof.
  apply keeps_engine_db_call. intros w.
  destruct (pending w); simpl; split; reflexivity.
Qed.

Lemma keeps_engine_update_entries workoutID entries :
  keeps_engine (update_entries workoutID entries).
Proof.
  induction entries as [| e rest IH]; simpl.
  - apply keeps_engine_ret.
  - apply keeps_engine_bind; [| intros _; exact IH].
    apply keeps_engine_tx_call. intros t w. simpl. split; reflexivity.
Qed.

Lemma keeps_engine_replace_err {A} (m : M A) e :
  keeps_engine m -> keeps_engine (replace_err m e).
Proof.
  intros Hm w r w' H. unfold replace_err in H.
  destruct (m w) as [[a | e0] w1] eqn:E; inversion H; subst;
    apply Hm in E; exact E.
Qed.

Lemma keeps_engine_defer_Rollback {A} (m : M A) :
  keeps_engine m -> keeps_engine (defer Rollback m).
Proof.
  intros Hm w r w' H. unfold defer in H.
  destruct (m w) as [r1 w1] eqn:E. inversion H; subst.
  apply Hm in E. unfold Rollback. destruct (pending w1); simpl; exact E.
Qed.

Lemma keeps_engine_CreateWorkout workout :
  keeps_engine (CreateWorkout workout).
Proof.
  unfold CreateWorkout. apply keeps_engine_bind.
  - apply keeps_engine_db_call. intros w. simpl. split; reflexivity.
  - intros _. apply keeps_engine_defer_Rollback. apply keeps_engine_bind.
    + apply keeps_engine_tx_call. intros t w. simpl. split; reflexivity.
    + intros id. apply keeps_engine_bind.
      * rewrite create_entries_update_entries.
        apply keeps_engine_update_entries.
      * intros _. apply keeps_engine_bind;
          [| intros _; apply keeps_engine_ret].
        apply keeps_engine_replace_err. apply keeps_engine_Commit.
Qed.

Lemma keeps_engine_UpdateWorkout workout :
  keeps_engine (UpdateWorkout workout).
Proof.
  unfold UpdateWorkout. apply keeps_engine_bind.
  - apply keeps_engine_db_call. intros w. simpl. split; reflexivity.
  - intros _. apply keeps_engine_defer_Rollback. apply keeps_engine_bind.
    + apply keeps_engine_tx_call. intros t w. simpl. split; reflexivity.
    + intros n. apply keeps_engine_bind.
      * apply keeps_engine_db_call. intros w. simpl. split; reflexivity.
      * intros k. destruct (k =? 0).
        -- intros w r w' H. inversion H; subst. split; reflexivity.
        -- apply keeps_engine_bind;
             [apply keeps_engine_tx_call; intros t w; simpl;
              split; reflexivity |].
           intros _. apply keeps_engine_bind;
             [apply keeps_engine_update_entries
             | intros _; apply keeps_engine_Commit].
Qed.

Lemma find_app_last {A} (p : A -> bool) (l : list A) (x : A) :
  find p (l ++ [x]) =
  match find p l with
  | Some y => Some y
  | None => if p x then Some x else None
  end.
Proof.
  induction l as [| y l IH]; simpl; [reflexivity |].
  destruct (p y); [reflexivity | exact IH].
Qed.

Lemma filter_entry_rows_other id other start entries :
  other <> id ->
  filter (fun r => e_workout_id r =? other) (entry_rows id start entries) = [].
Proof.
  intros Hne. revert start.
  induction entries as [| e rest IH]; intros start; simpl; [reflexivity |].
  destruct (Z.eqb_spec id other) as [Heq | _]; [congruence | apply IH].
Qed.

Lemma find_update_row_other workout id (l : list WorkoutRow) :
  id <> ID workout ->
  find (fun r => w_id r =? id)
       (map (update_row (Title workout) (Description workout)
               (DurationMinutes workout) (CaloriesBurned workout)
               (ID workout)) l) =
  find (fun r => w_id r =? id) l.
Proof.
  intros Hne. induction l as [| x l IH]; simpl; [reflexivity |].
  rewrite IH. unfold update_row.
  destruct (Z.eqb_spec (w_id x) (ID workout)) as [Heq | Hd]; simpl;
    [| reflexivity].
  destruct (Z.eqb_spec (w_id x) id) as [Heq' | _]; [congruence | reflexivity].
Qed.

Lemma filter_other_after_delete id other (l : list EntryRow) :
  other <> id ->
  filter (fun r => e_workout_id r =? other)
         (filter (fun r => negb (e_workout_id r =? id)) l) =
  filter (fun r => e_workout_id r =? other) l.
Proof.
  intros Hne. induction l as [| x l IH]; simpl; [reflexivity |].
  destruct (Z.eqb_spec (e_workout_id x) id) as [Heq | Hd]; simpl.
  - destruct (Z.eqb_spec (e_workout_id x) other) as [Heq' | _];
      [congruence | exact IH].
  - rewrite IH. reflexivity.
Qed.

Lemma owners_update_row workout (l : list WorkoutRow) :
  map (fun r => (w_id r, w_user_id r))
      (map (update_row (Title workout) (Description workout)
              (DurationMinutes workout) (CaloriesBurned workout)
              (ID workout)) l) =
  map (fun r => (w_id r, w_user_id r)) l.
Proof.
  induction l as [| x l IH]; simpl; [reflexivity |].
  rewrite IH. unfold update_row.
  destruct (w_id x =? ID workout); reflexivity.
Qed.

Lemma filter_nonempty_In {A} (p : A -> bool) (l : list A) :
  filter p l <> [] -> exists x, In x l /\ p x = true.
Proof.
  induction l as [| x l IH]; simpl; [congruence |].
  destruct (p x) eqn:E.
  - intros _. exists x. split; [left; reflexivity | exact E].
  - intros H. destruct (IH H) as [y [Hy Hp]]. exists y.
    split; [right; exact Hy | exact Hp].
Qed.

Lemma erase_with_ids start entries :
  map (set_EntryID 0) (with_ids start entries) =
  map (set_EntryID 0) entries.
Proof.
  revert start. induction entries as [| e rest IH]; intros start; simpl;
    [reflexivity |].
  rewrite IH. reflexivity.
Qed.

(** X1.  Round trip of CreateWorkout and GetWorkoutByID, when the sequence
    is ahead of the stored identities.  With no fault scheduled the workout
    is created and then read under the ID returned, no call failing.  A
    workout created without error is found under the ID returned: a
    GetWorkoutByID that returns with no call and no fetch failing returns it
    with the header given and the entries given, each under the identity
    the database assigned, in ascending OrderIndex order, which is the order
    given when that is ascending with no two equal. *)
Theorem CreateWorkout_then_GetWorkoutByID :
  forall workout w,
    sequence_ahead w ->
    (fault_free w ->
     exists created w1 got w2,
       CreateWorkout workout w = (Ok created, w1) /\
       GetWorkoutByID (ID created) w1 = (Ok (Some got), w2) /\
       Forall (fun o => o = None) (new_calls w1 w2)) /\
    (forall created w1 found w2,
       CreateWorkout workout w = (Ok created, w1) ->
       GetWorkoutByID (ID created) w1 = (Ok found, w2) ->
       Forall (fun o => o = None) (new_calls w1 w2) ->
       exists got,
         found = Some got /\
         ID got = ID created /\
         same_header got workout /\
         Permutation (Entries got)
           (with_ids (workout_entries_id_seq w) (Entries workout)) /\
         StronglySorted entry_le (Entries got) /\
         (StronglySorted entry_lt (Entries workout) ->
          Entries got =
          with_ids (workout_entries_id_seq w) (Entries workout))).
Proof.
  intros workout w [Hw He].
  assert (Hread : forall created w1,
    CreateWorkout workout w = (Ok created, w1) ->
    ID created = workouts_id_seq w /\
    find (fun r => w_id r =? workouts_id_seq w) (workouts (committed w1)) =
      Some (workout_row (workouts_id_seq w) workout None) /\
    filter (fun r => e_workout_id r =? workouts_id_seq w)
           (workout_entries (committed w1)) =
      entry_rows (workouts_id_seq w) (workout_entries_id_seq w)
                 (Entries workout)).
  { intros created w1 HC.
    apply CreateWorkout_ok in HC. destruct HC as [-> [Hc _]].
    split; [reflexivity |]. rewrite Hc. simpl. split.
    - rewrite find_app_last, find_none_of.
      + simpl. rewrite Z.eqb_refl. reflexivity.
      + eapply Forall_impl; [| exact Hw]. intros r Hr. simpl in Hr.
        apply Z.eqb_neq. lia.
    - rewrite filter_app, filter_entry_rows, filter_none_of.
      + reflexivity.
      + eapply Forall_impl; [| exact He]. intros r Hr. simpl in Hr.
        apply Z.eqb_neq. lia. }
  split.
  - intros Hff.
    destruct (CreateWorkout_fault_free workout w Hff)
      as [created [w1 [HC Hff1]]].
    destruct (Hread created w1 HC) as [Hid [Hfind _]].
    destruct (GetWorkoutByID_fault_free (workouts_id_seq w) w1 _ Hff1 Hfind)
      as [got [w2 [HG [_ HN]]]].
    exists created, w1, got, w2. rewrite Hid. repeat split; assumption.
  - intros created w1 found w2 HC HG HN.
    destruct (Hread created w1 HC) as [Hid [Hfind Hrows]].
    rewrite Hid in *.
    destruct (read_inserted _ _ _ _ _ _ _ HG HN Hfind Hrows)
      as [got [-> [Hgot [Hp [Hs Heq]]]]].
    exists got. split; [reflexivity |].
    rewrite Hgot. simpl. repeat split; assumption.
Qed.

(** X1, at a concrete input: the specification's example is created in the
    stored database and read back under the ID returned. *)
Lemma CreateWorkout_then_GetWorkoutByID_witness :
  exists got,
    fst (GetWorkoutByID 2
           (snd (CreateWorkout Fixtures.leg_day Fixtures.stored))) =
      Ok (Some got) /\
    ID got = 2 /\
    Title got = Title Fixtures.leg_day /\
    Entries got = [set_EntryID 4 Fixtures.squat].
Proof.
  destruct (CreateWorkout_then_GetWorkoutByID Fixtures.leg_day
              Fixtures.stored) as [_ H].
  { split; repeat constructor. }
  destruct (H (set_ID 2 Fixtures.leg_day)
              (snd (CreateWorkout Fixtures.leg_day Fixtures.stored))
              (Some (mkWorkout 2 "Leg Day" "" 45 300 0
                       [set_EntryID 4 Fixtures.squat]))
              (snd (GetWorkoutByID 2
                      (snd (CreateWorkout Fixtures.leg_day Fixtures.stored)))))
    as [got [Hf [Hid [[Ht _] [_ [_ He]]]]]].
  - vm_compute. reflexivity.
  - vm_compute. reflexivity.
  - vm_compute. repeat constructor.
  - exists got. split; [rewrite <- Hf; vm_compute; reflexivity |].
    split; [exact Hid |]. split; [exact Ht |].
    apply He. repeat constructor.
Defined.

(** X2.  CreateWorkout, whether it succeeds or fails, does not change what
    GetWorkoutByID returns for any id other than the one it returns. *)
Theorem CreateWorkout_leaves_other_workouts :
  forall workout w r w1 id before wa after wb,
    CreateWorkout workout w = (r, w1) ->
    (forall created, r = Ok created -> id <> ID created) ->
    GetWorkoutByID id w = (Ok before, wa) ->
    GetWorkoutByID id w1 = (Ok after, wb) ->
    after = before.
Proof.
  intros workout w r w1 id before wa after wb HC Hid Hb Ha.
  pose proof (keeps_engine_CreateWorkout workout _ _ _ HC) as [Ht Hff].
  eapply GetWorkoutByID_determined;
    [exact Ha | exact Hb | | | exact Ht | exact Hff].
  - destruct r as [created | e].
    + specialize (Hid created eq_refl).
      apply CreateWorkout_ok in HC. destruct HC as [-> [-> _]]. simpl in *.
      rewrite find_app_last.
      destruct (find (fun r => w_id r =? id) (workouts (committed w)));
        [reflexivity |].
      simpl. destruct (Z.eqb_spec (workouts_id_seq w) id);
        [congruence | reflexivity].
    + apply CreateWorkout_err_committed in HC. rewrite HC. reflexivity.
  - destruct r as [created | e].
    + specialize (Hid created eq_refl).
      apply CreateWorkout_ok in HC. destruct HC as [-> [-> _]]. simpl in *.
      rewrite filter_app, filter_entry_rows_other, app_nil_r;
        [reflexivity | exact Hid].
    + apply CreateWorkout_err_committed in HC. rewrite HC. reflexivity.
Qed.

(** X2, at a concrete input: workout 1 reads the same before and after the
    specification's example is created beside it. *)
Lemma CreateWorkout_leaves_other_workouts_witness :
  exists before after,
    fst (GetWorkoutByID 1 Fixtures.stored) = Ok before /\
    fst (GetWorkoutByID 1
           (snd (CreateWorkout Fixtures.leg_day Fixtures.stored))) =
      Ok after /\
    before = Some Fixtures.stored_workout /\
    after = before.
Proof.
  eexists. eexists. split; [vm_compute; reflexivity |].
  split; [vm_compute; reflexivity |]. split; [reflexivity |].
  apply (CreateWorkout_leaves_other_workouts Fixtures.leg_day
           Fixtures.stored
           (fst (CreateWorkout Fixtures.leg_day Fixtures.stored))
           (snd (CreateWorkout Fixtures.leg_day Fixtures.stored))
           1 _ (snd (GetWorkoutByID 1 Fixtures.stored)) _
           (snd (GetWorkoutByID 1
                   (snd (CreateWorkout Fixtures.leg_day Fixtures.stored)))));
    try (vm_compute; reflexivity).
  intros created H. vm_compute in H. injection H as <-. discriminate.
Defined.

(** X3.  UpdateWorkout, whether it succeeds or fails, does not change what
    GetWorkoutByID returns for any id other than the workout's. *)
Theorem UpdateWorkout_leaves_other_workouts :
  forall workout w r w1 id before wa after wb,
    UpdateWorkout workout w = (r, w1) ->
    id <> ID workout ->
    GetWorkoutByID id w = (Ok before, wa) ->
    GetWorkoutByID id w1 = (Ok after, wb) ->
    after = before.
Proof.
  intros workout w r w1 id before wa after wb HU Hid Hb Ha.
  pose proof (keeps_engine_UpdateWorkout workout _ _ _ HU) as [Ht Hff].
  eapply GetWorkoutByID_determined;
    [exact Ha | exact Hb | | | exact Ht | exact Hff];
    destruct r as [[] | e];
    try (apply UpdateWorkout_err in HU; rewrite HU; reflexivity);
    apply UpdateWorkout_ok in HU; destruct HU as [-> _];
    unfold updated_tables; simpl.
  - apply find_update_row_other. exact Hid.
  - rewrite filter_app, filter_entry_rows_other, app_nil_r; [| exact Hid].
    apply filter_other_after_delete. exact Hid.
Qed.

(** X3, at a concrete input: a second workout is created beside workout 1;
    it reads the same before and after workout 1 is given a single entry. *)
Lemma UpdateWorkout_leaves_other_workouts_witness :
  exists before after,
    fst (GetWorkoutByID 2 Fixtures.two_stored) = Ok (Some before) /\
    fst (GetWorkoutByID 2
           (snd (UpdateWorkout Fixtures.shorter Fixtures.two_stored))) =
      Ok after /\
    after = Some before.
Proof.
  eexists. eexists. split; [vm_compute; reflexivity |].
  split; [vm_compute; reflexivity |].
  apply (UpdateWorkout_leaves_other_workouts Fixtures.shorter
           Fixtures.two_stored
           (fst (UpdateWorkout Fixtures.shorter Fixtures.two_stored))
           (snd (UpdateWorkout Fixtures.shorter Fixtures.two_stored))
           2 _ (snd (GetWorkoutByID 2 Fixtures.two_stored)) _
           (snd (GetWorkoutByID 2
                   (snd (UpdateWorkout Fixtures.shorter
                           Fixtures.two_stored)))));
    try (vm_compute; reflexivity).
  discriminate.
Defined.

(** X4.  UpdateWorkout, whatever it returns, neither adds nor removes a
    workout and leaves the owner of every workout as it was. *)
Theorem UpdateWorkout_keeps_owners :
  forall workout w,
    owners (committed (snd (UpdateWorkout workout w))) = owners (committed w).
Proof.
  intros workout w.
  destruct (UpdateWorkout workout w) as [[[] | e] w1] eqn:E; simpl.
  - apply UpdateWorkout_ok in E. destruct E as [-> _].
    unfold owners, updated_tables. simpl. apply owners_update_row.
  - apply UpdateWorkout_err in E. rewrite E. reflexivity.
Qed.

(** The calls of UpdateWorkout against what it returns: nil only when no
    call failed; sql.ErrNoRows of its own only when no call failed and no
    row has the ID; any other error is the error of a call. *)
Lemma UpdateWorkout_calls workout w r w' :
  UpdateWorkout workout w = (r, w') ->
  exists l,
    log w' = log w ++ l /\
    match r with
    | Ok _ => Forall (fun o => o = None) l
    | Err e =>
        In (Some e) l \/
        (e = ErrNoRows /\ Forall (fun o => o = None) l /\
         filter (fun row => w_id row =? ID workout)
                (workouts (committed w)) = [])
    end.
Proof.
  unfold UpdateWorkout. intros H.
  apply bind_inv in H. destruct H as [[e [H ->]] | [[] [w1 [HB H]]]].
  - apply faithful_Begin in H. destruct H as [l [E [F _]]]. exists l.
    split; [exact E | left; exact F].
  - pose proof (Begin_inv _ _ _ HB) as [_ HB'].
    destruct (HB' eq_refl) as [Hp1 _]. clear HB'.
    apply faithful_Begin in HB. destruct HB as [l1 [E1 F1]]. simpl in F1.
    unfold defer in H.
    match type of H with
    | (let (_, _) := ?body w1 in _) = _ =>
        destruct (body w1) as [r1 w2] eqn:E
    end.
    inversion H; subst r1 w'. clear H.
    destruct (Rollback_inv w2) as [_ [_ Hl]]. rewrite Hl.
    apply bind_inv in E. destruct E as [[e [HU ->]] | [n [w3 [HU E]]]].
    { apply faithful_tx_call in HU; [| reflexivity].
      destruct HU as [l2 [E2 [F2 _]]]. exists (l1 ++ l2).
      split; [rewrite E2, E1, app_assoc; reflexivity |].
      left. apply in_or_app. right. exact F2. }
    pose proof (tx_call_ok _ _ _ _ HU) as [t [t1 [w4 [Hp [Hrun _]]]]].
    rewrite Hp1 in Hp. inversion Hp; subst t. clear Hp.
    unfold update_workout in Hrun. inversion Hrun; subst n. clear Hrun.
    apply faithful_tx_call in HU; [| reflexivity].
    destruct HU as [l2 [E2 F2]]. simpl in F2.
    apply bind_inv in E. destruct E as [[e [HR ->]] | [k [w5 [HR E]]]].
    { apply faithful_db_call in HR;
        [| intros; reflexivity | intros; simpl; discriminate].
      destruct HR as [l3 [E3 [F3 _]]]. exists (l1 ++ l2 ++ l3).
      split; [rewrite E3, E2, E1, !app_assoc; reflexivity |].
      left. apply in_or_app. right. apply in_or_app. right. exact F3. }
    assert (Hk : k = Z.of_nat (List.length
                   (filter (fun r => w_id r =? ID workout)
                           (workouts (committed w))))).
    { apply db_call_inv in HR.
      destruct HR as [[f [_ [HR _]]] | [_ [w6 [HR _]]]];
        [discriminate HR | inversion HR; reflexivity]. }
    apply faithful_db_call in HR;
      [| intros; reflexivity | intros; simpl; discriminate].
    destruct HR as [l3 [E3 F3]]. simpl in F3.
    destruct (Z.eqb_spec k 0) as [Hz | Hnz].
    { inversion E; subst r w2. exists (l1 ++ l2 ++ l3).
      split; [rewrite E3, E2, E1, !app_assoc; reflexivity |].
      right. split; [reflexivity |].
      split; [repeat (apply Forall_app; split); assumption |].
      destruct (filter (fun r => w_id r =? ID workout)
                       (workouts (committed w))) eqn:Ef; [reflexivity |].
      rewrite Hk in Hz. simpl in Hz. discriminate Hz. }
    assert (Hrest : faithful
              (_ <- db_call (on_pending (delete_entries (ID workout))) ;;
               _ <- update_entries (ID workout) (Entries workout) ;;
               Commit)).
    { apply faithful_bind; [apply faithful_tx_call; reflexivity |].
      intros _. apply faithful_bind; [apply faithful_update_entries |].
      intros _. apply faithful_Commit. }
    apply Hrest in E. destruct E as [l4 [E4 F4]].
    exists (l1 ++ l2 ++ l3 ++ l4).
    split; [rewrite E4, E3, E2, E1, !app_assoc; reflexivity |].
    destruct r as [a | e].
    + repeat (apply Forall_app; split); assumption.
    + left. destruct F4 as [F4 _]. repeat (apply in_or_app; right). exact F4.
Qed.

Lemma UpdateWorkout_pending workout w r w' :
  UpdateWorkout workout w = (r, w') ->
  pending w' = None \/ pending w' = pending w.
Proof.
  unfold UpdateWorkout. intros H. apply bind_inv in H.
  destruct H as [[e0 [HB _]] | [[] [w1 [_ H]]]].
  - right. unfold Begin in HB. apply db_call_inv in HB.
    destruct HB as [[f [_ [_ ->]]] | [_ [w1 [HB _]]]];
      [reflexivity | discriminate HB].
  - left. unfold defer in H.
    match type of H with
    | (let (_, _) := ?body w1 in _) = _ =>
        destruct (body w1) as [r1 w2] eqn:E
    end.
    inversion H; subst. apply Rollback_inv.
Qed.

(** X5.  UpdateWorkout is all or nothing: if any of its database calls
    fails (the begin, the header update, RowsAffected, the delete, any
    insert or the commit), it returns an error, the committed tables are
    what they were (header and entries of the workout included) and no
    transaction is left open. *)
Theorem UpdateWorkout_failure_changes_nothing :
  forall workout w r w',
    pending w = None ->
    UpdateWorkout workout w = (r, w') ->
    (exists e, In (Some e) (new_calls w w')) ->
    (exists e, r = Err e) /\
    committed w' = committed w /\
    pending w' = None.
Proof.
  intros workout w r w' Hp H [e Hin].
  assert (Hr : exists e0, r = Err e0).
  { destruct r as [[] | e0]; [| exists e0; reflexivity].
    apply UpdateWorkout_calls in H. destruct H as [l [El Hl]].
    rewrite (new_calls_app _ _ _ El) in Hin.
    rewrite Forall_forall in Hl. apply Hl in Hin. discriminate Hin. }
  destruct Hr as [e0 ->]. split; [exists e0; reflexivity |].
  split; [eapply UpdateWorkout_err; exact H |].
  apply UpdateWorkout_pending in H. destruct H as [H | H]; congruence.
Qed.

(** X5, at a concrete input: the stored workout is updated with its entries
    in descending order and the insert of the second entry fails. *)
Lemma UpdateWorkout_failure_changes_nothing_witness :
  fst (UpdateWorkout Fixtures.descending Fixtures.sixth_call_fails) =
    Err (ErrDriver "constraint") /\
  committed
    (snd (UpdateWorkout Fixtures.descending Fixtures.sixth_call_fails)) =
    Fixtures.stored_tables /\
  pending
    (snd (UpdateWorkout Fixtures.descending Fixtures.sixth_call_fails)) =
    None.
Proof.
  destruct (UpdateWorkout_failure_changes_nothing Fixtures.descending
              Fixtures.sixth_call_fails
              (Err (ErrDriver "constraint"))
              (snd (UpdateWorkout Fixtures.descending
                      Fixtures.sixth_call_fails)))
    as [_ [Hc Hp]].
  - reflexivity.
  - vm_compute. reflexivity.
  - exists (ErrDriver "constraint"). vm_compute. tauto.
  - split; [vm_compute; reflexivity |]. split; [exact Hc | exact Hp].
Defined.

(** X6.  Every error UpdateWorkout returns is the error of the database
    call that failed, the commit included; the one exception is
    sql.ErrNoRows, returned with no call failed when the header update
    affected no row because no stored workout has the ID. *)
Theorem UpdateWorkout_error_is_the_cause :
  forall workout w e w',
    UpdateWorkout workout w = (Err e, w') ->
    In (Some e) (new_calls w w') \/
    (e = ErrNoRows /\
     Forall (fun o => o = None) (new_calls w w') /\
     Forall (fun row => w_id row <> ID workout) (workouts (committed w))).
Proof.
  intros workout w e w' H. apply UpdateWorkout_calls in H.
  destruct H as [l [El Hl]]. rewrite (new_calls_app _ _ _ El).
  destruct Hl as [Hin | [-> [Hall Hno]]]; [left; exact Hin | right].
  split; [reflexivity |]. split; [exact Hall |].
  rewrite Forall_forall. intros row Hrow Heq.
  assert (Hin : In row (filter (fun r => w_id r =? ID workout)
                               (workouts (committed w)))).
  { apply filter_In. split; [exact Hrow | apply Z.eqb_eq; exact Heq]. }
  rewrite Hno in Hin. exact Hin.
Qed.

(** X6, at a concrete input: the commit of an update of the stored workout
    fails on a serialization error, which is the error returned. *)
Lemma UpdateWorkout_error_is_the_cause_witness :
  fst (UpdateWorkout Fixtures.shorter Fixtures.update_commit_fails) =
    Err (ErrDriver "could not serialize access") /\
  In (Some (ErrDriver "could not serialize access"))
     (new_calls Fixtures.update_commit_fails
        (snd (UpdateWorkout Fixtures.shorter Fixtures.update_commit_fails))).
Proof.
  split; [vm_compute; reflexivity |].
  destruct (UpdateWorkout_error_is_the_cause Fixtures.shorter
              Fixtures.update_commit_fails
              (ErrDriver "could not serialize access")
              (snd (UpdateWorkout Fixtures.shorter
                      Fixtures.update_commit_fails)))
    as [Hin | [Hne _]].
  - vm_compute. reflexivity.
  - exact Hin.
  - discriminate Hne.
Defined.

Lemma with_ids_OrderIndex start entries :
  map OrderIndex (with_ids start entries) = map OrderIndex entries.
Proof.
  revert start. induction entries as [| e rest IH]; intros start; simpl;
    [reflexivity |].
  rewrite IH. reflexivity.
Qed.

Lemma OrderIndex_sorted l :
  StronglySorted entry_le l -> StronglySorted Z.le (map OrderIndex l).
Proof.
  induction 1 as [| x l Hs IH Hall]; simpl; constructor.
  - exact IH.
  - rewrite Forall_forall in *. intros z Hz.
    apply in_map_iff in Hz. destruct Hz as [e [<- He]].
    apply Hall in He. exact He.
Qed.

(** Two ascending lists with the same elements are the same list. *)
Lemma sorted_permutation_eq (l1 : list Z) :
  forall l2,
    StronglySorted Z.le l1 -> StronglySorted Z.le l2 ->
    Permutation l1 l2 -> l1 = l2.
Proof.
  induction l1 as [| a l1 IH]; intros l2 H1 H2 Hp.
  - apply Permutation_nil in Hp. symmetry. exact Hp.
  - destruct l2 as [| b l2].
    + apply Permutation_sym, Permutation_nil in Hp. discriminate Hp.
    + inversion H1 as [| ? ? Hs1 Ha]; subst.
      inversion H2 as [| ? ? Hs2 Hb]; subst.
      assert (Hab : a = b).
      { assert (Hina : In a (b :: l2))
          by (eapply Permutation_in; [exact Hp | left; reflexivity]).
        assert (Hinb : In b (a :: l1))
          by (eapply Permutation_in;
              [apply Permutation_sym; exact Hp | left; reflexivity]).
        rewrite Forall_forall in Ha, Hb.
        destruct Hina as [Hina | Hina]; [congruence |].
        destruct Hinb as [Hinb | Hinb]; [congruence |].
        apply Hb in Hina. apply Ha in Hinb. lia. }
      subst b. f_equal. apply IH; try assumption.
      eapply Permutation_cons_inv. exact Hp.
Qed.

(** X7.  Reading a workout, writing it back unchanged and reading it again
    with no call and no fetch failing gives the same header, the same
    entries but for their identities, which are those the database assigned
    on reinsertion, and the same sequence of OrderIndex values; where no two
    entries have the same OrderIndex the entries are in the same order. *)
Theorem GetWorkoutByID_UpdateWorkout_GetWorkoutByID :
  forall id w loaded w1 w2 found w3,
    GetWorkoutByID id w = (Ok (Some loaded), w1) ->
    UpdateWorkout loaded w1 = (Ok tt, w2) ->
    GetWorkoutByID id w2 = (Ok found, w3) ->
    Forall (fun o => o = None) (new_calls w2 w3) ->
    exists got,
      found = Some got /\
      ID got = ID loaded /\
      same_header got loaded /\
      Permutation (map (set_EntryID 0) (Entries got))
                  (map (set_EntryID 0) (Entries loaded)) /\
      map OrderIndex (Entries got) = map OrderIndex (Entries loaded) /\
      (StronglySorted entry_lt (Entries loaded) ->
       Entries got =
       with_ids (workout_entries_id_seq w) (Entries loaded)).
Proof.
  intros id w loaded w1 w2 found w3 HG1 HU HG2 HN.
  pose proof (GetWorkoutByID_same _ _ _ _ HG1) as [_ [_ [_ Hseq]]].
  apply GetWorkoutByID_ok in HG1. destruct HG1 as [_ [r [Hr Hl]]].
  assert (Hid : ID loaded = id).
  { rewrite Hl. simpl. apply find_some in Hr. destruct Hr as [_ Hr].
    apply Z.eqb_eq. exact Hr. }
  assert (Hsorted : StronglySorted entry_le (Entries loaded)).
  { rewrite Hl. simpl. apply entries_of_sorted. }
  apply UpdateWorkout_ok in HU. destruct HU as [Hc [_ Hex]].
  destruct (updated_row_found loaded (workout_entries_id_seq w1)
              (committed w1) Hex) as [row Hrow].
  rewrite <- Hc in Hrow. rewrite <- Hid in HG2.
  assert (Hrows : filter (fun r => e_workout_id r =? ID loaded)
                         (workout_entries (committed w2)) =
                  entry_rows (ID loaded) (workout_entries_id_seq w1)
                             (Entries loaded)).
  { rewrite Hc. apply updated_tables_entries. }
  destruct (read_inserted _ _ _ _ _ _ _ HG2 HN Hrow Hrows)
    as [got [-> [Hgot [Hp [Hs Heq]]]]].
  rewrite Hc in Hrow. apply updated_tables_header in Hrow.
  destruct Hrow as [H1 [H2 [H3 [H4 H5]]]].
  exists got. split; [reflexivity |].
  split; [rewrite Hgot; simpl; exact H1 |].
  split; [rewrite Hgot; repeat split; simpl; assumption |].
  split; [| split].
  - rewrite <- (erase_with_ids (workout_entries_id_seq w1) (Entries loaded)).
    apply Permutation_map. exact Hp.
  - apply sorted_permutation_eq.
    + apply OrderIndex_sorted. exact Hs.
    + apply OrderIndex_sorted. exact Hsorted.
    + rewrite <- (with_ids_OrderIndex (workout_entries_id_seq w1)
                    (Entries loaded)).
      apply Permutation_map. exact Hp.
  - intros Hlt. rewrite <- Hseq. apply Heq. exact Hlt.
Qed.

(** X7, at a concrete input: the stored workout is read, written back and
    read again. *)
Lemma GetWorkoutByID_UpdateWorkout_GetWorkoutByID_witness :
  exists got,
    fst (GetWorkoutByID 1
           (snd (UpdateWorkout Fixtures.stored_workout
                   (snd (GetWorkoutByID 1 Fixtures.stored))))) =
      Ok (Some got) /\
    Title got = Title Fixtures.stored_workout /\
    Entries got =
      [set_EntryID 4 Fixtures.squat; set_EntryID 5 Fixtures.lunge;
       set_EntryID 6 Fixtures.plank].
Proof.
  destruct (GetWorkoutByID_UpdateWorkout_GetWorkoutByID 1 Fixtures.stored
              Fixtures.stored_workout
              (snd (GetWorkoutByID 1 Fixtures.stored))
              (snd (UpdateWorkout Fixtures.stored_workout
                      (snd (GetWorkoutByID 1 Fixtures.stored))))
              (Some (mkWorkout 1 "Leg Day" "" 45 300 0
                       [set_EntryID 4 Fixtures.squat;
                        set_EntryID 5 Fixtures.lunge;
                        set_EntryID 6 Fixtures.plank]))
              (snd (GetWorkoutByID 1
                      (snd (UpdateWorkout Fixtures.stored_workout
                              (snd (GetWorkoutByID 1 Fixtures.stored)))))))
    as [got [Hf [_ [[Ht _] [_ [_ He]]]]]].
  - vm_compute. reflexivity.
  - vm_compute. reflexivity.
  - vm_compute. reflexivity.
  - vm_compute. repeat constructor.
  - exists got. split; [| split].
    + rewrite <- Hf. vm_compute. reflexivity.
    + exact Ht.
    + apply He. repeat constructor.
Defined.

(** With ties the order is the engine's: workout 1 is stored with two
    entries of OrderIndex 0; an engine that puts the later of two tied rows
    first returns them as B, A, and after they are written back in that
    order, as A, B. *)
Example tied_entries_change_places :
  exists loaded w1 w2 got w3,
    GetWorkoutByID 1 Fixtures.tied = (Ok (Some loaded), w1) /\
    UpdateWorkout loaded w1 = (Ok tt, w2) /\
    GetWorkoutByID 1 w2 = (Ok (Some got), w3) /\
    map ExerciseName (Entries loaded) = ["B"; "A"]%string /\
    map ExerciseName (Entries got) = ["A"; "B"]%string.
Proof.
  destruct (GetWorkoutByID 1 Fixtures.tied) as [r1 w1] eqn:E1.
  vm_compute in E1. injection E1 as <- <-.
  eexists. eexists. eexists. eexists. eexists.
  split; [reflexivity |].
  split; [vm_compute; reflexivity |].
  split; [vm_compute; reflexivity |].
  split; reflexivity.
Qed.

Lemma entry_rows_workout_id id start entries :
  Forall (fun e => e_workout_id e = id) (entry_rows id start entries).
Proof.
  revert start. induction entries as [| e rest IH]; intros start; simpl;
    constructor; [reflexivity | apply IH].
Qed.

Lemma update_row_w_id workout (x : WorkoutRow) :
  w_id (update_row (Title workout) (Description workout)
          (DurationMinutes workout) (CaloriesBurned workout) (ID workout) x) =
  w_id x.
Proof. unfold update_row. destruct (w_id x =? ID workout); reflexivity. Qed.

Lemma no_orphans_created workout wid start t :
  no_orphans t ->
  no_orphans
    (mkTables (workouts t ++ [workout_row wid workout None])
              (workout_entries t ++ entry_rows wid start (Entries workout))).
Proof.
  unfold no_orphans. simpl. intros H. apply Forall_app. split.
  - eapply Forall_impl; [| exact H]. intros e [r [Hr He]]. exists r.
    split; [apply in_or_app; left; exact Hr | exact He].
  - eapply Forall_impl; [| apply entry_rows_workout_id].
    intros e He. simpl in He. exists (workout_row wid workout None).
    split; [apply in_or_app; right; left; reflexivity |].
    simpl. symmetry. exact He.
Qed.

Lemma no_orphans_updated workout start t :
  filter (fun r => w_id r =? ID workout) (workouts t) <> [] ->
  no_orphans t ->
  no_orphans (updated_tables workout start t).
Proof.
  unfold no_orphans, updated_tables. simpl. intros Hex H.
  apply Forall_app. split.
  - rewrite Forall_forall in *. intros e He. apply filter_In in He.
    destruct He as [He _]. destruct (H e He) as [r [Hr Hid]].
    eexists. split; [apply in_map; exact Hr |].
    rewrite update_row_w_id. exact Hid.
  - apply filter_nonempty_In in Hex. destruct Hex as [r [Hr Hid]].
    apply Z.eqb_eq in Hid.
    eapply Forall_impl; [| apply entry_rows_workout_id].
    intros e He. simpl in He. eexists.
    split; [apply in_map; exact Hr |].
    rewrite update_row_w_id. congruence.
Qed.

(** X9.  Neither CreateWorkout nor UpdateWorkout, succeeding or failing, in
    any number and order, leaves an entry row without its workout row:
    CreateWorkout inserts entries only under the header it has just
    inserted, UpdateWorkout only after its header update affected a row. *)
Theorem writes_keep_entries_with_their_workout :
  forall w w',
    no_orphans (committed w) ->
    writes_entries_star w w' ->
    no_orphans (committed w').
Proof.
  intros w w' H0 Hstar. induction Hstar as [| w w1 w2 _ IH Hstep];
    [exact H0 |].
  specialize (IH H0).
  destruct Hstep as [workout wa r wb H | workout wa r wb H].
  - destruct r as [created | e].
    + apply CreateWorkout_ok in H. destruct H as [_ [-> _]].
      apply no_orphans_created. exact IH.
    + apply CreateWorkout_err_committed in H. rewrite H. exact IH.
  - destruct r as [[] | e].
    + apply UpdateWorkout_ok in H. destruct H as [-> [_ Hex]].
      apply no_orphans_updated; assumption.
    + apply UpdateWorkout_err in H. rewrite H. exact IH.
Qed.

(** X9, at a concrete input: on the stored database, a create whose second
    insert fails is followed by an update of workout 1. *)
Lemma writes_keep_entries_with_their_workout_witness :
  no_orphans
    (committed
       (snd (UpdateWorkout Fixtures.shorter
               (snd (CreateWorkout Fixtures.two_entries
                       Fixtures.fourth_call_fails))))).
Proof.
  apply (writes_keep_entries_with_their_workout Fixtures.fourth_call_fails).
  - repeat constructor;
      (exists (mkWorkoutRow 1 "Leg Day" "" 45 300 (Some 1));
       split; [left; reflexivity | reflexivity]).
  - eapply writes_more; [eapply writes_more; [apply writes_none |] |].
    + apply (writes_create Fixtures.two_entries Fixtures.fourth_call_fails
               (fst (CreateWorkout Fixtures.two_entries
                       Fixtures.fourth_call_fails))).
      vm_compute. reflexivity.
    + apply (writes_update Fixtures.shorter _
               (fst (UpdateWorkout Fixtures.shorter
                       (snd (CreateWorkout Fixtures.two_entries
                               Fixtures.fourth_call_fails))))).
      vm_compute. reflexivity.
Defined.

(** *** The sequence of workout identities *)

Lemma advances_ret {A} (a : A) : advances (ret a).
Proof. intros w r w' H. inversion H; subst. lia. Qed.

Lemma advances_bind {A B} (m : M A) (k : A -> M B) :
  advances m -> (forall a, advances (k a)) -> advances (bind m k).
Proof.
  intros Hm Hk w r w' H. apply bind_inv in H.
  destruct H as [[e [H _]] | [a [w1 [H1 H2]]]].
  - apply Hm in H. exact H.
  - apply Hm in H1. apply Hk in H2. lia.
Qed.

Lemma advances_db_call {A} (run : World -> result A * World) :
  (forall w, workouts_id_seq w <= workouts_id_seq (snd (run w))) ->
  advances (db_call run).
Proof.
  intros Hrun w r w' H. apply db_call_inv in H.
  destruct H as [[f [_ [_ ->]]] | [_ [w1 [H ->]]]].
  - simpl. lia.
  - specialize (Hrun (pop_script w)). rewrite H in Hrun. simpl in *.
    exact Hrun.
Qed.

Lemma advances_tx_call {A} (run : Tables -> World -> A * Tables * World) :
  (forall t w, workouts_id_seq w <= workouts_id_seq (snd (run t w))) ->
  advances (db_call (on_pending run)).
Proof.
  intros Hrun. apply advances_db_call. intros w. unfold on_pending.
  destruct (pending w) as [t |]; simpl; [| lia].
  specialize (Hrun t w). destruct (run t w) as [[a t1] w1]. simpl in *.
  exact Hrun.
Qed.

Lemma advances_Commit : advances Commit.
Proof.
  apply advances_db_call. intros w. destruct (pending w); simpl; lia.
Qed.

Lemma advances_update_entries workoutID entries :
  advances (update_entries workoutID entries).
Proof.
  induction entries as [| e rest IH]; simpl.
  - apply advances_ret.
  - apply advances_bind; [| intros _; exact IH].
    apply advances_tx_call. intros t w. simpl. lia.
Qed.

Lemma advances_replace_err {A} (m : M A) e :
  advances m -> advances (replace_err m e).
Proof.
  intros Hm w r w' H. unfold replace_err in H.
  destruct (m w) as [[a | e0] w1] eqn:E; inversion H; subst;
    apply Hm in E; exact E.
Qed.

Lemma advances_defer_Rollback {A} (m : M A) :
  advances m -> advances (defer Rollback m).
Proof.
  intros Hm w r w' H. unfold defer in H.
  destruct (m w) as [r1 w1] eqn:E. inversion H; subst.
  apply Hm in E. unfold Rollback. destruct (pending w1); simpl; exact E.
Qed.

Lemma advances_CreateWorkout workout : advances (CreateWorkout workout).
Proof.
  unfold CreateWorkout. apply advances_bind.
  - apply advances_db_call. intros w. simpl. lia.
  - intros _. apply advances_defer_Rollback. apply advances_bind.
    + apply advances_tx_call. intros t w. simpl. lia.
    + intros id. apply advances_bind.
      * rewrite create_entries_update_entries. apply advances_update_entries.
      * intros _. apply advances_bind; [| intros _; apply advances_ret].
        apply advances_replace_err. apply advances_Commit.
Qed.

Lemma advances_UpdateWorkout workout : advances (UpdateWorkout workout).
Proof.
  unfold UpdateWorkout. apply advances_bind.
  - apply advances_db_call. intros w. simpl. lia.
  - intros _. apply advances_defer_Rollback. apply advances_bind.
    + apply advances_tx_call. intros t w. simpl. lia.
    + intros n. apply advances_bind.
      * apply advances_db_call. intros w. simpl. lia.
      * intros k. destruct (k =? 0).
        -- intros w r w' H. inversion H; subst. lia.
        -- apply advances_bind;
             [apply advances_tx_call; intros t w; simpl; lia |].
           intros _. apply advances_bind;
             [apply advances_update_entries | intros _; apply advances_Commit].
Qed.

(** A CreateWorkout that succeeds has taken its ID from the sequence. *)
Lemma CreateWorkout_ok_advances workout w created w' :
  CreateWorkout workout w = (Ok created, w') ->
  workouts_id_seq w < workouts_id_seq w'.
Proof.
  unfold CreateWorkout. intros H.
  apply bind_ok_inv in H. destruct H as [[] [w1 [HB H]]].
  apply Begin_inv in HB. destruct HB as [_ HB].
  destruct (HB eq_refl) as [_ [Hs1 _]]. clear HB.
  unfold defer in H.
  match type of H with
  | (let (_, _) := ?body w1 in _) = _ => destruct (body w1) as [r w2] eqn:E
  end.
  inversion H; subst r w'. clear H.
  assert (Hrb : workouts_id_seq (snd (Rollback w2)) = workouts_id_seq w2).
  { unfold Rollback. destruct (pending w2); reflexivity. }
  rewrite Hrb.
  apply bind_ok_inv in E. destruct E as [id [w3 [HI E]]].
  apply tx_call_ok in HI. destruct HI as [t [t1 [w4 [_ [Hrun ->]]]]].
  unfold insert_workout in Hrun. inversion Hrun; subst. clear Hrun.
  assert (Hrest : advances
            (_ <- create_entries (workouts_id_seq (pop_script w1))
                    (Entries workout) ;;
             _ <- replace_err Commit ErrConnDone ;;
             ret (set_ID (workouts_id_seq (pop_script w1)) workout))).
  { apply advances_bind.
    - rewrite create_entries_update_entries. apply advances_update_entries.
    - intros _. apply advances_bind; [| intros _; apply advances_ret].
      apply advances_replace_err. apply advances_Commit. }
  apply Hrest in E. simpl in E. lia.
Qed.

(** X10.  The sequence stays ahead of every identity in use through any
    number of CreateWorkout and UpdateWorkout calls, succeeding or failing:
    no stored workout and no entry's workout_id ever has the identity the
    next CreateWorkout will be given. *)
Theorem writes_keep_sequence_ahead :
  forall w w',
    sequence_ahead w ->
    writes_entries_star w w' ->
    sequence_ahead w'.
Proof.
  intros w w' H0 Hstar. induction Hstar as [| w w1 w2 _ IH Hstep];
    [exact H0 |].
  specialize (IH H0). destruct IH as [Hw He].
  destruct Hstep as [workout wa r wb H | workout wa r wb H].
  - pose proof (advances_CreateWorkout workout _ _ _ H) as Hle.
    destruct r as [created | e].
    + pose proof (CreateWorkout_ok_advances _ _ _ _ H) as Hlt.
      apply CreateWorkout_ok in H. destruct H as [_ [Hc _]].
      unfold sequence_ahead. rewrite Hc. simpl. split; apply Forall_app; split.
      * eapply Forall_impl; [| exact Hw]. intros x Hx. simpl in Hx. lia.
      * constructor; [simpl; exact Hlt | constructor].
      * eapply Forall_impl; [| exact He]. intros x Hx. simpl in Hx. lia.
      * eapply Forall_impl; [| apply entry_rows_workout_id].
        intros x Hx. simpl in Hx. lia.
    + apply CreateWorkout_err_committed in H.
      unfold sequence_ahead. rewrite H. split.
      * eapply Forall_impl; [| exact Hw]. intros x Hx. simpl in Hx. lia.
      * eapply Forall_impl; [| exact He]. intros x Hx. simpl in Hx. lia.
  - pose proof (advances_UpdateWorkout workout _ _ _ H) as Hle.
    destruct r as [[] | e].
    + apply UpdateWorkout_ok in H. destruct H as [Hc [_ Hex]].
      apply filter_nonempty_In in Hex. destruct Hex as [row [Hrow Hid]].
      apply Z.eqb_eq in Hid.
      rewrite Forall_forall in Hw. pose proof (Hw row Hrow) as Hlt.
      simpl in Hlt.
      unfold sequence_ahead. rewrite Hc. unfold updated_tables. simpl. split.
      * rewrite Forall_forall. intros x Hx. apply in_map_iff in Hx.
        destruct Hx as [y [<- Hy]]. rewrite update_row_w_id.
        apply Hw in Hy. simpl in Hy. lia.
      * apply Forall_app. split.
        -- rewrite Forall_forall in *. intros x Hx. apply filter_In in Hx.
           destruct Hx as [Hx _]. apply He in Hx. simpl in Hx. lia.
        -- eapply Forall_impl; [| apply entry_rows_workout_id].
           intros x Hx. simpl in Hx. lia.
    + apply UpdateWorkout_err in H.
      unfold sequence_ahead. rewrite H. split.
      * eapply Forall_impl; [| exact Hw]. intros x Hx. simpl in Hx. lia.
      * eapply Forall_impl; [| exact He]. intros x Hx. simpl in Hx. lia.
Qed.

(** X10, at a concrete input: the specification's example is created in the
    stored database. *)
Lemma writes_keep_sequence_ahead_witness :
  sequence_ahead (snd (CreateWorkout Fixtures.leg_day Fixtures.stored)).
Proof.
  apply (writes_keep_sequence_ahead Fixtures.stored).
  - split; repeat constructor.
  - eapply writes_more; [apply writes_none |].
    apply (writes_create Fixtures.leg_day Fixtures.stored
             (fst (CreateWorkout Fixtures.leg_day Fixtures.stored))).
    vm_compute. reflexivity.
Defined.

(** X8.  GetWorkoutByID, whatever it returns, leaves the tables, the open
    transaction and the sequences as they were. *)
Theorem GetWorkoutByID_changes_nothing :
  forall id w, same_database w (snd (GetWorkoutByID id w)).
Proof.
  intros id w. destruct (GetWorkoutByID id w) as [r w'] eqn:E. simpl.
  eapply GetWorkoutByID_same. exact E.
Qed.



(** ** Further properties of the handlers *)

Lemma GetWorkoutOwner_same id w r w' :
  GetWorkoutOwner id w = (r, w') -> same_database w w'.
Proof.
  unfold GetWorkoutOwner. intros H.
  eapply pool_read_same; [apply select_owner_readonly | exact H].
Qed.

Lemma applyUpdate_ID req existing : ID (applyUpdate req existing) = ID existing.
Proof.
  destruct req as [t d m c es]. unfold applyUpdate. simpl.
  destruct t, d, m, c, es; reflexivity.
Qed.

Lemma applyUpdate_Entries_absent req existing :
  req_Entries req = None ->
  Entries (applyUpdate req existing) = Entries existing.
Proof.
  destruct req as [t d m c es]. simpl. intros ->. unfold applyUpdate. simpl.
  destruct t, d, m, c; reflexivity.
Qed.

Lemma GetWorkoutByID_some_ID id w workout w' :
  GetWorkoutByID id w = (Ok (Some workout), w') -> ID workout = id.
Proof.
  intros H. apply GetWorkoutByID_ok in H. destruct H as [_ [r [Hr ->]]].
  simpl. apply find_some in Hr. destruct Hr as [_ Hr].
  apply Z.eqb_eq. exact Hr.
Qed.

(** The two ways HandleUpdateWorkoutByID ends: every check passed and
    UpdateWorkout committed, or one write with an error status and nothing
    committed. *)
Lemma HandleUpdateWorkoutByID_inv r w resp w' :
  HandleUpdateWorkoutByID r w = (resp, w') ->
  (exists id existing w1 req uid w2,
     ReadIDParam r = Some id /\
     GetWorkoutByID id w = (Ok (Some existing), w1) /\
     Decode r = Some req /\
     GetUser r = User uid /\
     GetWorkoutOwner id w1 = (Ok uid, w2) /\
     UpdateWorkout (applyUpdate req existing) w2 = (Ok tt, w') /\
     resp = [WriteJSON StatusOK
               (env_workout (Some (applyUpdate req existing)))]) \/
  (committed w' = committed w /\
   exists x, resp = [x] /\
             In (write_status x)
                [StatusBadRequest; StatusForbidden; StatusNotFound;
                 StatusInternalServerError] /\
             (not_logged_in (GetUser r) ->
              write_status x <> StatusForbidden)).
Proof.
  unfold HandleUpdateWorkoutByID. intros H.
  destruct (ReadIDParam r) as [id |].
  2:{ inversion H; subst. right. split; [reflexivity |].
      eexists. split; [reflexivity |]. simpl. split; [auto | discriminate]. }
  destruct (GetWorkoutByID id w) as [r1 w1] eqn:E1.
  pose proof (GetWorkoutByID_committed _ _ _ _ E1) as Hc1.
  destruct r1 as [[existing |] | e].
  2:{ inversion H; subst. right. split; [exact Hc1 |].
      eexists. split; [reflexivity |]. simpl. split; [auto | discriminate]. }
  2:{ inversion H; subst. right. split; [exact Hc1 |].
      eexists. split; [reflexivity |]. simpl.
      split; [auto 6 | discriminate]. }
  destruct (Decode r) as [req |].
  2:{ inversion H; subst. right. split; [exact Hc1 |].
      eexists. split; [reflexivity |]. simpl. split; [auto | discriminate]. }
  destruct (GetUser r) as [| | uid].
  1,2: inversion H; subst; right; (split; [exact Hc1 |]);
       eexists; (split; [reflexivity |]); simpl;
       (split; [auto | discriminate]).
  destruct (GetWorkoutOwner id w1) as [r2 w2] eqn:E2.
  pose proof (GetWorkoutOwner_inv _ _ _ _ E2) as [Hc2 _].
  destruct r2 as [owner | e].
  2:{ destruct e; inversion H; subst; right; (split; [congruence |]);
        eexists; (split; [reflexivity |]); simpl;
        (split; [auto 6 | intros [Hn | Hn]; discriminate Hn]). }
  destruct (Z.eqb_spec owner uid) as [-> | Hne]; simpl in H.
  2:{ inversion H; subst. right. split; [congruence |].
      eexists. split; [reflexivity |]. simpl.
      split; [auto | intros [Hn | Hn]; discriminate Hn]. }
  destruct (UpdateWorkout (applyUpdate req existing) w2)
    as [[[] | e] w3] eqn:E3; inversion H; subst.
  - left. exists id, existing, w1, req, uid, w2. repeat split; assumption.
  - right. apply UpdateWorkout_err in E3. split; [congruence |].
    eexists. split; [reflexivity |]. simpl.
    split; [auto 6 | intros [Hn | Hn]; discriminate Hn].
Qed.

(** X11.  HandleCreateWorkout ends in one of three ways: 201 with the
    workout given, its UserID set to the caller's and its ID set by the
    store, the header and the entries committed; 400 without any database
    call, when the body does not decode or no user is logged in; 500 with
    nothing committed, and then a database call has failed. *)
Theorem HandleCreateWorkout_outcomes :
  forall r w resp w',
    HandleCreateWorkout r w = (resp, w') ->
    (exists workout uid,
       Decode r = Some workout /\ GetUser r = User uid /\
       resp = [WriteJSON StatusCreated
                 (env_workout
                    (Some (set_ID (workouts_id_seq w)
                             (set_UserID uid workout))))] /\
       committed w' =
         mkTables
           (workouts (committed w) ++
            [workout_row (workouts_id_seq w) workout None])
           (workout_entries (committed w) ++
            entry_rows (workouts_id_seq w) (workout_entries_id_seq w)
                       (Entries workout))) \/
    (exists msg,
       resp = [WriteJSON StatusBadRequest (env_error msg)] /\ w' = w /\
       (Decode r = None \/ not_logged_in (GetUser r))) \/
    (resp = [WriteJSON StatusInternalServerError
               (env_error "failed to create workout")] /\
     committed w' = committed w /\
     exists e, In (Some e) (new_calls w w')).
Proof.
  unfold HandleCreateWorkout. intros r w resp w' H.
  destruct (Decode r) as [workout |].
  2:{ inversion H; subst. right. left. eexists. repeat split. left.
      reflexivity. }
  destruct (GetUser r) as [| | uid].
  1,2: inversion H; subst; right; left; eexists; repeat split; right;
       unfold not_logged_in; auto.
  destruct (CreateWorkout (set_UserID uid workout) w)
    as [[created | e] w1] eqn:E; inversion H; subst.
  - left. exists workout, uid.
    apply CreateWorkout_ok in E. destruct E as [-> [Hc _]].
    repeat split. exact Hc.
  - right. right. split; [reflexivity |].
    split; [eapply CreateWorkout_err_committed; exact E |].
    apply CreateWorkout_calls in E. destruct E as [l [El [e0 Hin]]].
    exists e0. rewrite (new_calls_app _ _ _ El). exact Hin.
Qed.

(** X11, at a concrete input: user 7 posts the specification's example. *)
Lemma HandleCreateWorkout_outcomes_witness :
  fst (HandleCreateWorkout Fixtures.create_by_7 Fixtures.stored) =
    [WriteJSON StatusCreated
       (env_workout (Some (set_ID 2 (set_UserID 7 Fixtures.leg_day))))] /\
  List.length
    (workouts
       (committed
          (snd (HandleCreateWorkout Fixtures.create_by_7 Fixtures.stored)))) =
    2%nat.
Proof.
  destruct (HandleCreateWorkout_outcomes Fixtures.create_by_7
              Fixtures.stored
              (fst (HandleCreateWorkout Fixtures.create_by_7 Fixtures.stored))
              (snd (HandleCreateWorkout Fixtures.create_by_7 Fixtures.stored)))
    as [[workout [uid [Hd [Hu [Hr Hc]]]]] | [[msg [Hr _]] | [Hr _]]].
  - vm_compute. reflexivity.
  - injection Hd as <-. injection Hu as <-.
    split; [exact Hr | rewrite Hc; reflexivity].
  - vm_compute in Hr. discriminate Hr.
  - vm_compute in Hr. discriminate Hr.
Defined.

(** X12.  HandleUpdateWorkoutByID changes the tables only when it answers
    200, and it answers 200 only to a logged-in user whose ID the owner
    lookup returned for the workout; in every other case it writes a single
    response with status 400, 403, 404 or 500 and commits nothing. *)
Theorem HandleUpdateWorkoutByID_changes_only_for_owner :
  forall r w resp w',
    HandleUpdateWorkoutByID r w = (resp, w') ->
    (exists body id uid,
       resp = [WriteJSON StatusOK body] /\
       ReadIDParam r = Some id /\
       GetUser r = User uid /\
       fst (select_owner id (committed w)) = Ok uid) \/
    (committed w' = committed w /\
     List.length resp = 1%nat /\
     In (response_status resp)
        [StatusBadRequest; StatusForbidden; StatusNotFound;
         StatusInternalServerError]).
Proof.
  intros r w resp w' H. apply HandleUpdateWorkoutByID_inv in H.
  destruct H as [[id [existing [w1 [req [uid [w2 H]]]]]] | [Hc [x [-> [Hin _]]]]].
  - destruct H as [Hid [HG [_ [Hu [HO [_ ->]]]]]]. left.
    eexists. exists id, uid. repeat split; try assumption.
    apply GetWorkoutByID_committed in HG.
    apply GetWorkoutOwner_inv in HO. destruct HO as [_ HO].
    rewrite <- HG. apply HO. reflexivity.
  - right. split; [exact Hc |]. split; [reflexivity | exact Hin].
Qed.

(** X12, at a concrete input: user 2 sends the calories-only body for
    workout 1, which user 1 owns. *)
Lemma HandleUpdateWorkoutByID_changes_only_for_owner_witness :
  committed
    (snd (HandleUpdateWorkoutByID Fixtures.update_by_other Fixtures.stored)) =
    Fixtures.stored_tables /\
  response_status
    (fst (HandleUpdateWorkoutByID Fixtures.update_by_other Fixtures.stored)) =
    StatusForbidden.
Proof.
  destruct (HandleUpdateWorkoutByID_changes_only_for_owner
              Fixtures.update_by_other Fixtures.stored
              (fst (HandleUpdateWorkoutByID Fixtures.update_by_other
                      Fixtures.stored))
              (snd (HandleUpdateWorkoutByID Fixtures.update_by_other
                      Fixtures.stored)))
    as [[body [id [uid [Hr _]]]] | [Hc _]].
  - vm_compute. reflexivity.
  - vm_compute in Hr. discriminate Hr.
  - split; [exact Hc | vm_compute; reflexivity].
Defined.

(** X13.  A request without a logged-in user (nil or anonymous) never
    changes the tables and is never answered 2xx or 403.  The create and the
    delete handlers answer it 400 without making any database call; the
    update handler, which loads the workout before it looks at the user,
    answers 400, 404 or 500. *)
Theorem requests_without_user_change_nothing :
  (forall r w,
     not_logged_in (GetUser r) ->
     snd (HandleCreateWorkout r w) = w /\
     response_status (fst (HandleCreateWorkout r w)) = StatusBadRequest) /\
  (forall r w,
     not_logged_in (GetUser r) ->
     snd (HandleDeleteWorkoutByID r w) = w /\
     response_status (fst (HandleDeleteWorkoutByID r w)) = StatusBadRequest) /\
  (forall r w,
     not_logged_in (GetUser r) ->
     committed (snd (HandleUpdateWorkoutByID r w)) = committed w /\
     In (response_status (fst (HandleUpdateWorkoutByID r w)))
        [StatusBadRequest; StatusNotFound; StatusInternalServerError]).
Proof.
  split; [| split]; intros r w Hu.
  - unfold HandleCreateWorkout.
    destruct (Decode r); [| split; reflexivity].
    destruct Hu as [-> | ->]; split; reflexivity.
  - unfold HandleDeleteWorkoutByID.
    destruct (ReadIDParam r); [| split; reflexivity].
    destruct Hu as [-> | ->]; split; reflexivity.
  - destruct (HandleUpdateWorkoutByID r w) as [resp w'] eqn:E. simpl.
    apply HandleUpdateWorkoutByID_inv in E.
    destruct E as [[id [existing [w1 [req [uid [w2 H]]]]]]
                  | [Hc [x [-> [Hin Hnf]]]]].
    + destruct H as [_ [_ [_ [Hus _]]]].
      destruct Hu as [Hu | Hu]; rewrite Hu in Hus; discriminate Hus.
    + split; [exact Hc |]. specialize (Hnf Hu). simpl in *.
      destruct Hin as [Hin | [Hin | [Hin | [Hin | []]]]]; auto.
Qed.

(** X13, at concrete inputs: anonymous create, delete and update requests
    against the stored database. *)
Lemma requests_without_user_change_nothing_witness :
  snd (HandleCreateWorkout
         (mkRequest None (Some Fixtures.leg_day) AnonymousUser)
         Fixtures.stored) = Fixtures.stored /\
  snd (HandleDeleteWorkoutByID (mkRequest (Some 1) None nilUser)
         Fixtures.stored) = Fixtures.stored /\
  committed
    (snd (HandleUpdateWorkoutByID
            (mkRequest (Some 1) (Some Fixtures.calories_only) AnonymousUser)
            Fixtures.stored)) = Fixtures.stored_tables.
Proof.
  destruct requests_without_user_change_nothing as [HC [HD HU]].
  split; [| split].
  - apply (HC (mkRequest None (Some Fixtures.leg_day) AnonymousUser)).
    right. reflexivity.
  - apply (HD (mkRequest (Some 1) None nilUser)). left. reflexivity.
  - apply (HU (mkRequest (Some 1) (Some Fixtures.calories_only)
                 AnonymousUser)).
    right. reflexivity.
Defined.

(** X14.  HandleGetWorkoutByID never changes the database and writes one
    response: 400 without a database call when the id does not parse; 500,
    and then a database call has failed with an error other than "no rows";
    otherwise 200, either with a workout, and then a stored workout has the
    id asked for and the answer is its header with the entries read for it,
    or with a null workout, and then no stored workout has that id.  When
    the header query runs, the answer is 200 with a null workout exactly
    when no stored workout has the id. *)
Theorem HandleGetWorkoutByID_outcomes :
  (forall r w resp w',
     HandleGetWorkoutByID r w = (resp, w') ->
     same_database w w' /\
     ((ReadIDParam r = None /\ w' = w /\
       resp = [WriteJSON StatusBadRequest
                 (env_error "invalid workout id")]) \/
      (resp = [WriteJSON StatusInternalServerError
                 (env_error "internal server error")] /\
       exists e, In (Some e) (new_calls w w') /\ e <> ErrNoRows) \/
      (exists id found,
         ReadIDParam r = Some id /\
         resp = [WriteJSON StatusOK (env_workout found)] /\
         match found with
         | Some workout =>
             ID workout = id /\
             exists row,
               find (fun row => w_id row =? id) (workouts (committed w)) =
                 Some row /\
               workout = set_Entries (entries_of id w) (header_of row)
         | None =>
             Forall (fun row => w_id row <> id) (workouts (committed w))
         end))) /\
  (forall r w id,
     ReadIDParam r = Some id ->
     next_fault w = None ->
     (Forall (fun row => w_id row <> id) (workouts (committed w)) <->
      fst (HandleGetWorkoutByID r w) =
        [WriteJSON StatusOK (env_workout None)])).
Proof.
  assert (Hnone : forall id w w1,
            GetWorkoutByID id w = (Ok None, w1) ->
            Forall (fun row => w_id row <> id) (workouts (committed w))).
  { intros id w w1 E. apply GetWorkoutByID_ok in E. destruct E as [_ E].
    rewrite Forall_forall. intros row Hrow Heq.
    pose proof (find_none _ _ E row Hrow) as Hf. simpl in Hf.
    apply Z.eqb_neq in Hf. contradiction. }
  split.
  - unfold HandleGetWorkoutByID. intros r w resp w' H.
    destruct (ReadIDParam r) as [id |].
    2:{ inversion H; subst. split; [apply same_database_refl |]. left.
        repeat split. }
    destruct (GetWorkoutByID id w) as [[found | e] w1] eqn:E;
      inversion H; subst; (split; [eapply GetWorkoutByID_same; exact E |]).
    + right. right. exists id, found. split; [reflexivity |].
      split; [reflexivity |]. destruct found as [workout |].
      * split; [eapply GetWorkoutByID_some_ID; exact E |].
        apply GetWorkoutByID_ok in E. apply E.
      * eapply Hnone. exact E.
    + right. left. split; [reflexivity |].
      apply GetWorkoutByID_calls in E. destruct E as [l [El Hl]].
      exists e. rewrite (new_calls_app _ _ _ El). exact Hl.
  - intros r w id Hid Hf. unfold HandleGetWorkoutByID. rewrite Hid. split.
    + intros Hno. pose proof (GetWorkoutByID_absent id w Hno Hf) as Ha.
      destruct (GetWorkoutByID id w) as [res w1]. simpl in Ha. subst res.
      reflexivity.
    + intros H.
      destruct (GetWorkoutByID id w) as [[[workout |] | e] w1] eqn:E;
        simpl in H; try discriminate H.
      eapply Hnone. exact E.
Qed.

(** X14, at a concrete input: GET /workouts/9, which no stored workout
    has, is answered 200 with a null workout. *)
Lemma HandleGetWorkoutByID_outcomes_witness :
  fst (HandleGetWorkoutByID (mkRequest (Some 9) None nilUser)
         Fixtures.stored) =
    [WriteJSON StatusOK (env_workout None)] /\
  same_database Fixtures.stored
    (snd (HandleGetWorkoutByID (mkRequest (Some 9) None nilUser)
            Fixtures.stored)).
Proof.
  destruct HandleGetWorkoutByID_outcomes as [H1 H2].
  split.
  - apply (H2 (mkRequest (Some 9) None nilUser) Fixtures.stored 9);
      [reflexivity | reflexivity |].
    simpl. constructor; [discriminate | constructor].
  - apply (H1 (mkRequest (Some 9) None nilUser) Fixtures.stored
              (fst (HandleGetWorkoutByID (mkRequest (Some 9) None nilUser)
                      Fixtures.stored))).
    vm_compute. reflexivity.
Defined.

(** X15.  The get, create and update handlers write exactly one response on
    every path.  The delete handler writes one or two, and two exactly when
    the owner lookup returned a user other than the caller: the forbidden
    response first, whose status is the status of the answer, then the
    response of the deletion. *)
Theorem handlers_response_writes :
  (forall r w, List.length (fst (HandleGetWorkoutByID r w)) = 1%nat) /\
  (forall r w, List.length (fst (HandleCreateWorkout r w)) = 1%nat) /\
  (forall r w, List.length (fst (HandleUpdateWorkoutByID r w)) = 1%nat) /\
  (forall r w,
     (List.length (fst (HandleDeleteWorkoutByID r w)) = 1%nat /\
      ~ (exists id uid owner,
           ReadIDParam r = Some id /\ GetUser r = User uid /\
           fst (GetWorkoutOwner id w) = Ok owner /\ owner <> uid)) \/
     (List.length (fst (HandleDeleteWorkoutByID r w)) = 2%nat /\
      response_status (fst (HandleDeleteWorkoutByID r w)) = StatusForbidden /\
      exists id uid owner,
        ReadIDParam r = Some id /\ GetUser r = User uid /\
        fst (GetWorkoutOwner id w) = Ok owner /\ owner <> uid)).
Proof.
  split; [| split; [| split]]; intros r w.
  - unfold HandleGetWorkoutByID. destruct (ReadIDParam r); [| reflexivity].
    destruct (GetWorkoutByID z w) as [[found | e] w1]; reflexivity.
  - unfold HandleCreateWorkout. destruct (Decode r); [| reflexivity].
    destruct (GetUser r); try reflexivity.
    destruct (CreateWorkout _ w) as [[created | e] w1]; reflexivity.
  - destruct (HandleUpdateWorkoutByID r w) as [resp w'] eqn:E. simpl.
    apply HandleUpdateWorkoutByID_inv in E.
    destruct E as [[id [existing [w1 [req [uid [w2 H]]]]]] | [_ [x [-> _]]]];
      [| reflexivity].
    destruct H as [_ [_ [_ [_ [_ [_ ->]]]]]]. reflexivity.
  - unfold HandleDeleteWorkoutByID.
    destruct (ReadIDParam r) as [id |].
    2:{ left. split; [reflexivity |].
        intros [id [uid [owner [H _]]]]. discriminate H. }
    destruct (GetUser r) as [| | uid].
    1,2: left; (split; [reflexivity |]);
         intros [id0 [uid [owner [_ [H _]]]]]; discriminate H.
    destruct (GetWorkoutOwner id w) as [[owner | e] w1] eqn:E.
    2:{ left. split; [destruct e; reflexivity |].
        intros [id0 [uid0 [owner [H1 [_ [H3 _]]]]]].
        injection H1 as <-. rewrite E in H3. discriminate H3. }
    destruct (Z.eqb_spec owner uid) as [-> | Hne]; simpl.
    + left. split.
      * destruct (DeleteWorkout id w1) as [[[] | e] w2];
          [| destruct e]; reflexivity.
      * intros [id0 [uid0 [owner [H1 [H2 [H3 H4]]]]]].
        injection H1 as <-. injection H2 as <-. rewrite E in H3.
        simpl in H3. injection H3 as <-. contradiction.
    + right. split; [| split].
      * destruct (DeleteWorkout id w1) as [[[] | e] w2];
          [| destruct e]; reflexivity.
      * destruct (DeleteWorkout id w1) as [[[] | e] w2];
          [| destruct e]; reflexivity.
      * exists id, uid, owner. rewrite E. repeat split. exact Hne.
Qed.

(** X16.  A body without entries, answered 200: the answer carries the
    entries as they were loaded, and a GetWorkoutByID that then returns with
    no call and no fetch failing returns the merged header with the same
    entries but for their identities, which are new because UpdateWorkout
    deletes and reinserts them, and with the same sequence of OrderIndex
    values; where no two entries have the same OrderIndex the entries are in
    the same order. *)
Theorem HandleUpdateWorkoutByID_without_entries :
  forall r w id existing w1 req resp w' found w'',
    ReadIDParam r = Some id ->
    GetWorkoutByID id w = (Ok (Some existing), w1) ->
    Decode r = Some req ->
    req_Entries req = None ->
    HandleUpdateWorkoutByID r w = (resp, w') ->
    response_status resp = StatusOK ->
    GetWorkoutByID id w' = (Ok found, w'') ->
    Forall (fun o => o = None) (new_calls w' w'') ->
    resp = [WriteJSON StatusOK
              (env_workout (Some (applyUpdate req existing)))] /\
    Entries (applyUpdate req existing) = Entries existing /\
    exists got,
      found = Some got /\
      same_header got (applyUpdate req existing) /\
      Permutation (map (set_EntryID 0) (Entries got))
                  (map (set_EntryID 0) (Entries existing)) /\
      map OrderIndex (Entries got) = map OrderIndex (Entries existing) /\
      (StronglySorted entry_lt (Entries existing) ->
       Entries got =
         with_ids (workout_entries_id_seq w) (Entries existing)).
Proof.
  intros r w id existing w1 req resp w' found w'' Hid HG Hd Hn H Hs HG2 HN.
  apply HandleUpdateWorkoutByID_inv in H.
  destruct H as [[id0 [ex0 [w10 [req0 [uid [w2 H]]]]]] | [_ [x [-> [Hin _]]]]].
  2:{ simpl in Hs. rewrite Hs in Hin. simpl in Hin.
      destruct Hin as [Hin | [Hin | [Hin | [Hin | []]]]]; discriminate Hin. }
  destruct H as [Hid0 [HG0 [Hd0 [_ [HO [HU ->]]]]]].
  rewrite Hid in Hid0. injection Hid0 as <-.
  rewrite HG in HG0. injection HG0 as <- <-.
  rewrite Hd in Hd0. injection Hd0 as <-.
  split; [reflexivity |].
  pose proof (applyUpdate_Entries_absent req existing Hn) as He.
  split; [exact He |].
  pose proof (GetWorkoutByID_same _ _ _ _ HG) as [_ [_ [_ Hs1]]].
  pose proof (GetWorkoutOwner_same _ _ _ _ HO) as [_ [_ [_ Hs2]]].
  pose proof (GetWorkoutByID_some_ID _ _ _ _ HG) as Hex.
  assert (Hsorted : StronglySorted entry_le (Entries existing)).
  { apply GetWorkoutByID_ok in HG. destruct HG as [_ [row [_ ->]]].
    simpl. apply entries_of_sorted. }
  assert (Hmid : ID (applyUpdate req existing) = id)
    by (rewrite applyUpdate_ID; exact Hex).
  apply UpdateWorkout_ok in HU. destruct HU as [Hc [_ Hne]].
  destruct (updated_row_found (applyUpdate req existing)
              (workout_entries_id_seq w2) (committed w2) Hne) as [row Hrow].
  rewrite <- Hc in Hrow. rewrite Hmid in Hrow.
  assert (Hrows : filter (fun r => e_workout_id r =? id)
                         (workout_entries (committed w')) =
                  entry_rows id (workout_entries_id_seq w2)
                             (Entries existing)).
  { pose proof (updated_tables_entries (applyUpdate req existing)
                  (workout_entries_id_seq w2) (committed w2)) as Hut.
    rewrite <- Hc, Hmid, He in Hut. exact Hut. }
  destruct (read_inserted _ _ _ _ _ _ _ HG2 HN Hrow Hrows)
    as [got [-> [Hgot [Hp [Hso Heq]]]]].
  rewrite Hc, <- Hmid in Hrow. apply updated_tables_header in Hrow.
  destruct Hrow as [_ [H2 [H3 [H4 H5]]]].
  exists got. split; [reflexivity |].
  split; [rewrite Hgot; repeat split; simpl; assumption |].
  split; [| split].
  - rewrite <- (erase_with_ids (workout_entries_id_seq w2)
                  (Entries existing)).
    apply Permutation_map. exact Hp.
  - apply sorted_permutation_eq.
    + apply OrderIndex_sorted. exact Hso.
    + apply OrderIndex_sorted. exact Hsorted.
    + rewrite <- (with_ids_OrderIndex (workout_entries_id_seq w2)
                    (Entries existing)).
      apply Permutation_map. exact Hp.
  - intros Hlt. rewrite <- Hs1, <- Hs2. apply Heq. exact Hlt.
Qed.

(** X16, at the specification's example: the owner sends only
    calories_burned for the stored workout, which is then read back. *)
Lemma HandleUpdateWorkoutByID_without_entries_witness :
  exists got,
    fst (GetWorkoutByID 1
           (snd (HandleUpdateWorkoutByID Fixtures.update_by_owner
                   Fixtures.stored))) = Ok (Some got) /\
    CaloriesBurned got = 320 /\
    Title got = Title Fixtures.stored_workout /\
    Entries got =
      [set_EntryID 4 Fixtures.squat; set_EntryID 5 Fixtures.lunge;
       set_EntryID 6 Fixtures.plank].
Proof.
  destruct (HandleUpdateWorkoutByID_without_entries
              Fixtures.update_by_owner Fixtures.stored 1
              Fixtures.stored_workout
              (snd (GetWorkoutByID 1 Fixtures.stored))
              Fixtures.calories_only
              (fst (HandleUpdateWorkoutByID Fixtures.update_by_owner
                      Fixtures.stored))
              (snd (HandleUpdateWorkoutByID Fixtures.update_by_owner
                      Fixtures.stored))
              (Some (mkWorkout 1 "Leg Day" "" 45 320 0
                       [set_EntryID 4 Fixtures.squat;
                        set_EntryID 5 Fixtures.lunge;
                        set_EntryID 6 Fixtures.plank]))
              (snd (GetWorkoutByID 1
                      (snd (HandleUpdateWorkoutByID Fixtures.update_by_owner
                              Fixtures.stored)))))
    as [_ [_ [got [Hf [[Ht [_ [_ Hc]]] [_ [_ He]]]]]]].
  - vm_compute. reflexivity.
  - vm_compute. reflexivity.
  - vm_compute. reflexivity.
  - vm_compute. reflexivity.
  - vm_compute. reflexivity.
  - vm_compute. reflexivity.
  - vm_compute. reflexivity.
  - vm_compute. repeat constructor.
  - exists got. split; [rewrite <- Hf; vm_compute; reflexivity |].
    split; [exact Hc |]. split; [exact Ht |].
    apply He. repeat constructor.
Defined.
